(** * StudyTracker: task board, month calendar and chat client

    A shallow embedding of the three browser scripts of the repository
    (the task board, [calendar.js] and the chat client) together with the
    properties of their persistence, rendering and state transitions.

    The file has two parts.  Part I holds the definitions: a model of the
    pieces of the JavaScript runtime the scripts call ([JS]), one module
    per script ([Board], [Calendar], [Chat]), and the notions of the
    specification that the statements compare the scripts with
    ([Contract]).  Part II holds the theorems: the round trip of JSON
    through the store, the load contract, the subject colours, the chat
    client, the order of subjects and of priorities, the ids of tasks, the
    calendar of the runtime, the bucketing of the month grid and the
    due-date badge; then the board event by event (what the store holds,
    what [App.init] and each handler change and keep), the dates of the
    form, the theme, the calendar cell by cell and the chat client send by
    send.

    Dates are local and the model of the runtime has no time zone: where
    a statement depends on a day that a time zone can skip, it says that
    the local calendar has the day ([dateExists], [Calendar.monthExists]).
    Subject names that are names of members of [Object.prototype] are
    excluded where a statement reads or writes the colour of a name
    ([prototypeName]). *)

From Stdlib Require Import ZArith List String Ascii Lia Bool Floats.
From Stdlib Require Import DecimalString DecimalZ Sorting.Permutation Sorting.Sorted.
From stdpp Require Import base option list gmap strings.

Local Open Scope Z_scope.

(* ===================================================================== *)
(** * Part I: definitions *)
(* ===================================================================== *)

(** ** The JavaScript runtime, as far as the scripts use it

    Strings are sequences of code units; the model keeps the code units
    U+0000..U+00FF (Rocq's [ascii]).  Numbers that the scripts store or hash
    are integers and are kept as [Z]; the only floating-point computation,
    the colour conversion, runs on binary64 floats. *)
Module JS.

(** [s.charCodeAt(i)] for each position of [s]. *)
Definition charCodes (s : string) : list Z :=
  map (fun c => Z.of_N (N_of_ascii c)) (list_ascii_of_string s).

(** White space and line terminators removed by [String.prototype.trim]
    (TAB, LF, VT, FF, CR, SP, NBSP). *)
Definition is_white (c : ascii) : bool :=
  let n := N_of_ascii c in
  ((9 <=? n) && (n <=? 13) || (n =? 32) || (n =? 160))%N.

Fixpoint trimStart (s : string) : string :=
  match s with
  | String c s' => if is_white c then trimStart s' else s
  | EmptyString => EmptyString
  end.

(** Trailing white space: a character is dropped when it is white and
    everything after it has been dropped. *)
Fixpoint trimEnd (s : string) : string :=
  match s with
  | String c s' =>
      match trimEnd s' with
      | EmptyString => if is_white c then EmptyString else String c EmptyString
      | t => String c t
      end
  | EmptyString => EmptyString
  end.

Definition trim (s : string) : string := trimEnd (trimStart s).

(** Truthiness of a string: [!s] holds exactly for the empty string. *)
Definition nonempty (s : string) : bool :=
  match s with EmptyString => false | _ => true end.

(** [String(n)] / [n.toString()] for an integer [n]. *)
Definition toString (n : Z) : string := NilZero.string_of_int (Z.to_int n).

(** [s.padStart(2, '0')]. *)
Definition padStart2 (s : string) : string :=
  match s with
  | EmptyString => "00"
  | String c EmptyString => String "0" (String c EmptyString)
  | _ => s
  end.

Definition hexDigit (d : Z) : ascii :=
  if d <? 10 then ascii_of_N (Z.to_N (48 + d)) else ascii_of_N (Z.to_N (87 + d)).

Fixpoint hexDigits (fuel : nat) (n : Z) (acc : string) : string :=
  match fuel with
  | O => acc
  | S fuel' =>
      let acc' := String (hexDigit (n mod 16)) acc in
      if n / 16 =? 0 then acc' else hexDigits fuel' (n / 16) acc'
  end.

(** [n.toString(16)] for an integer [n]: lower-case digits, a leading
    minus sign for negative numbers. *)
Definition toString16 (n : Z) : string :=
  let body := hexDigits (S (Z.to_nat (Z.log2 (Z.abs n)))) (Z.abs n) EmptyString in
  if n <? 0 then String "-" body else body.

(** [ToInt32]: what [h |= 0] and [h << 5] reduce an integer to. *)
Definition toInt32 (z : Z) : Z := (z + 2147483648) mod 4294967296 - 2147483648.

(** [h << k] on an integer [h]. *)
Definition shl32 (h k : Z) : Z := toInt32 (Z.shiftl (toInt32 h) (k mod 32)).

(** *** binary64 helpers *)

Definition ofZ (n : Z) : float :=
  if n <? 0 then (- PrimFloat.of_uint63 (Uint63.of_Z (- n)))%float
  else PrimFloat.of_uint63 (Uint63.of_Z n).

(** The value of a finite float as [m * 2^e] with a signed [m]. *)
Definition mantExp (x : float) : option (Z * Z) :=
  match Prim2SF x with
  | S754_zero _ => Some (0, 0)
  | S754_finite s m e => Some (if s then Z.neg m else Z.pos m, e)
  | _ => None
  end.

(** [Math.round]: the nearest integer, ties towards plus infinity
    (not a number and the infinities are not integers: [None]). *)
Definition Math_round (x : float) : option Z :=
  match mantExp x with
  | Some (m, e) =>
      if 0 <=? e then Some (m * 2 ^ e)
      else Some ((2 * m + 2 ^ (- e)) / 2 ^ (1 - e))
  | None => None
  end.

(** [x % y] on floats: the exact remainder with the sign of [x]. *)
Definition fmod (x y : float) : float :=
  match mantExp x, mantExp y with
  | Some (mx, ex), Some (my, ey) =>
      if my =? 0 then nan
      else
        let e := Z.min ex ey in
        let r := Z.rem (mx * 2 ^ (ex - e)) (my * 2 ^ (ey - e)) in
        if r =? 0 then (if mx <? 0 then (- 0)%float else 0%float)
        else Z.ldexp (ofZ r) e
  | Some _, None => if PrimFloat.is_infinity y then x else nan
  | None, _ => nan
  end.

(** *** JSON values

    What [JSON.parse] can return and [JSON.stringify] can print: an object
    is the list of its own properties in insertion order. *)
#[warnings="-register-all"]
Inductive json : Type :=
| JNull
| JBool (b : bool)
| JNum (n : Z)
| JStr (s : string)
| JArr (items : list json)
| JObj (props : list (string * json)).

Definition dquote : ascii := "034"%char.
Definition backslash : ascii := "092"%char.

Definition hex2 (n : N) : string :=
  String (hexDigit (Z.of_N (n / 16))) (String (hexDigit (Z.of_N (n mod 16))) EmptyString).

(** [QuoteJSONString], one code unit: the quote, the backslash and the
    control characters are escaped, everything else is copied. *)
Definition escapeChar (c : ascii) : string :=
  let n := N_of_ascii c in
  if (n =? 34)%N then String backslash (String dquote EmptyString)
  else if (n =? 92)%N then String backslash (String backslash EmptyString)
  else if (n =? 8)%N then String backslash "b"
  else if (n =? 9)%N then String backslash "t"
  else if (n =? 10)%N then String backslash "n"
  else if (n =? 12)%N then String backslash "f"
  else if (n =? 13)%N then String backslash "r"
  else if (n <? 32)%N then String backslash ("u00" +:+ hex2 n)
  else String c EmptyString.

Fixpoint escape (s : string) : string :=
  match s with
  | EmptyString => EmptyString
  | String c s' => escapeChar c +:+ escape s'
  end.

Definition quoteJSON (s : string) : string :=
  String dquote (escape s +:+ String dquote EmptyString).

(** The printed parts of an array or object, separated by commas. *)
Fixpoint joinComma (parts : list string) : string :=
  match parts with
  | [] => EmptyString
  | part :: parts' =>
      match parts' with
      | [] => part
      | _ :: _ => part +:+ String "," (joinComma parts')
      end
  end.

(** [JSON.stringify(v)] without indentation. *)
Fixpoint JSON_stringify (v : json) : string :=
  match v with
  | JNull => "null"
  | JBool true => "true"
  | JBool false => "false"
  | JNum n => toString n
  | JStr s => quoteJSON s
  | JArr items =>
      String "[" (joinComma (map JSON_stringify items) +:+ "]")
  | JObj props =>
      String "{"
        (joinComma
           (map (fun kv => quoteJSON (fst kv) +:+ String ":" (JSON_stringify (snd kv)))
                props)
         +:+ "}")
  end.

(** JSON white space: TAB, LF, CR, SP. *)
Definition is_ws (c : ascii) : bool :=
  let n := N_of_ascii c in
  ((n =? 9) || (n =? 10) || (n =? 13) || (n =? 32))%N.

Fixpoint skipWs (s : string) : string :=
  match s with
  | String c s' => if is_ws c then skipWs s' else s
  | EmptyString => EmptyString
  end.

Definition hexVal (c : ascii) : option N :=
  let n := N_of_ascii c in
  if ((48 <=? n) && (n <=? 57))%N then Some (n - 48)%N
  else if ((97 <=? n) && (n <=? 102))%N then Some (n - 87)%N
  else if ((65 <=? n) && (n <=? 70))%N then Some (n - 55)%N
  else None.

Definition hex4 (a b c d : ascii) : option N :=
  match hexVal a, hexVal b, hexVal c, hexVal d with
  | Some x, Some y, Some z, Some w => Some (((x * 16 + y) * 16 + z) * 16 + w)%N
  | _, _, _, _ => None
  end.

(** The character a one-letter escape stands for. *)
Definition unescape (e : ascii) : option ascii :=
  let n := N_of_ascii e in
  if (n =? 34)%N then Some dquote
  else if (n =? 92)%N then Some backslash
  else if (n =? 47)%N then Some "/"%char
  else if (n =? 98)%N then Some "008"%char
  else if (n =? 102)%N then Some "012"%char
  else if (n =? 110)%N then Some "010"%char
  else if (n =? 114)%N then Some "013"%char
  else if (n =? 116)%N then Some "009"%char
  else None.

Definition consChar (c : ascii) (r : option (string * string)) : option (string * string) :=
  match r with
  | Some (s, rest) => Some (String c s, rest)
  | None => None
  end.

(** The characters of a string literal after its opening quote, up to the
    closing quote; the result is the string and the rest of the input.  A
    [\uXXXX] escape above U+00FF is outside the code units of the model
    and is not read. *)
Fixpoint parseChars (s : string) : option (string * string) :=
  match s with
  | EmptyString => None
  | String c s1 =>
      if (N_of_ascii c =? 34)%N then Some (EmptyString, s1)
      else if (N_of_ascii c =? 92)%N then
        match s1 with
        | EmptyString => None
        | String e s2 =>
            if (N_of_ascii e =? 117)%N then
              match s2 with
              | String h1 (String h2 (String h3 (String h4 s3))) =>
                  match hex4 h1 h2 h3 h4 with
                  | Some n =>
                      if (n <? 256)%N then consChar (ascii_of_N n) (parseChars s3)
                      else None
                  | None => None
                  end
              | _ => None
              end
            else
              match unescape e with
              | Some ch => consChar ch (parseChars s2)
              | None => None
              end
        end
      else if (N_of_ascii c <? 32)%N then None
      else consChar c (parseChars s1)
  end.

Definition digitVal (c : ascii) : option Z :=
  let n := N_of_ascii c in
  if ((48 <=? n) && (n <=? 57))%N then Some (Z.of_N n - 48) else None.

(** A run of decimal digits read into [acc]. *)
Fixpoint parseDigits (acc : Z) (s : string) : Z * string :=
  match s with
  | String c s' =>
      match digitVal c with
      | Some d => parseDigits (10 * acc + d) s'
      | None => (acc, s)
      end
  | EmptyString => (acc, s)
  end.

Definition startsFraction (s : string) : bool :=
  match s with
  | String c _ =>
      let n := N_of_ascii c in ((n =? 46) || (n =? 101) || (n =? 69))%N
  | EmptyString => false
  end.

(** An unsigned integer literal: [0], or a digit run that does not start
    with [0].  A fraction or exponent part makes a number that is not an
    integer timestamp; such literals are outside the model and not read. *)
Definition parseNat (s : string) : option (Z * string) :=
  match s with
  | String c s' =>
      match digitVal c with
      | Some 0 => if startsFraction s' then None else Some (0, s')
      | Some d =>
          let '(n, rest) := parseDigits d s' in
          if startsFraction rest then None else Some (n, rest)
      | None => None
      end
  | EmptyString => None
  end.

Definition parseNumber (s : string) : option (Z * string) :=
  match s with
  | String "-" s' =>
      match parseNat s' with
      | Some (n, rest) => Some (- n, rest)
      | None => None
      end
  | _ => parseNat s
  end.

(** The rest of a literal after its first letter. *)
Fixpoint expect (word s : string) : option string :=
  match word with
  | EmptyString => Some s
  | String w word' =>
      match s with
      | String c s' => if Ascii.eqb c w then expect word' s' else None
      | EmptyString => None
      end
  end.

(** [obj[k] = v] on an own-property list: an existing key keeps its place
    and takes the new value, a new key goes last. *)
Fixpoint setProp (k : string) (v : json) (props : list (string * json))
  : list (string * json) :=
  match props with
  | [] => [(k, v)]
  | (k', v') :: props' =>
      if String.eqb k' k then (k, v) :: props' else (k', v') :: setProp k v props'
  end.

Definition objectOf (members : list (string * json)) : json :=
  JObj (fold_left (fun acc kv => setProp (fst kv) (snd kv) acc) members []).

(** The input after white space and the character [c], when that is
    what comes next. *)
Definition after (c : ascii) (s : string) : option string :=
  match skipWs s with
  | String c' r => if Ascii.eqb c' c then Some r else None
  | EmptyString => None
  end.

(** The recursive descent of [JSON.parse].  Every call consumes one unit
    of [fuel]; a call that succeeds has read at least one character and
    needs no more fuel than the characters it has read, so the length of
    the input is always enough (see [JSON_parse_fuel]). *)
Fixpoint parseValue (fuel : nat) (s : string) : option (json * string) :=
  match fuel with
  | O => None
  | S fuel' =>
      match skipWs s with
      | EmptyString => None
      | String c s1 =>
          let n := N_of_ascii c in
          if (n =? 110)%N then
            match expect "ull" s1 with Some r => Some (JNull, r) | None => None end
          else if (n =? 116)%N then
            match expect "rue" s1 with Some r => Some (JBool true, r) | None => None end
          else if (n =? 102)%N then
            match expect "alse" s1 with Some r => Some (JBool false, r) | None => None end
          else if (n =? 34)%N then
            match parseChars s1 with
            | Some (str, r) => Some (JStr str, r)
            | None => None
            end
          else if (n =? 91)%N then
            match after "]" s1 with
            | Some r => Some (JArr [], r)
            | None =>
                match parseElements fuel' s1 with
                | Some (items, r) => Some (JArr items, r)
                | None => None
                end
            end
          else if (n =? 123)%N then
            match after "}" s1 with
            | Some r => Some (JObj [], r)
            | None =>
                match parseMembers fuel' s1 with
                | Some (members, r) => Some (objectOf members, r)
                | None => None
                end
            end
          else
            match parseNumber (String c s1) with
            | Some (z, r) => Some (JNum z, r)
            | None => None
            end
      end
  end
with parseElements (fuel : nat) (s : string) : option (list json * string) :=
  match fuel with
  | O => None
  | S fuel' =>
      match parseValue fuel' s with
      | Some (v, r) =>
          match after "," r with
          | Some r' =>
              match parseElements fuel' r' with
              | Some (vs, r'') => Some (v :: vs, r'')
              | None => None
              end
          | None =>
              match after "]" r with
              | Some r' => Some ([v], r')
              | None => None
              end
          end
      | None => None
      end
  end
with parseMembers (fuel : nat) (s : string) : option (list (string * json) * string) :=
  match fuel with
  | O => None
  | S fuel' =>
      match after dquote s with
      | Some s1 =>
          match parseChars s1 with
          | Some (k, r) =>
              match after ":" r with
              | Some r1 =>
                  match parseValue fuel' r1 with
                  | Some (v, r2) =>
                      match after "," r2 with
                      | Some r3 =>
                          match parseMembers fuel' r3 with
                          | Some (kvs, r4) => Some ((k, v) :: kvs, r4)
                          | None => None
                          end
                      | None =>
                          match after "}" r2 with
                          | Some r3 => Some ([(k, v)], r3)
                          | None => None
                          end
                      end
                  | None => None
                  end
              | None => None
              end
          | None => None
          end
      | None => None
      end
  end.

(** [JSON.parse(text)]: [None] stands for the [SyntaxError] it throws. *)
Definition JSON_parse (text : string) : option json :=
  match parseValue (S (String.length text)) text with
  | Some (v, rest) =>
      match skipWs rest with
      | EmptyString => Some v
      | String _ _ => None
      end
  | None => None
  end.

(** *** Well-formed values

    The values the round trip through the store is stated for: an object
    has no key twice (an object of the runtime cannot), and a number is an
    integer that binary64 holds exactly. *)
Fixpoint distinctKeys (keys : list string) : bool :=
  match keys with
  | [] => true
  | k :: keys' => negb (existsb (String.eqb k) keys') && distinctKeys keys'
  end.

Fixpoint wellFormed (v : json) : bool :=
  match v with
  | JNum n => Z.abs n <=? 9007199254740991
  | JArr items => forallb wellFormed items
  | JObj props =>
      distinctKeys (map fst props) && forallb (fun kv => wellFormed (snd kv)) props
  | _ => true
  end.

(** The number of calls the parser makes for a value. *)
Fixpoint json_size (v : json) : nat :=
  match v with
  | JArr items => S (fold_right (fun x n => S (json_size x + n)) O items)
  | JObj props => S (fold_right (fun kv n => S (json_size (snd kv) + n)) O props)
  | _ => 1
  end.

(** The input after a printed value: its end, a comma or a closing
    bracket. *)
Definition closes (rest : string) : bool :=
  match rest with
  | EmptyString => true
  | String c _ =>
      let n := N_of_ascii c in ((n =? 44) || (n =? 93) || (n =? 125))%N
  end.

(** The characters a printed value can start with. *)
Definition valueStart (c : ascii) : bool :=
  let n := N_of_ascii c in
  ((n =? 110) || (n =? 116) || (n =? 102) || (n =? 34) || (n =? 91) || (n =? 123)
   || (n =? 45) || (48 <=? n) && (n <=? 57))%N.

Definition printMember (kv : string * json) : string :=
  quoteJSON (fst kv) +:+ String ":" (JSON_stringify (snd kv)).

(** The parser reads a printed value back, whatever follows it. *)
Definition parses (v : json) : Prop :=
  wellFormed v = true ->
  forall (fuel : nat) (rest : string),
    (json_size v <= fuel)%nat -> closes rest = true ->
    parseValue fuel (JSON_stringify v +:+ rest) = Some (v, rest).

(** A parse that succeeds with some fuel has read at least one character,
    and succeeds the same with any fuel that is at least the number of
    characters read. *)
Definition stable {A : Type} (parse : nat -> string -> option (A * string)) (fuel : nat)
  : Prop :=
  forall (s : string) (x : A) (r : string),
    parse fuel s = Some (x, r) ->
    (String.length r < String.length s)%nat
    /\ forall fuel', (String.length s - String.length r <= fuel')%nat ->
                     parse fuel' s = Some (x, r).

(** *** Values at run time *)

(** What a call does: it returns a value or throws. *)
Inductive completion (A : Type) : Type :=
| Returns (a : A)
| Throws (error : string).
Arguments Returns {A} a.
Arguments Throws {A} error.

(** [ToBoolean]. *)
Definition truthy (v : json) : bool :=
  match v with
  | JNull => false
  | JBool b => b
  | JNum n => negb (n =? 0)
  | JStr s => nonempty s
  | JArr _ | JObj _ => true
  end.

Fixpoint lookupProp (k : string) (props : list (string * json)) : option json :=
  match props with
  | [] => None
  | (k', v) :: props' => if String.eqb k' k then Some v else lookupProp k props'
  end.

(** [v.k] for a name [k] that no prototype defines: reading a property of
    [null] throws, an object yields its own property, any other value
    yields [undefined] ([None]). *)
Definition getProp (v : json) (k : string) : completion (option json) :=
  match v with
  | JNull => Throws "TypeError"
  | JObj props => Returns (lookupProp k props)
  | _ => Returns None
  end.

Definition truthyOpt (o : option json) : bool :=
  match o with Some v => truthy v | None => false end.

(** [Array.isArray(v)]. *)
Definition isArray (v : json) : bool :=
  match v with JArr _ => true | _ => false end.

(** [v && typeof v === 'object']: [typeof] says ['object'] for objects,
    arrays and [null]; [null] is not truthy. *)
Definition isObjectLike (v : json) : bool :=
  match v with JArr _ | JObj _ => true | _ => false end.

(** *** localStorage *)

(** The store maps keys to strings; [getItem] yields [null] ([None]) for a
    key that is not there. *)
Definition getItem (store : gmap string string) (key : string) : option string :=
  store !! key.

Definition setItem (store : gmap string string) (key value : string)
  : gmap string string :=
  <[key := value]> store.

(** [safelyParseJson(text, fallback)], the same in all three scripts:
    [JSON.parse] applies [ToString] to its argument, so the [null] of a
    missing entry is parsed as the literal [null]. *)
Definition safelyParseJson (text : option string) (fallback : json) : json :=
  let source := match text with Some s => s | None => "null" end in
  match JSON_parse source with
  | Some v => v
  | None => fallback
  end.

(** *** Array.prototype.sort

    The sort is stable and takes a comparator: a negative result puts the
    first argument first, a positive result the second, zero keeps the
    input order.  For a consistent comparator the result is determined by
    these rules; it is computed here by insertion. *)
Section Sort.
Context {A : Type} (compare : A -> A -> Z).

Fixpoint sortInsert (x : A) (sorted : list A) : list A :=
  match sorted with
  | [] => [x]
  | y :: sorted' =>
      if compare x y <=? 0 then x :: y :: sorted' else y :: sortInsert x sorted'
  end.

Fixpoint sort (l : list A) : list A :=
  match l with
  | [] => []
  | x :: l' => sortInsert x (sort l')
  end.

End Sort.

(** *** Numbers from strings *)

Definition isDigit (c : ascii) : bool :=
  match digitVal c with Some _ => true | None => false end.

Definition allDigits (s : string) : bool :=
  nonempty s && forallb isDigit (list_ascii_of_string s).

(** [Number(v)] for a string or [undefined] ([None]); the result [None]
    is [NaN].  White space is trimmed, the empty string is zero, and an
    optionally signed run of decimal digits is its value.  The other
    numeric literals of [StringToNumber] (fractions, exponents, radix
    prefixes, [Infinity]), which a date input never produces, are outside
    the model and read as [NaN]. *)
Definition Number (v : option string) : option Z :=
  match v with
  | None => None
  | Some s =>
      match trim s with
      | EmptyString => Some 0
      | String "-" digits =>
          if allDigits digits then Some (- fst (parseDigits 0 digits)) else None
      | String "+" digits =>
          if allDigits digits then Some (fst (parseDigits 0 digits)) else None
      | digits =>
          if allDigits digits then Some (fst (parseDigits 0 digits)) else None
      end
  end.

(** [String(n)] for a number that may be [NaN]. *)
Definition numString (n : option Z) : string :=
  match n with Some z => toString z | None => "NaN" end.

(** [s.split(sep)] for a one-character separator. *)
Fixpoint split (sep : ascii) (s : string) : list string :=
  match s with
  | EmptyString => [EmptyString]
  | String c s' =>
      if Ascii.eqb c sep then EmptyString :: split sep s'
      else
        match split sep s' with
        | part :: parts => String c part :: parts
        | [] => [String c EmptyString]
        end
  end.

(** *** Dates

    A [Date] holds a time value in milliseconds, or [NaN] ([None]) when it
    is invalid.  The scripts only use local time; the model has no zone
    offset, so the time value counts from local midnight of 1970-01-01.
    The day arithmetic is ECMAScript's. *)

Definition msPerDay : Z := 86400000.

Definition dayFromYear (y : Z) : Z :=
  365 * (y - 1970) + (y - 1969) / 4 - (y - 1901) / 100 + (y - 1601) / 400.

Definition inLeapYear (y : Z) : bool :=
  (y mod 4 =? 0) && (negb (y mod 100 =? 0) || (y mod 400 =? 0)).

Definition daysInYear (y : Z) : Z := if inLeapYear y then 366 else 365.

(** The largest year that starts on or before day [n]: an estimate from
    the 146097 days of 400 years, corrected by one either way. *)
Definition yearFromDay (n : Z) : Z :=
  let c := 1970 + (400 * n) / 146097 in
  if dayFromYear (c + 1) <=? n then c + 1
  else if dayFromYear c <=? n then c
  else c - 1.

(** The day within the year on which month [m] (0..11) starts; 12 gives
    the length of the year. *)
Definition monthStart (leap : bool) (m : Z) : Z :=
  let extra := if leap then 1 else 0 in
  match m with
  | 0 => 0
  | 1 => 31
  | 2 => 59 + extra
  | 3 => 90 + extra
  | 4 => 120 + extra
  | 5 => 151 + extra
  | 6 => 181 + extra
  | 7 => 212 + extra
  | 8 => 243 + extra
  | 9 => 273 + extra
  | 10 => 304 + extra
  | 11 => 334 + extra
  | _ => 365 + extra
  end.

Definition dayWithinYear (n : Z) : Z := n - dayFromYear (yearFromDay n).

Definition monthFromDay (n : Z) : Z :=
  let leap := inLeapYear (yearFromDay n) in
  let d := dayWithinYear n in
  if d <? monthStart leap 1 then 0
  else if d <? monthStart leap 2 then 1
  else if d <? monthStart leap 3 then 2
  else if d <? monthStart leap 4 then 3
  else if d <? monthStart leap 5 then 4
  else if d <? monthStart leap 6 then 5
  else if d <? monthStart leap 7 then 6
  else if d <? monthStart leap 8 then 7
  else if d <? monthStart leap 9 then 8
  else if d <? monthStart leap 10 then 9
  else if d <? monthStart leap 11 then 10
  else 11.

Definition dateFromDay (n : Z) : Z :=
  dayWithinYear n - monthStart (inLeapYear (yearFromDay n)) (monthFromDay n) + 1.

(** 1970-01-01 was a Thursday; 0 is Sunday. *)
Definition weekDay (n : Z) : Z := (n + 4) mod 7.

(** [MakeDay(year, month, date)]: months and dates out of range carry
    over. *)
Definition makeDay (year month date : Z) : Z :=
  let ym := year + month / 12 in
  let mn := month mod 12 in
  dayFromYear ym + monthStart (inLeapYear ym) mn + date - 1.

(** The length of month [monthIndex] (0..11) of a year, from the table
    of month starts. *)
Definition daysIn (year monthIndex : Z) : Z :=
  monthStart (inLeapYear year) (monthIndex + 1) - monthStart (inLeapYear year) monthIndex.

(** [TimeClip]: a time value further than 100 million days from the
    epoch is invalid. *)
Definition timeClip (t : Z) : option Z :=
  if Z.abs t <=? 8640000000000000 then Some t else None.

Definition Date : Type := option Z.

(** [new Date(year, month, date)]; a year from 0 to 99 means 1900 plus
    that year; a [NaN] year gives an invalid date. *)
Definition newDate (year : option Z) (month date : Z) : Date :=
  match year with
  | None => None
  | Some y =>
      let yr := if (0 <=? y) && (y <=? 99) then 1900 + y else y in
      timeClip (makeDay yr month date * msPerDay)
  end.

Definition day (t : Z) : Z := t / msPerDay.
Definition timeWithinDay (t : Z) : Z := t mod msPerDay.

Definition getFullYear (d : Date) : option Z := option_map (fun t => yearFromDay (day t)) d.
Definition getMonth (d : Date) : option Z := option_map (fun t => monthFromDay (day t)) d.
Definition getDate (d : Date) : option Z := option_map (fun t => dateFromDay (day t)) d.
Definition getDay (d : Date) : option Z := option_map (fun t => weekDay (day t)) d.

(** [d.setHours(0, 0, 0, 0)]. *)
Definition setHoursZero (d : Date) : Date :=
  match d with
  | Some t => timeClip (day t * msPerDay)
  | None => None
  end.

(** [d.setDate(date)]. *)
Definition setDate (d : Date) (date : Z) : Date :=
  match d with
  | Some t =>
      timeClip (makeDay (yearFromDay (day t)) (monthFromDay (day t)) date * msPerDay
                + timeWithinDay t)
  | None => None
  end.

(** [a < b] on dates compares the time values; with [NaN] it is false. *)
Definition dateLt (a b : Date) : bool :=
  match a, b with
  | Some x, Some y => x <? y
  | _, _ => false
  end.

Definition weekdayShort (w : Z) : string :=
  match w with
  | 0 => "Sun" | 1 => "Mon" | 2 => "Tue" | 3 => "Wed"
  | 4 => "Thu" | 5 => "Fri" | _ => "Sat"
  end.

Definition monthShort (m : Z) : string :=
  match m with
  | 0 => "Jan" | 1 => "Feb" | 2 => "Mar" | 3 => "Apr" | 4 => "May" | 5 => "Jun"
  | 6 => "Jul" | 7 => "Aug" | 8 => "Sep" | 9 => "Oct" | 10 => "Nov" | _ => "Dec"
  end.

(** Zero padding to at least four digits. *)
Definition padStart4 (s : string) : string :=
  match String.length s with
  | O => "0000"
  | 1%nat => "000" +:+ s
  | 2%nat => "00" +:+ s
  | 3%nat => String "0" s
  | _ => s
  end.

(** The year of [toDateString], and the number a year so printed
    stands for. *)
Definition yearString (y : Z) : string :=
  (if y <? 0 then "-" else "") +:+ padStart4 (toString (Z.abs y)).

Definition readYear (s : string) : Z :=
  match s with
  | String "-" digits => - fst (parseDigits 0 digits)
  | digits => fst (parseDigits 0 digits)
  end.

(** [d.toDateString()]: weekday, month, two-digit day and the year padded
    to four digits, with a minus sign for a negative year. *)
Definition toDateString (d : Date) : string :=
  match d with
  | None => "Invalid Date"
  | Some t =>
      let n := day t in
      let y := yearFromDay n in
      weekdayShort (weekDay n) +:+ " " +:+ monthShort (monthFromDay n) +:+ " "
      +:+ padStart2 (toString (dateFromDay n)) +:+ " "
      +:+ yearString y
  end.

(** [d.toLocaleDateString("en-US", {weekday: "short", year: "numeric",
    month: "short", day: "numeric"})], for years of the common era. *)
Definition toLocaleDateStringShort (d : Date) : string :=
  match d with
  | None => "Invalid Date"
  | Some t =>
      let n := day t in
      weekdayShort (weekDay n) +:+ ", " +:+ monthShort (monthFromDay n) +:+ " "
      +:+ toString (dateFromDay n) +:+ ", " +:+ toString (yearFromDay n)
  end.

(** *** The local calendar

    [new Date(year, month, date)] gives the local day asked for where the
    local calendar has that day; a time zone that skips a day gives
    another one.  The local calendar has the date when the [Date] built
    from the three numbers has them as its fields. *)
Definition dateExists (year monthIndex date : Z) : Prop :=
  getFullYear (newDate (Some year) monthIndex date) = Some year
  /\ getMonth (newDate (Some year) monthIndex date) = Some monthIndex
  /\ getDate (newDate (Some year) monthIndex date) = Some date.

(** *** Names that every object inherits

    The names of the members of [Object.prototype].  Reading such a name
    from an object that has no property of its own under it yields the
    inherited member, and an assignment to [__proto__] stores no
    property. *)
Definition prototypeNames : list string :=
  ["constructor"; "__defineGetter__"; "__defineSetter__"; "hasOwnProperty";
   "__lookupGetter__"; "__lookupSetter__"; "isPrototypeOf";
   "propertyIsEnumerable"; "toString"; "valueOf"; "__proto__"; "toLocaleString"].

Definition prototypeName (name : string) : bool :=
  existsb (String.eqb name) prototypeNames.

End JS.

(** ** The task board script *)
Module Board.
Import JS.

(** [STORAGE_KEYS]. *)
Definition KEY_tasks : string := "taskManagerTasks".
Definition KEY_subjects : string := "taskManagerSubjects".
Definition KEY_subjectColors : string := "taskManagerSubjectColors".
Definition KEY_theme : string := "taskManagerTheme".

(** A task as the scripts read and write it.  The due date and the
    priority may be missing from a stored task ([None]); the scripts test
    for that. *)
Record Task : Type := mkTask {
  id : string;
  name : string;
  subject : string;
  dueDate : option string;
  priority : option string;
  completed : bool;
  createdAt : string
}.

Definition optionalProp (key : string) (v : option string) : list (string * json) :=
  match v with Some s => [(key, JStr s)] | None => [] end.

(** The object of a task, properties in the order of the literal in
    [onSubmit]. *)
Definition Task_to_json (t : Task) : json :=
  JObj ([("id", JStr (id t)); ("name", JStr (name t)); ("subject", JStr (subject t))]
        ++ optionalProp "dueDate" (dueDate t)
        ++ optionalProp "priority" (priority t)
        ++ [("completed", JBool (completed t)); ("createdAt", JStr (createdAt t))]).

Definition tasksValue (tasks : list Task) : json := JArr (map Task_to_json tasks).
Definition subjectsValue (subjects : list string) : json := JArr (map JStr subjects).
Definition colorsValue (colors : list (string * string)) : json :=
  JObj (map (fun kv => (fst kv, JStr (snd kv))) colors).

(** [v || fallback] on an optional string. *)
Definition orElse (v : option string) (fallback : string) : string :=
  match v with
  | Some s => if nonempty s then s else fallback
  | None => fallback
  end.

(** [formatLongDate(date)]. *)
Definition formatLongDate (date : Date) : string := toLocaleDateStringShort date.

(** [formatLocalISO(date)]. *)
Definition formatLocalISO (date : Date) : string :=
  let y := numString (getFullYear date) in
  let m := padStart2 (numString (option_map (fun m => m + 1) (getMonth date))) in
  let d := padStart2 (numString (getDate date)) in
  y +:+ "-" +:+ m +:+ "-" +:+ d.

(** [x || 1] on a number. *)
Definition orOne (x : option Z) : Z :=
  match x with
  | Some n => if n =? 0 then 1 else n
  | None => 1
  end.

(** [parseLocalYMD(ymd)]. *)
Definition parseLocalYMD (ymd : option string) : Date :=
  match ymd with
  | None => None
  | Some s =>
      if negb (nonempty s) then None
      else
        let parts := split "-" s in
        let y := Number (nth_error parts 0) in
        let m := Number (nth_error parts 1) in
        let d := Number (nth_error parts 2) in
        newDate y (orOne m - 1) (orOne d)
  end.

(** *** Storage *)

Definition Storage_loadTasks (store : gmap string string) : json :=
  safelyParseJson (getItem store KEY_tasks) (JArr []).

Definition Storage_saveTasks (tasks : json) (store : gmap string string)
  : gmap string string :=
  setItem store KEY_tasks (JSON_stringify tasks).

Definition Storage_loadSubjects (store : gmap string string) : json :=
  let s := safelyParseJson (getItem store KEY_subjects) (JArr []) in
  if isArray s then s else JArr [].

Definition Storage_saveSubjects (subjects : json) (store : gmap string string)
  : gmap string string :=
  setItem store KEY_subjects (JSON_stringify subjects).

Definition Storage_loadSubjectColors (store : gmap string string) : json :=
  let m := safelyParseJson (getItem store KEY_subjectColors) (JObj []) in
  if isObjectLike m then m else JObj [].

Definition Storage_saveSubjectColors (colors : json) (store : gmap string string)
  : gmap string string :=
  setItem store KEY_subjectColors (JSON_stringify colors).

(** The tasks [App.init] starts from:
    [this.tasks = Storage.loadTasks();
     if (!Array.isArray(this.tasks)) this.tasks = [];]. *)
Definition init_tasks (store : gmap string string) : json :=
  let tasks := Storage_loadTasks store in
  if isArray tasks then tasks else JArr [].

(** *** UI *)

(** What [UI.taskHtml] puts into the markup of a task. *)
Record TaskItem : Type := mkTaskItem {
  itemId : string;
  itemName : string;
  cls : string;
  txt : string;
  priorityClass : string;
  priorityLabel : string
}.

Definition lowerChar (c : ascii) : ascii :=
  let n := N_of_ascii c in
  if ((65 <=? n) && (n <=? 90))%N then ascii_of_N (n + 32) else c.

Definition upperChar (c : ascii) : ascii :=
  let n := N_of_ascii c in
  if ((97 <=? n) && (n <=? 122))%N then ascii_of_N (n - 32) else c.

Fixpoint toLowerCase (s : string) : string :=
  match s with
  | EmptyString => EmptyString
  | String c s' => String (lowerChar c) (toLowerCase s')
  end.

Fixpoint toUpperCase (s : string) : string :=
  match s with
  | EmptyString => EmptyString
  | String c s' => String (upperChar c) (toUpperCase s')
  end.

(** [p.charAt(0).toUpperCase() + p.slice(1)]. *)
Definition capitalize (p : string) : string :=
  match p with
  | EmptyString => EmptyString
  | String c p' => String (upperChar c) p'
  end.

(** [UI.taskHtml(task)]; [now] is the time value of [new Date()]. *)
Definition taskHtml (now : Z) (task : Task) : TaskItem :=
  let due := parseLocalYMD (dueDate task) in
  let today := setHoursZero (Some now) in
  let tomorrow :=
    match getDate today with
    | Some d => setDate today (d + 1)
    | None => None
    end in
  let txt0 := formatLongDate due in
  let '(cls, txt) :=
    if dateLt due today then ("overdue", "Overdue - " +:+ txt0)
    else if String.eqb (toDateString due) (toDateString today)
         then ("due-soon", "Due Today - " +:+ txt0)
    else if String.eqb (toDateString due) (toDateString tomorrow)
         then ("due-soon", "Due Tomorrow - " +:+ txt0)
    else ("", txt0) in
  let p := toLowerCase (orElse (priority task) "medium") in
  {| itemId := id task; itemName := name task; cls := cls; txt := txt;
     priorityClass := p; priorityLabel := capitalize p |}.

(** [colors[key]] on a colour map, for keys that are not names of
    members of [Object.prototype]. *)
Fixpoint lookupColor (key : string) (colors : list (string * string)) : option string :=
  match colors with
  | [] => None
  | (k, v) :: colors' => if String.eqb k key then Some v else lookupColor key colors'
  end.

(** One subject card of the board. *)
Record SubjectCard : Type := mkSubjectCard {
  cardSubject : string;
  cardColor : string;
  cardTasks : list TaskItem
}.

(** The tasks a subject card lists:
    [tasks.filter(t => t.subject === subject && !t.completed)]. *)
Definition subjectTasks (subject_ : string) (tasks : list Task) : list Task :=
  List.filter (fun t => String.eqb (subject t) subject_ && negb (completed t)) tasks.

(** [UI.renderSubjects(subjects, tasks, subjectColors)]: the cards of the
    container; no card stands for the empty state. *)
Definition renderSubjects (now : Z) (subjects : list string) (tasks : list Task)
           (subjectColors : list (string * string)) : list SubjectCard :=
  map (fun subject_ =>
         {| cardSubject := subject_;
            cardColor := orElse (lookupColor subject_ subjectColors) "";
            cardTasks := map (taskHtml now) (subjectTasks subject_ tasks) |})
      subjects.

(** [hslToHex(H, S, L)], the local function of [App.generateColorFor];
    the arithmetic is the script's, operation by operation, on binary64.
    A channel that does not round to an integer (impossible for finite
    arguments) would print as ["NaN"]. *)
Definition hslToHex (H S L : float) : string :=
  let S := (S / 100)%float in
  let L := (L / 100)%float in
  let C := ((1 - abs (2 * L - 1)) * S)%float in
  let X := (C * (1 - abs (fmod (H / 60) 2 - 1)))%float in
  let m := (L - C / 2)%float in
  let '(r, g, b) :=
    if (0 <=? H)%float && (H <? 60)%float then (C, X, 0%float)
    else if (60 <=? H)%float && (H <? 120)%float then (X, C, 0%float)
    else if (120 <=? H)%float && (H <? 180)%float then (0%float, C, X)
    else if (180 <=? H)%float && (H <? 240)%float then (0%float, X, C)
    else if (240 <=? H)%float && (H <? 300)%float then (X, 0%float, C)
    else (C, 0%float, X) in
  let toHex (v : float) : string :=
    match Math_round ((v + m) * 255)%float with
    | Some n => padStart2 (toString16 n)
    | None => "NaN"
    end in
  String "#" (toHex r +:+ toHex g +:+ toHex b).

(** The loop of [generateColorFor]: [h = (h << 5) - h + c; h |= 0]. *)
Definition hashStep (h c : Z) : Z := toInt32 (shl32 h 5 - h + c).

Definition hashCodes (codes : list Z) : Z := fold_left hashStep codes 0.

(** [generateColorFor] on the code units of its argument. *)
Definition generateColorForCodes (codes : list Z) : string :=
  let h := hashCodes codes in
  let hue := Z.abs h mod 360 in
  hslToHex (ofZ hue) 65 60.

(** [App.generateColorFor(seed)]. *)
Definition generateColorFor (seed : string) : string :=
  generateColorForCodes (charCodes seed).

(** A hex RGB colour: [#] followed by exactly six hexadecimal digits. *)
Definition is_hex_digit (c : ascii) : bool :=
  let n := N_of_ascii c in
  ((48 <=? n) && (n <=? 57) || (97 <=? n) && (n <=? 102)
   || (65 <=? n) && (n <=? 70))%N.

Definition is_hex_color (s : string) : bool :=
  match s with
  | String "#" digits =>
      (String.length digits =? 6)%nat
      && forallb is_hex_digit (list_ascii_of_string digits)
  | _ => false
  end.

(** *** App *)

(** The fields of [App]. *)
Record App : Type := mkApp {
  tasks : list Task;
  subjects : list string;
  subjectColors : list (string * string)
}.

(** The page: the application object, the store and the notifications
    shown so far (message and type, oldest first). *)
Record Page : Type := mkPage {
  app : App;
  localStorage : gmap string string;
  notifications : list (string * string)
}.

Definition notify (message type : string) (p : Page) : Page :=
  {| app := app p; localStorage := localStorage p;
     notifications := notifications p ++ [(message, type)] |}.

(** The values of the form controls when the form is submitted; the
    priority control may be missing from the page. *)
Record TaskForm : Type := mkTaskForm {
  taskName : string;
  taskSubjectSelect : string;
  taskDueDate : string;
  taskPriority : option string
}.

(** [App.onSubmit(e)]; [now] is [Date.now()] and [nowISO] is
    [new Date().toISOString()]. *)
Definition onSubmit (form : TaskForm) (now : Z) (nowISO : string) (p : Page) : Page :=
  let name_ := trim (taskName form) in
  let subject_ := trim (taskSubjectSelect form) in
  let dueDate_ := taskDueDate form in
  let priority_ := orElse (taskPriority form) "medium" in
  if negb (nonempty name_) || negb (nonempty subject_)
     || negb (nonempty dueDate_) || negb (nonempty priority_)
  then notify "Please fill in all fields" "error" p
  else
    let task := {| id := toString now; name := name_; subject := subject_;
                   dueDate := Some dueDate_; priority := Some priority_;
                   completed := false; createdAt := nowISO |} in
    let tasks' := tasks (app p) ++ [task] in
    notify "Task added successfully!" "success"
      {| app := {| tasks := tasks'; subjects := subjects (app p);
                   subjectColors := subjectColors (app p) |};
         localStorage := Storage_saveTasks (tasksValue tasks') (localStorage p);
         notifications := notifications p |}.

(** [colors[key] = value] and [delete colors[key]] on the colour map,
    for keys that are not names of members of [Object.prototype] (an
    assignment to [__proto__] stores no property). *)
Fixpoint setColor (key value : string) (colors : list (string * string))
  : list (string * string) :=
  match colors with
  | [] => [(key, value)]
  | (k, v) :: colors' =>
      if String.eqb k key then (key, value) :: colors'
      else (k, v) :: setColor key value colors'
  end.

Definition deleteColor (key : string) (colors : list (string * string))
  : list (string * string) :=
  List.filter (fun kv => negb (String.eqb (fst kv) key)) colors.

(** [subjects.includes(name)]. *)
Definition includes (name_ : string) (subjects_ : list string) : bool :=
  existsb (String.eqb name_) subjects_.

Section Collation.
(** [a.localeCompare(b)]: the collation order of the runtime's locale. *)
Variable localeCompare : string -> string -> Z.

(** [App.onAddSubject()]; [input] is the answer to the prompt, [None]
    when it was cancelled. *)
Definition onAddSubject (input : option string) (p : Page) : Page :=
  match input with
  | None => p
  | Some text =>
      if negb (nonempty text) then p
      else
        let name_ := trim text in
        if negb (nonempty name_) then p
        else if includes name_ (subjects (app p))
        then notify "Subject already exists" "error" p
        else
          let subjects' := sort localeCompare (subjects (app p) ++ [name_]) in
          let colors' := setColor name_ (generateColorFor name_) (subjectColors (app p)) in
          notify "Subject added" "success"
            {| app := {| tasks := tasks (app p); subjects := subjects';
                         subjectColors := colors' |};
               localStorage :=
                 Storage_saveSubjectColors (colorsValue colors')
                   (Storage_saveSubjects (subjectsValue subjects') (localStorage p));
               notifications := notifications p |}
  end.

End Collation.

(** [App.deleteSubject(subject)]; [confirmed] is the answer to the
    confirmation dialog. *)
Definition deleteSubject (subject_ : string) (confirmed : bool) (p : Page) : Page :=
  if negb confirmed then p
  else
    let subjects' := List.filter (fun s => negb (String.eqb s subject_)) (subjects (app p)) in
    let tasks' := List.filter (fun t => negb (String.eqb (subject t) subject_)) (tasks (app p)) in
    let store1 := Storage_saveTasks (tasksValue tasks')
                    (Storage_saveSubjects (subjectsValue subjects') (localStorage p)) in
    let hasColor :=
      match lookupColor subject_ (subjectColors (app p)) with
      | Some c => nonempty c
      | None => false
      end in
    let colors' :=
      if hasColor then deleteColor subject_ (subjectColors (app p))
      else subjectColors (app p) in
    let store2 :=
      if hasColor then Storage_saveSubjectColors (colorsValue colors') store1
      else store1 in
    notify "Subject deleted" "info"
      {| app := {| tasks := tasks'; subjects := subjects'; subjectColors := colors' |};
         localStorage := store2;
         notifications := notifications p |}.

(** [this.tasks[idx].completed = true] for the first task with the id. *)
Fixpoint markCompleted (id_ : string) (tasks_ : list Task) : option (list Task) :=
  match tasks_ with
  | [] => None
  | t :: tasks' =>
      if String.eqb (id t) id_
      then Some ({| id := id t; name := name t; subject := subject t;
                    dueDate := dueDate t; priority := priority t;
                    completed := true; createdAt := createdAt t |} :: tasks')
      else option_map (cons t) (markCompleted id_ tasks')
  end.

(** [App.completeTask(id)]. *)
Definition completeTask (id_ : string) (p : Page) : Page :=
  match markCompleted id_ (tasks (app p)) with
  | Some tasks' =>
      notify "Task completed!" "success"
        {| app := {| tasks := tasks'; subjects := subjects (app p);
                     subjectColors := subjectColors (app p) |};
           localStorage := Storage_saveTasks (tasksValue tasks') (localStorage p);
           notifications := notifications p |}
  | None => p
  end.

(** [App.deleteTask(id)]. *)
Definition deleteTask (id_ : string) (p : Page) : Page :=
  let tasks' := List.filter (fun t => negb (String.eqb (id t) id_)) (tasks (app p)) in
  if (length tasks' <? length (tasks (app p)))%nat
  then
    notify "Task deleted" "info"
      {| app := {| tasks := tasks'; subjects := subjects (app p);
                   subjectColors := subjectColors (app p) |};
         localStorage := Storage_saveTasks (tasksValue tasks') (localStorage p);
         notifications := notifications p |}
  else
    notify "Error: Task not found" "error"
      {| app := {| tasks := tasks'; subjects := subjects (app p);
                   subjectColors := subjectColors (app p) |};
         localStorage := localStorage p;
         notifications := notifications p |}.

(** What the user does on the board, with what the environment supplies
    to the handler. *)
Inductive Action : Type :=
| Submit (form : TaskForm) (now : Z) (nowISO : string)
| CompleteTask (id_ : string)
| DeleteTask (id_ : string)
| AddSubject (input : option string)
| DeleteSubject (subject_ : string) (confirmed : bool).

Definition perform (localeCompare : string -> string -> Z) (a : Action) (p : Page)
  : Page :=
  match a with
  | Submit form now nowISO => onSubmit form now nowISO p
  | CompleteTask id_ => completeTask id_ p
  | DeleteTask id_ => deleteTask id_ p
  | AddSubject input => onAddSubject localeCompare input p
  | DeleteSubject subject_ confirmed => deleteSubject subject_ confirmed p
  end.

Definition performAll (localeCompare : string -> string -> Z) (actions : list Action)
           (p : Page) : Page :=
  fold_left (fun p a => perform localeCompare a p) actions p.

(** The readings of [Date.now()] in the submissions of a run. *)
Definition clockReading (a : Action) : list Z :=
  match a with Submit _ now _ => [now] | _ => [] end.

Definition clockReadings (actions : list Action) : list Z :=
  flat_map clockReading actions.

(** The ids of the tasks of the page, in stored order. *)
Definition ids (p : Page) : list string := map id (tasks (app p)).

(** The subject list is in the order of the comparator and has no name
    twice. *)
Definition subjectsOrdered (localeCompare : string -> string -> Z) (l : list string)
  : Prop :=
  StronglySorted (fun a b => localeCompare a b <= 0) l /\ List.NoDup l.

(** A comparator to run the subject operations with: shorter names
    first. *)
Definition compareLength (a b : string) : Z :=
  Z.of_nat (String.length a) - Z.of_nat (String.length b).

(** *** escapeHtml *)

(** The no-break space, U+00A0. *)
Definition nbsp : ascii := "160"%char.

(** [escapeHtml(text)]: the text becomes the text content of an element
    and is read back as markup.  In the markup of a text node the
    ampersand, the angle brackets and the no-break space are written as
    character references, every other character as itself. *)
Definition escapeHtmlChar (c : ascii) : string :=
  if Ascii.eqb c "&" then "&amp;"
  else if Ascii.eqb c "<" then "&lt;"
  else if Ascii.eqb c ">" then "&gt;"
  else if Ascii.eqb c nbsp then "&nbsp;"
  else String c EmptyString.

Fixpoint escapeHtml (text : string) : string :=
  match text with
  | EmptyString => EmptyString
  | String c text' => escapeHtmlChar c +:+ escapeHtml text'
  end.

(** A character that [escapeHtml] leaves as it is. *)
Definition plainChar (c : ascii) : bool :=
  negb (Ascii.eqb c "&") && negb (Ascii.eqb c "<") && negb (Ascii.eqb c ">")
  && negb (Ascii.eqb c nbsp).

(** *** Values that count as false *)

(** [!v] on an optional string: it is missing or empty. *)
Definition falsy (v : option string) : bool :=
  match v with
  | Some s => negb (nonempty s)
  | None => true
  end.

(** *** Theme *)

(** [Theme.get()]; [prefersDark] is the answer of the media query
    [(prefers-color-scheme: dark)]. *)
Definition Theme_get (prefersDark : bool) (store : gmap string string) : string :=
  orElse (getItem store KEY_theme) (if prefersDark then "dark" else "light").

(** [Theme.set(theme)]. *)
Definition Theme_set (theme : string) (store : gmap string string) : gmap string string :=
  setItem store KEY_theme theme.

(** [Theme.toggle()]: the page after it, and the theme that [Theme.apply]
    has put on the document. *)
Definition Theme_toggle (prefersDark : bool) (p : Page) : Page * string :=
  let next :=
    if String.eqb (Theme_get prefersDark (localStorage p)) "light" then "dark" else "light" in
  (notify ("Switched to " +:+ (if String.eqb next "dark" then "Dark" else "Light")
           +:+ " mode") "info"
     {| app := app p; localStorage := Theme_set next (localStorage p);
        notifications := notifications p |},
   next).

(** *** The colour pickers *)

(** The [input] handler of the subject colour pickers: [subj] is the
    [data-subject] attribute of the picker ([None] when it has none) and
    [color] its value. *)
Definition onColorInput (subj : option string) (color : string) (p : Page) : Page :=
  match subj with
  | None => p
  | Some s =>
      if negb (nonempty s) || negb (nonempty color) then p
      else
        let colors' := setColor s color (subjectColors (app p)) in
        {| app := {| tasks := tasks (app p); subjects := subjects (app p);
                     subjectColors := colors' |};
           localStorage := Storage_saveSubjectColors (colorsValue colors') (localStorage p);
           notifications := notifications p |}
  end.

(** *** App.init *)

(** [Array.from(new Set(items))]: each string once, in the order of its
    first occurrence. *)
Definition setFrom (items : list string) : list string :=
  fold_left (fun set x => if includes x set then set else set ++ [x]) items [].

(** [{ ...t, priority: 'medium' }] for a task without a priority. *)
Definition withPriority (t : Task) : Task :=
  if falsy (priority t)
  then {| id := id t; name := name t; subject := subject t; dueDate := dueDate t;
          priority := Some "medium"; completed := completed t;
          createdAt := createdAt t |}
  else t.

(** The body of [this.subjects.forEach(...)]: a subject without a colour
    gets its default colour; the flag is [colorsMutated].  As for
    [lookupColor], the subject is not the name of a member of
    [Object.prototype]. *)
Definition assignColor (state : list (string * string) * bool) (sub : string)
  : list (string * string) * bool :=
  let '(colors, mutated) := state in
  if falsy (lookupColor sub colors)
  then (setColor sub (generateColorFor sub) colors, true)
  else (colors, mutated).

(** [App.init()], on the values of the data model that the three loads
    return ([storedTasks], [storedSubjects], [storedColors]): the subjects
    are taken from the tasks when none is stored, every task gets a
    priority and every subject a colour, and what has changed is saved.
    Stored values of another shape (an array with a [null] element, on
    which the script throws) are not values of the data model. *)
Definition init (storedTasks : list Task) (storedSubjects : list string)
           (storedColors : list (string * string)) (store : gmap string string) : Page :=
  let derive := (length storedSubjects =? 0)%nat && negb (length storedTasks =? 0)%nat in
  let subjects1 :=
    if derive then setFrom (List.filter nonempty (map subject storedTasks))
    else storedSubjects in
  let store1 :=
    if derive then Storage_saveSubjects (subjectsValue subjects1) store else store in
  let mutated := existsb (fun t => falsy (priority t)) storedTasks in
  let tasks1 := map withPriority storedTasks in
  let store2 := if mutated then Storage_saveTasks (tasksValue tasks1) store1 else store1 in
  let '(colors1, colorsMutated) := fold_left assignColor subjects1 (storedColors, false) in
  let store3 :=
    if colorsMutated then Storage_saveSubjectColors (colorsValue colors1) store2
    else store2 in
  {| app := {| tasks := tasks1; subjects := subjects1; subjectColors := colors1 |};
     localStorage := store3;
     notifications := [] |}.

(** *** The events of the page *)

(** Everything the user can do on the board: the actions of the form and
    of the buttons, a colour picked, the theme toggled. *)
Inductive Event : Type :=
| Act (a : Action)
| ColorInput (subj : option string) (color : string)
| ToggleTheme (prefersDark : bool).

Definition handle (localeCompare : string -> string -> Z) (e : Event) (p : Page) : Page :=
  match e with
  | Act a => perform localeCompare a p
  | ColorInput subj color => onColorInput subj color p
  | ToggleTheme prefersDark => fst (Theme_toggle prefersDark p)
  end.

Definition run (localeCompare : string -> string -> Z) (events : list Event) (p : Page)
  : Page :=
  fold_left (fun p e => handle localeCompare e p) events p.

(** The store holds what the application holds: each load returns the
    value of the field it belongs to. *)
Definition synced (p : Page) : Prop :=
  init_tasks (localStorage p) = tasksValue (tasks (app p))
  /\ Storage_loadSubjects (localStorage p) = subjectsValue (subjects (app p))
  /\ Storage_loadSubjectColors (localStorage p) = colorsValue (subjectColors (app p)).

(** The subject has a colour, the task has a priority: the tests of
    [App.init] fail. *)
Definition hasColor (sub : string) (colors : list (string * string)) : bool :=
  negb (falsy (lookupColor sub colors)).

Definition hasPriority (t : Task) : bool := negb (falsy (priority t)).

(** The task after [this.tasks[idx].completed = true]. *)
Definition completedTask (t : Task) : Task :=
  {| id := id t; name := name t; subject := subject t; dueDate := dueDate t;
     priority := priority t; completed := true; createdAt := createdAt t |}.

(** Nothing is left without its default: every listed subject has a
    colour and every task a priority. *)
Definition complete (p : Page) : Prop :=
  (forall s, In s (subjects (app p)) -> hasColor s (subjectColors (app p)) = true)
  /\ (forall t, In t (tasks (app p)) -> hasPriority t = true).

(** Every task belongs to a listed subject, and the listed names are
    trimmed, as [onAddSubject] stores them. *)
Definition integral (p : Page) : Prop :=
  (forall t, In t (tasks (app p)) -> In (subject t) (subjects (app p)))
  /\ (forall s, In s (subjects (app p)) -> trim s = s).

(** The subject control of the form holds the empty value or one of the
    listed subjects: the options [UI.refreshSelect] has given it. *)
Definition fromSelect (e : Event) (p : Page) : Prop :=
  match e with
  | Act (Submit form _ _) =>
      taskSubjectSelect form = EmptyString
      \/ In (taskSubjectSelect form) (subjects (app p))
  | _ => True
  end.

(** The event is not the deletion of the subject [sub] and not a colour
    picked for it. *)
Definition leavesColor (sub : string) (e : Event) : bool :=
  match e with
  | Act (DeleteSubject s true) => negb (String.eqb s sub)
  | ColorInput (Some s) _ => negb (String.eqb s sub)
  | _ => true
  end.

(** The subject names an event brings: the name added, the subject of
    the colour picker, the subject deleted. *)
Definition eventNames (e : Event) : list string :=
  match e with
  | Act (AddSubject (Some text)) => [trim text]
  | Act (DeleteSubject s _) => [s]
  | ColorInput (Some s) _ => [s]
  | _ => []
  end.

(** No name is the name of a member of [Object.prototype]. *)
Definition ownNames (names : list string) : bool :=
  forallb (fun s => negb (prototypeName s)) names.

(** The [Date] that [UI.taskHtml] compares with as tomorrow. *)
Definition tomorrowOf (now : Z) : Date :=
  let today := setHoursZero (Some now) in
  match getDate today with
  | Some d => setDate today (d + 1)
  | None => None
  end.

End Board.

(** ** calendar.js *)
Module Calendar.
Import JS.

Definition KEY_tasks : string := "taskManagerTasks".
Definition KEY_theme : string := "taskManagerTheme".
Definition KEY_subjectColors : string := "taskManagerSubjectColors".

(** [getDaysInMonth(year, monthIndex)]. *)
Definition getDaysInMonth (year monthIndex : Z) : option Z :=
  getDate (newDate (Some year) (monthIndex + 1) 0).

(** [getWeekdayIndex(year, monthIndex, day)]. *)
Definition getWeekdayIndex (year monthIndex day_ : Z) : option Z :=
  getDay (newDate (Some year) monthIndex day_).

(** [list.filter(t => !t.completed)] on parsed values: reading
    [completed] from a [null] element throws. *)
Fixpoint filterActive (list_ : list json) : completion (list json) :=
  match list_ with
  | [] => Returns []
  | t :: list' =>
      match getProp t "completed" with
      | Throws e => Throws e
      | Returns c =>
          match filterActive list' with
          | Throws e => Throws e
          | Returns kept => Returns (if truthyOpt c then kept else t :: kept)
          end
      end
  end.

(** [loadTasks()]. *)
Definition loadTasks (store : gmap string string) : completion (list json) :=
  let tasks := safelyParseJson (getItem store KEY_tasks) (JArr []) in
  let list_ := match tasks with JArr items => items | _ => [] end in
  filterActive list_.

(** [loadSubjectColors()]. *)
Definition loadSubjectColors (store : gmap string string) : json :=
  let colors := safelyParseJson (getItem store KEY_subjectColors) (JObj []) in
  if isObjectLike colors then colors else JObj [].

(** [loadTasks] seen on the tasks of the data model: the tasks that are
    not completed, in stored order. *)
Definition activeTasks (stored : list Board.Task) : list Board.Task :=
  List.filter (fun t => negb (Board.completed t)) stored.

(** [groupTasksByDate(tasks)]: the [Map] from due date to the tasks due
    then, each list in the order of [tasks]. *)
Definition groupTasksByDate (tasks : list Board.Task) : gmap string (list Board.Task) :=
  fold_left
    (fun (m : gmap string (list Board.Task)) t =>
       match Board.dueDate t with
       | Some key =>
           if nonempty key then <[key := default [] (m !! key) ++ [t]]> m else m
       | None => m
       end)
    tasks ∅.

(** [formatLocalISO(date)], the same function as on the board. *)
Definition formatLocalISO (date : Date) : string := Board.formatLocalISO date.

(** The comparator of both sorts:
    [pri[a.priority||'medium'] - pri[b.priority||'medium']] with
    [pri = { high: 0, medium: 1, low: 2 }].  A priority outside the table
    gives [undefined], the difference is [NaN], and the sort takes [NaN]
    for zero. *)
Definition pri (p : string) : option Z :=
  if String.eqb p "high" then Some 0
  else if String.eqb p "medium" then Some 1
  else if String.eqb p "low" then Some 2
  else None.

Definition comparePriority (a b : Board.Task) : Z :=
  match pri (Board.orElse (Board.priority a) "medium"),
        pri (Board.orElse (Board.priority b) "medium") with
  | Some x, Some y => x - y
  | _, _ => 0
  end.

(** A chip of a day cell. *)
Record Chip : Type := mkChip {
  chipTask : Board.Task;
  chipClass : string;
  chipColor : option string
}.

Definition colorOf (subjectColors : list (string * string)) (t : Board.Task)
  : option string :=
  match Board.lookupColor (Board.subject t) subjectColors with
  | Some c => if nonempty c then Some c else None
  | None => None
  end.

Definition chipOf (subjectColors : list (string * string)) (t : Board.Task) : Chip :=
  {| chipTask := t;
     chipClass := "cal-task-chip priority-"
                  +:+ Board.toLowerCase (Board.orElse (Board.priority t) "medium");
     chipColor := colorOf subjectColors t |}.

(** The children of the grid element.  A day cell carries its date, its
    chips and the array its click handler hands to [openDayModal]: the
    list of the map, which the cell has sorted in place. *)
Inductive GridCell : Type :=
| Weekday (label : string)
| Blank
| DayCell (dayNumber : Z) (iso : string) (isToday : bool)
          (chips : list Chip) (clickItems : list Board.Task).

(** The days [1 .. daysInMonth] of the loop; no day when the count is
    [NaN]. *)
Definition daysOf (daysInMonth : option Z) : list Z :=
  match daysInMonth with
  | Some n => map (fun k => Z.of_nat k) (seq 1 (Z.to_nat n))
  | None => []
  end.

Definition dayCell (year monthIndex : Z) (tasksByDate : gmap string (list Board.Task))
           (subjectColors : list (string * string)) (todayStr : string) (day_ : Z)
  : GridCell :=
  let iso := formatLocalISO (newDate (Some year) monthIndex day_) in
  let items := sort comparePriority (default [] (tasksByDate !! iso)) in
  DayCell day_ iso (String.eqb iso todayStr) (map (chipOf subjectColors) items) items.

(** [renderMonth(gridEl, titleEl, year, monthIndex, tasks, subjectColors)]:
    the cells appended to the grid; [now] is the time value of
    [new Date()]. *)
Definition renderMonth (now : Z) (year monthIndex : Z) (tasks : list Board.Task)
           (subjectColors : list (string * string)) : list GridCell :=
  let weekdays := ["Sun"; "Mon"; "Tue"; "Wed"; "Thu"; "Fri"; "Sat"] in
  let daysInMonth := getDaysInMonth year monthIndex in
  let firstWeekday := getWeekdayIndex year monthIndex 1 in
  let tasksByDate := groupTasksByDate tasks in
  let todayStr := formatLocalISO (Some now) in
  map Weekday weekdays
  ++ repeat Blank (Z.to_nat (default 0 firstWeekday))
  ++ map (dayCell year monthIndex tasksByDate subjectColors todayStr)
         (daysOf daysInMonth).

(** A row of the day modal. *)
Record DayRow : Type := mkDayRow {
  rowTask : Board.Task;
  rowColor : option string;
  rowPriority : string
}.

(** [openDayModal(isoDate, items, subjectColors)]: the rows of the list;
    no row stands for the empty-state message. *)
Definition openDayModal (items : list Board.Task) (subjectColors : list (string * string))
  : list DayRow :=
  map (fun t => {| rowTask := t; rowColor := colorOf subjectColors t;
                   rowPriority := Board.toUpperCase (Board.orElse (Board.priority t) "medium") |})
      (sort comparePriority items).

(** [refresh()], on the tasks of the data model. *)
Definition refresh (now : Z) (year monthIndex : Z) (stored : list Board.Task)
           (subjectColors : list (string * string)) : list GridCell :=
  renderMonth now year monthIndex (activeTasks stored) subjectColors.

(** The month shown after the previous and next buttons. *)
Definition prevMonth (ym : Z * Z) : Z * Z :=
  let '(year, monthIndex) := ym in
  if monthIndex - 1 <? 0 then (year - 1, 11) else (year, monthIndex - 1).

Definition nextMonth (ym : Z * Z) : Z * Z :=
  let '(year, monthIndex) := ym in
  if monthIndex + 1 >? 11 then (year + 1, 0) else (year, monthIndex + 1).

(** The rank of a task in the priority order, when its priority is one
    of the table (a missing priority counts as medium). *)
Definition rank (t : Board.Task) : option Z :=
  pri (Board.orElse (Board.priority t) "medium").

Definition knownPriority (t : Board.Task) : bool :=
  match rank t with Some _ => true | None => false end.

Definition rankOf (t : Board.Task) : Z := default 1 (rank t).

(** The task is due on the date [iso]. *)
Definition dueOn (iso : string) (t : Board.Task) : bool :=
  match Board.dueDate t with
  | Some key => String.eqb key iso
  | None => false
  end.

(** The priority order of a list: it holds the tasks of [input], ranked
    high, medium, low, and the tasks of one rank are in the order of
    [input]. *)
Definition priorityOrdered (input shown : list Board.Task) : Prop :=
  Permutation shown input
  /\ StronglySorted (fun a b => rankOf a <= rankOf b) shown
  /\ forall r : Z,
       List.filter (fun t => rankOf t =? r) shown
       = List.filter (fun t => rankOf t =? r) input.

(** The day numbers of the day cells of a grid, in order. *)
Definition dayNumbers (grid : list GridCell) : list Z :=
  flat_map (fun cell =>
              match cell with
              | DayCell d _ _ _ _ => [d]
              | _ => []
              end) grid.

(** The tasks shown by the chips of all day cells of a grid. *)
Definition shownTasks (grid : list GridCell) : list Board.Task :=
  flat_map (fun cell =>
              match cell with
              | DayCell _ _ _ chips _ => map chipTask chips
              | _ => []
              end) grid.

(** *** Theme *)

(** [Theme.get()] and [Theme.toggle()], as on the board; the toggle
    yields the store and the theme put on the document. *)
Definition Theme_get (prefersDark : bool) (store : gmap string string) : string :=
  Board.orElse (getItem store KEY_theme) (if prefersDark then "dark" else "light").

Definition Theme_toggle (prefersDark : bool) (store : gmap string string)
  : gmap string string * string :=
  let next := if String.eqb (Theme_get prefersDark store) "light" then "dark" else "light" in
  (setItem store KEY_theme next, next).

(** *** The local calendar *)

(** The local calendar has every day of the month. *)
Definition monthExists (year monthIndex : Z) : Prop :=
  forall d, 1 <= d <= daysIn year monthIndex -> dateExists year monthIndex d.

End Calendar.

(** ** The chat client *)
Module Chat.
Import JS.

Definition KEY_apiKey : string := "chat_api_key".
Definition KEY_model : string := "chat_model".
Definition KEY_history : string := "chat_history".
Definition KEY_theme : string := "taskManagerTheme".

(** A request sent with [fetch]: the bearer token and the body. *)
Record Request : Type := mkRequest {
  requestKey : string;
  requestBody : json
}.

(** How a request ends: [fetch] rejects, or a response arrives with its
    [ok] flag, status and text. *)
Inductive Response : Type :=
| NetworkError (message : string)
| HttpResponse (ok : bool) (status : Z) (text : string).

(** The chat page: [Chat.messages], the store, the text of the input box
    and the requests issued so far. *)
Record State : Type := mkState {
  messages : list json;
  localStorage : gmap string string;
  inputValue : string;
  requests : list Request
}.

(** [Chat.load()]: the value [Chat.messages] gets. *)
Definition load (store : gmap string string) : json :=
  let m := safelyParseJson (getItem store KEY_history) (JArr []) in
  if isArray m then m else JArr [].

(** [Chat.save()] for a value of [Chat.messages]. *)
Definition save (messages_ : json) (store : gmap string string) : gmap string string :=
  setItem store KEY_history (JSON_stringify messages_).

(** [Chat.append(role, content)]; [now] is [Date.now()]. *)
Definition append (role : string) (content : json) (now : Z) (st : State) : State :=
  let messages' :=
    messages st ++ [JObj [("role", JStr role); ("content", content); ("ts", JNum now)]] in
  {| messages := messages';
     localStorage := save (JArr messages') (localStorage st);
     inputValue := inputValue st;
     requests := requests st |}.

(** [m => ({ role: m.role, content: m.content })]; a property that is
    [undefined] is left out when the body is printed. *)
Definition roleContent (m : json) : completion json :=
  match getProp m "role", getProp m "content" with
  | Returns r, Returns c =>
      Returns (JObj (match r with Some v => [("role", v)] | None => [] end
                     ++ match c with Some v => [("content", v)] | None => [] end))
  | Throws e, _ => Throws e
  | _, Throws e => Throws e
  end.

Fixpoint mapRoleContent (ms : list json) : completion (list json) :=
  match ms with
  | [] => Returns []
  | m :: ms' =>
      match roleContent m with
      | Throws e => Throws e
      | Returns x =>
          match mapRoleContent ms' with
          | Throws e => Throws e
          | Returns xs => Returns (x :: xs)
          end
      end
  end.

(** [data.choices && data.choices[0]], then
    [choice?.message?.content || "(No response)"]. *)
Definition firstChoice (data : json) : completion (option json) :=
  match getProp data "choices" with
  | Throws e => Throws e
  | Returns choices =>
      if truthyOpt choices then
        match choices with
        | Some (JArr (c :: _)) => Returns (Some c)
        | Some (JArr []) => Returns None
        | Some (JStr (String c _)) => Returns (Some (JStr (String c EmptyString)))
        | Some (JObj props) => Returns (lookupProp "0" props)
        | _ => Returns None
        end
      else Returns choices
  end.

Definition optionalProp (v : option json) (key : string) : option json :=
  match v with
  | Some (JObj props) => lookupProp key props
  | _ => None
  end.

Definition replyOf (data : json) : completion json :=
  match firstChoice data with
  | Throws e => Throws e
  | Returns choice =>
      let content := optionalProp (optionalProp choice "message") "content" in
      Returns (match content with
               | Some v => if truthy v then v else JStr "(No response)"
               | None => JStr "(No response)"
               end)
  end.

(** [sendToOpenAI(apiKey, model, messages)] once the request has ended
    with [response]: the reply, or the message of the error thrown. *)
Definition sendToOpenAI (response : Response) : completion json :=
  match response with
  | NetworkError message => Throws message
  | HttpResponse ok status text =>
      if negb ok then Throws ("API error " +:+ toString status +:+ ": " +:+ text)
      else
        match JSON_parse text with
        | None => Throws "SyntaxError"
        | Some data => replyOf data
        end
  end.

(** [apiKey || fallback] and [!apiKey] on an entry of the store. *)
Definition itemOr (item : option string) (fallback : string) : string :=
  match item with
  | Some s => if nonempty s then s else fallback
  | None => fallback
  end.

Definition missing (item : option string) : bool :=
  match item with
  | Some s => negb (nonempty s)
  | None => true
  end.

(** [handleSend()] as one step, for a send during which no other
    handler runs: [now1] and [now2] are the values of [Date.now()] at the
    two appends, [network] is what the endpoint answers to a request.
    The list is not drawn here; [sendStart] and [sendFinish] below are
    the handler on either side of its [await], with [renderMessages]. *)
Definition handleSend (now1 now2 : Z) (network : Request -> Response) (st : State)
  : State :=
  let text := trim (inputValue st) in
  if negb (nonempty text) then st
  else
    let st1 := append "user" (JStr text) now1
                 {| messages := messages st; localStorage := localStorage st;
                    inputValue := EmptyString; requests := requests st |} in
    let apiKey := getItem (localStorage st1) KEY_apiKey in
    let model := itemOr (getItem (localStorage st1) KEY_model) "gpt-4o-mini" in
    if missing apiKey
    then append "assistant" (JStr "Please set your API key in the API dialog.") now2 st1
    else
      match mapRoleContent (messages st1) with
      | Throws e => append "assistant" (JStr ("Error: " +:+ e)) now2 st1
      | Returns body =>
          let request :=
            {| requestKey := itemOr apiKey EmptyString;
               requestBody := JObj [("model", JStr model); ("messages", JArr body)] |} in
          let st2 := {| messages := messages st1; localStorage := localStorage st1;
                        inputValue := inputValue st1;
                        requests := requests st1 ++ [request] |} in
          match sendToOpenAI (network request) with
          | Returns reply => append "assistant" reply now2 st2
          | Throws e => append "assistant" (JStr ("Error: " +:+ e)) now2 st2
          end
      end.

(** *** The other handlers of the page *)

(** [Theme.get()] and [Theme.toggle()], as on the board; the toggle
    yields the store and the theme put on the document. *)
Definition Theme_get (prefersDark : bool) (store : gmap string string) : string :=
  itemOr (getItem store KEY_theme) (if prefersDark then "dark" else "light").

Definition Theme_toggle (prefersDark : bool) (store : gmap string string)
  : gmap string string * string :=
  let next := if String.eqb (Theme_get prefersDark store) "light" then "dark" else "light" in
  (setItem store KEY_theme next, next).

(** The page when the script has started: [Chat.load()] has read the
    history. *)
Definition start (store : gmap string string) : State :=
  {| messages := match load store with JArr items => items | _ => [] end;
     localStorage := store;
     inputValue := EmptyString;
     requests := [] |}.

(** The click handler of the save button of the API dialog; the
    arguments are the values of the key input and of the model select. *)
Definition saveApiSettings (apiKeyInput modelSelect : string) (st : State) : State :=
  {| messages := messages st;
     localStorage :=
       setItem (setItem (localStorage st) KEY_apiKey (trim apiKeyInput)) KEY_model modelSelect;
     inputValue := inputValue st;
     requests := requests st |}.

(** The click handler of the clear button. *)
Definition clearHistory (st : State) : State :=
  {| messages := [];
     localStorage := save (JArr []) (localStorage st);
     inputValue := inputValue st;
     requests := requests st |}.

(** A message as [Chat.append] builds it. *)
Definition message (role : string) (content : json) (ts : Z) : json :=
  JObj [("role", JStr role); ("content", content); ("ts", JNum ts)].

(** *** [handleSend] around its [await]

    [handleSend] is suspended while the request is under way, and the
    other handlers of the page run meanwhile.  [sendStart] is the handler
    up to the [await], [sendFinish] the handler from the moment the
    request has ended, on the page as it is then. *)







End Chat.

(** ** The persistence contract *)
Module Contract.
Import JS.

(** The contract of loading in the words of the specification: the
    deserialized value of the entry, or the fallback when the entry is
    absent, unparsable or not of the expected shape. *)
Definition load (expected : json -> bool) (fallback : json) (entry : option string)
  : json :=
  match entry with
  | None => fallback
  | Some text =>
      match JSON_parse text with
      | None => fallback
      | Some v => if expected v then v else fallback
      end
  end.

(** A calendar date in the format of the data model, [YYYY-MM-DD]:
    four digits of year, two of month (1..12) and two of day. *)
Definition isoDate (year month day_ : Z) : string :=
  padStart4 (toString year) +:+ "-" +:+ padStart2 (toString month)
  +:+ "-" +:+ padStart2 (toString day_).

(** [!t.completed] fails, for a parsed value that is not [null]. *)
Definition isCompleted (t : json) : bool :=
  match t with
  | JObj props => truthyOpt (lookupProp "completed" props)
  | _ => false
  end.

Definition isNull (t : json) : bool :=
  match t with JNull => true | _ => false end.

(** The calendar date of a local time value: year, month (1..12) and
    day. *)
Definition dateOf (t : Z) : Z * Z * Z :=
  (yearFromDay (day t), monthFromDay (day t) + 1, dateFromDay (day t)).

(** One calendar date is strictly before another. *)
Definition before (a b : Z * Z * Z) : Prop :=
  let '(y, m, d) := a in
  let '(y', m', d') := b in
  y < y' \/ (y = y' /\ (m < m' \/ (m = m' /\ d < d'))).

End Contract.

(** ** Proof automation for the month table *)

(** Month starts at constant arguments are replaced by their values. *)
Ltac constant_index m :=
  lazymatch m with
  | Z0 => idtac
  | Zpos _ => idtac
  | (?a + ?b) => constant_index a; constant_index b
  end.

Ltac constant_flag b :=
  lazymatch b with true => idtac | false => idtac end.

Ltac month_table :=
  repeat match goal with
    | |- context [JS.monthStart ?b ?m] =>
        constant_flag b; constant_index m;
        let v := eval vm_compute in (JS.monthStart b m) in
        change (JS.monthStart b m) with v
    | H : context [JS.monthStart ?b ?m] |- _ =>
        constant_flag b; constant_index m;
        let v := eval vm_compute in (JS.monthStart b m) in
        change (JS.monthStart b m) with v in H
    end.

(** The conditionals of the goal are split and their tests turned into
    inequalities. *)
Ltac split_tests :=
  repeat match goal with
    | |- context [if ?c then _ else _] => destruct c eqn:?
    end;
  rewrite ?Z.ltb_lt, ?Z.ltb_ge in *.

Ltac month_cases H :=
  repeat (destruct H as [-> | H]; [month_table; split_tests; month_table; try lia|]);
  try (subst; month_table; split_tests; month_table; try lia).

(* ===================================================================== *)
(** * Part II: theorems *)
(* ===================================================================== *)

(** ** Strings *)

Import JS.

Lemma append_cons (x : ascii) (a b : string) :
  String x a +:+ b = String x (a +:+ b).
Proof. reflexivity. Qed.

Lemma append_nil_l (a : string) : EmptyString +:+ a = a.
Proof. reflexivity. Qed.

Lemma append_assoc (a b c : string) : (a +:+ b) +:+ c = a +:+ (b +:+ c).
Proof. induction a as [|x a IH]; [reflexivity | rewrite !append_cons; now f_equal]. Qed.

Lemma append_nil_r (a : string) : a +:+ EmptyString = a.
Proof. induction a as [|x a IH]; [reflexivity | rewrite !append_cons; now f_equal]. Qed.

Lemma length_append (a b : string) :
  String.length (a +:+ b) = (String.length a + String.length b)%nat.
Proof.
  induction a as [|x a IH]; [reflexivity|].
  rewrite append_cons. cbn [String.length]. rewrite IH. reflexivity.
Qed.

Lemma parseChars_escapeChar (c : ascii) (rest : string) :
  parseChars (escapeChar c +:+ rest) = consChar c (parseChars rest).
Proof.
  destruct c as [[] [] [] [] [] [] [] []]; reflexivity.
Qed.

Lemma parseChars_escape (s rest : string) :
  parseChars (escape s +:+ String dquote rest) = Some (s, rest).
Proof.
  induction s as [|c s IH]; [reflexivity|].
  cbn [escape]. rewrite append_assoc, parseChars_escapeChar, IH. reflexivity.
Qed.

Lemma parseChars_quoteJSON (s rest : string) :
  exists body, quoteJSON s +:+ rest = String dquote body
               /\ parseChars body = Some (s, rest).
Proof.
  exists (escape s +:+ String dquote rest). split.
  - unfold quoteJSON. rewrite append_cons. now rewrite append_assoc.
  - apply parseChars_escape.
Qed.

Lemma closes_digit (rest : string) :
  closes rest = true ->
  forall acc, parseDigits acc rest = (acc, rest).
Proof.
  destruct rest as [|c rest]; [reflexivity|].
  intros H acc. cbn [parseDigits].
  destruct c as [[] [] [] [] [] [] [] []]; try discriminate H; reflexivity.
Qed.

Lemma closes_fraction (rest : string) :
  closes rest = true -> startsFraction rest = false.
Proof.
  destruct rest as [|c rest]; [reflexivity|].
  destruct c as [[] [] [] [] [] [] [] []]; intros H; try discriminate H; reflexivity.
Qed.

Lemma parseDigits_uint (d : Decimal.uint) (acc : positive) (rest : string) :
  closes rest = true ->
  parseDigits (Z.pos acc) (NilEmpty.string_of_uint d +:+ rest)
  = (Z.pos (Pos.of_uint_acc d acc), rest).
Proof.
  intros Hc. revert acc.
  induction d as [|d IH|d IH|d IH|d IH|d IH|d IH|d IH|d IH|d IH|d IH]; intros acc;
    cbn [NilEmpty.string_of_uint Pos.of_uint_acc];
    rewrite ?append_cons, ?append_nil_l;
    try (cbn [parseDigits]; cbv [digitVal]; cbn -[Z.mul Z.add Pos.mul Pos.add];
         rewrite <- IH; f_equal; lia).
  now apply closes_digit.
Qed.

(** The decimal digits of a positive number do not start with zero. *)
Lemma to_uint_head (p : positive) :
  match Pos.to_uint p with
  | Decimal.Nil | Decimal.D0 _ => False
  | _ => True
  end.
Proof.
  pose proof (DecimalPos.Unsigned.of_to p) as Hof.
  pose proof (DecimalPos.Unsigned.to_of (Pos.to_uint p)) as Hto.
  rewrite Hof in Hto. cbn [N.to_uint] in Hto.
  destruct (Pos.to_uint p) as [|d|d|d|d|d|d|d|d|d|d] eqn:E; try exact I.
  - discriminate Hof.
  - rewrite DecimalFacts.unorm_D0 in Hto.
    destruct d as [|d|d|d|d|d|d|d|d|d|d]; try discriminate Hto.
    + discriminate Hof.
    + pose proof (DecimalFacts.nb_digits_unorm (Decimal.D0 d)) as Hn.
      rewrite <- Hto in Hn. cbn [Decimal.nb_digits] in Hn.
      specialize (Hn ltac:(discriminate)). lia.
Qed.

Lemma parseNat_pos (p : positive) (rest : string) :
  closes rest = true ->
  parseNat (NilZero.string_of_uint (Pos.to_uint p) +:+ rest) = Some (Z.pos p, rest).
Proof.
  intros Hc.
  pose proof (to_uint_head p) as Hh.
  pose proof (DecimalPos.Unsigned.of_to p) as Hof.
  unfold NilZero.string_of_uint.
  destruct (Pos.to_uint p) as [|d|d|d|d|d|d|d|d|d|d]; try contradiction;
    cbn [NilEmpty.string_of_uint]; rewrite append_cons;
    cbn [Pos.of_uint] in Hof; injection Hof as Hof;
    unfold parseNat;
    match goal with
    | |- context [digitVal ?c] =>
        let v := eval vm_compute in (digitVal c) in
        change (digitVal c) with v
    end; cbv iota beta;
    rewrite parseDigits_uint by exact Hc;
    rewrite closes_fraction by exact Hc; rewrite Hof; reflexivity.
Qed.

Lemma toString_cases (n : Z) :
  toString n =
  match n with
  | Z0 => "0"
  | Z.pos p => NilZero.string_of_uint (Pos.to_uint p)
  | Z.neg p => String "-" (NilZero.string_of_uint (Pos.to_uint p))
  end.
Proof. destruct n; reflexivity. Qed.

(** A printed digit string starts with a digit. *)
Lemma string_of_uint_head (p : positive) :
  exists c s, NilZero.string_of_uint (Pos.to_uint p) = String c s
              /\ exists d, digitVal c = Some d.
Proof.
  pose proof (to_uint_head p) as Hh. unfold NilZero.string_of_uint.
  destruct (Pos.to_uint p) as [|d|d|d|d|d|d|d|d|d|d]; try contradiction;
    cbn [NilEmpty.string_of_uint]; eexists _, _; (split; [reflexivity|]);
    eexists; reflexivity.
Qed.

Lemma parseNumber_toString (n : Z) (rest : string) :
  closes rest = true ->
  parseNumber (toString n +:+ rest) = Some (n, rest).
Proof.
  intros Hc. rewrite toString_cases. destruct n as [|p|p].
  - rewrite append_cons, append_nil_l. cbn. rewrite closes_fraction by exact Hc. reflexivity.
  - destruct (string_of_uint_head p) as (c & s & Hs & d & Hd).
    pose proof (parseNat_pos p rest Hc) as Hp.
    rewrite Hs in *. rewrite append_cons in *.
    unfold parseNumber.
    destruct c as [[] [] [] [] [] [] [] []]; try discriminate Hd; exact Hp.
  - rewrite append_cons. cbn [parseNumber].
    rewrite parseNat_pos by exact Hc. reflexivity.
Qed.

Lemma json_induction (P : json -> Prop) :
  P JNull -> (forall b, P (JBool b)) -> (forall n, P (JNum n)) -> (forall s, P (JStr s)) ->
  (forall items, Forall P items -> P (JArr items)) ->
  (forall props, Forall (fun kv => P (snd kv)) props -> P (JObj props)) ->
  forall v, P v.
Proof.
  intros Hnull Hbool Hnum Hstr Harr Hobj.
  fix IH 1. intros [ | b | n | s | items | props ].
  - exact Hnull.
  - apply Hbool.
  - apply Hnum.
  - apply Hstr.
  - apply Harr. induction items as [|x items IHitems]; constructor; [apply IH | exact IHitems].
  - apply Hobj. induction props as [|[k x] props IHprops]; constructor; [apply IH | exact IHprops].
Qed.

Lemma toString_head (n : Z) :
  exists c s, toString n = String c s
    /\ ((N_of_ascii c =? 45) || (48 <=? N_of_ascii c) && (N_of_ascii c <=? 57))%N = true.
Proof.
  rewrite toString_cases. destruct n as [|p|p].
  - eexists _, _. split; reflexivity.
  - destruct (string_of_uint_head p) as (c & s & Hs & d & Hd).
    exists c, s. split; [exact Hs|].
    destruct c as [[] [] [] [] [] [] [] []]; try discriminate Hd; reflexivity.
  - eexists _, _. split; reflexivity.
Qed.

Lemma stringify_head (v : json) :
  exists c s, JSON_stringify v = String c s /\ valueStart c = true.
Proof.
  destruct v as [ | [] | n | s | items | props ];
    try (eexists _, _; split; reflexivity).
  destruct (toString_head n) as (c & s & Hs & Hc).
  exists c, s. split; [exact Hs|].
  destruct c as [[] [] [] [] [] [] [] []]; try discriminate Hc; reflexivity.
Qed.

Lemma parseValue_number (fuel : nat) (c : ascii) (s : string) :
  ((N_of_ascii c =? 45) || (48 <=? N_of_ascii c) && (N_of_ascii c <=? 57))%N = true ->
  parseValue (S fuel) (String c s)
  = match parseNumber (String c s) with
    | Some (z, r) => Some (JNum z, r)
    | None => None
    end.
Proof.
  destruct c as [[] [] [] [] [] [] [] []]; intros H; try discriminate H; reflexivity.
Qed.

Lemma after_valueStart (c c' : ascii) (s : string) :
  valueStart c' = true -> valueStart c = false -> after c (String c' s) = None.
Proof.
  intros H H'. unfold after. cbn [skipWs].
  assert (Hws : is_ws c' = false)
    by (destruct c' as [[] [] [] [] [] [] [] []]; try discriminate H; reflexivity).
  rewrite Hws. destruct (Ascii.eqb_spec c' c) as [->|]; [congruence | reflexivity].
Qed.

Lemma parseValue_array (fuel : nat) (c : ascii) (s : string) :
  valueStart c = true ->
  parseValue (S fuel) (String "[" (String c s))
  = match parseElements fuel (String c s) with
    | Some (items, r) => Some (JArr items, r)
    | None => None
    end.
Proof.
  intros H.
  change (parseValue (S fuel) (String "[" (String c s)))
    with (match after "]" (String c s) with
          | Some r => Some (JArr [], r)
          | None =>
              match parseElements fuel (String c s) with
              | Some (items, r) => Some (JArr items, r)
              | None => None
              end
          end).
  now rewrite (after_valueStart "]" c s H).
Qed.

Lemma parseValue_object (fuel : nat) (s : string) :
  parseValue (S fuel) (String "{" (String dquote s))
  = match parseMembers fuel (String dquote s) with
    | Some (members, r) => Some (objectOf members, r)
    | None => None
    end.
Proof. reflexivity. Qed.

Lemma parseElements_step (fuel : nat) (s : string) :
  parseElements (S fuel) s
  = match parseValue fuel s with
    | Some (v, r) =>
        match after "," r with
        | Some r' =>
            match parseElements fuel r' with
            | Some (vs, r'') => Some (v :: vs, r'')
            | None => None
            end
        | None =>
            match after "]" r with
            | Some r' => Some ([v], r')
            | None => None
            end
        end
    | None => None
    end.
Proof. reflexivity. Qed.

Lemma parseMembers_step (fuel : nat) (body : string) :
  parseMembers (S fuel) (String dquote body)
  = match parseChars body with
    | Some (k, r) =>
        match after ":" r with
        | Some r1 =>
            match parseValue fuel r1 with
            | Some (v, r2) =>
                match after "," r2 with
                | Some r3 =>
                    match parseMembers fuel r3 with
                    | Some (kvs, r4) => Some ((k, v) :: kvs, r4)
                    | None => None
                    end
                | None =>
                    match after "}" r2 with
                    | Some r3 => Some ([(k, v)], r3)
                    | None => None
                    end
                end
            | None => None
            end
        | None => None
        end
    | None => None
    end.
Proof. reflexivity. Qed.

Lemma joinComma_cons (part : string) (parts : list string) :
  parts <> [] ->
  joinComma (part :: parts) = part +:+ String "," (joinComma parts).
Proof. destruct parts; [congruence | reflexivity]. Qed.

Lemma parseElements_stringify (items : list json) :
  items <> [] -> Forall parses items -> forallb wellFormed items = true ->
  forall (fuel : nat) (rest : string),
    (fold_right (fun x n => S (json_size x + n)) O items <= fuel)%nat ->
    parseElements fuel (joinComma (map JSON_stringify items) +:+ String "]" rest)
    = Some (items, rest).
Proof.
  induction items as [|x items IH]; [congruence|].
  intros _ HP Hwf fuel rest Hfuel.
  apply Forall_cons_1 in HP as [Hx HP].
  cbn [forallb] in Hwf. apply andb_prop in Hwf as [Hwx Hwf].
  cbn [fold_right] in Hfuel.
  destruct fuel as [|fuel]; [lia|].
  rewrite parseElements_step.
  destruct items as [|y items].
  - cbn [map joinComma].
    rewrite (Hx Hwx fuel (String "]" rest)) by (cbn in *; first [lia | reflexivity]).
    reflexivity.
  - rewrite map_cons, joinComma_cons by discriminate.
    rewrite append_assoc, append_cons.
    rewrite (Hx Hwx fuel) by (cbn in *; first [lia | reflexivity]).
    change (after "," (String "," ?r)) with (Some r).
    cbv iota beta.
    rewrite IH; [reflexivity | congruence | exact HP | exact Hwf | lia].
Qed.

Lemma parseMembers_stringify (props : list (string * json)) :
  props <> [] -> Forall (fun kv => parses (snd kv)) props ->
  forallb (fun kv => wellFormed (snd kv)) props = true ->
  forall (fuel : nat) (rest : string),
    (fold_right (fun kv n => S (json_size (snd kv) + n)) O props <= fuel)%nat ->
    parseMembers fuel (joinComma (map printMember props) +:+ String "}" rest)
    = Some (props, rest).
Proof.
  induction props as [|[k x] props IH]; [congruence|].
  intros _ HP Hwf fuel rest Hfuel.
  apply Forall_cons_1 in HP as [Hx HP]. cbn [snd] in Hx.
  cbn [forallb snd] in Hwf. apply andb_prop in Hwf as [Hwx Hwf].
  cbn [fold_right snd] in Hfuel.
  destruct fuel as [|fuel]; [lia|].
  assert (Hmember : forall tail,
             parseMembers (S fuel) (printMember (k, x) +:+ tail)
             = match after "," tail with
               | Some r3 =>
                   match parseMembers fuel r3 with
                   | Some (kvs, r4) => Some ((k, x) :: kvs, r4)
                   | None => None
                   end
               | None =>
                   match after "}" tail with
                   | Some r3 => Some ([(k, x)], r3)
                   | None => None
                   end
               end
             \/ closes tail = false).
  { intros tail. destruct (closes tail) eqn:Hc; [left | right; reflexivity].
    unfold printMember. cbn [fst snd].
    rewrite append_assoc.
    destruct (parseChars_quoteJSON k (String ":" (JSON_stringify x) +:+ tail))
      as (body & Hbody & Hparse).
    rewrite Hbody, parseMembers_step, Hparse.
    rewrite append_cons.
    change (after ":" (String ":" ?r)) with (Some r). cbv iota beta.
    rewrite (Hx Hwx fuel tail) by (first [lia | exact Hc]).
    reflexivity. }
  destruct props as [|kv props].
  - cbn [map joinComma].
    destruct (Hmember (String "}" rest)) as [-> | Hc]; [reflexivity | discriminate Hc].
  - rewrite map_cons, joinComma_cons by discriminate.
    rewrite append_assoc, append_cons.
    destruct (Hmember (String "," (joinComma (map printMember (kv :: props))
                                  +:+ String "}" rest))) as [-> | Hc];
      [|discriminate Hc].
    change (after "," (String "," ?r)) with (Some r). cbv iota beta.
    rewrite IH; [reflexivity | congruence | exact HP | exact Hwf | lia].
Qed.

Lemma setProp_fresh (k : string) (v : json) (props : list (string * json)) :
  existsb (String.eqb k) (map fst props) = false ->
  setProp k v props = props ++ [(k, v)].
Proof.
  induction props as [|[k' v'] props IH]; [reflexivity|].
  cbn [map fst existsb setProp]. intros H.
  apply orb_false_elim in H as [Hk H].
  rewrite String.eqb_sym, Hk, IH by exact H. reflexivity.
Qed.

Lemma existsb_app_false {A} (f : A -> bool) (l1 l2 : list A) :
  existsb f (l1 ++ l2) = false <-> existsb f l1 = false /\ existsb f l2 = false.
Proof. rewrite existsb_app. apply orb_false_iff. Qed.

Lemma distinctKeys_app_cons (pre : list string) (k : string) (post : list string) :
  distinctKeys (pre ++ k :: post) = true ->
  existsb (String.eqb k) pre = false /\ distinctKeys ((pre ++ [k]) ++ post) = true.
Proof.
  rewrite <- app_assoc. cbn [app]. intros H. split; [|exact H].
  induction pre as [|p pre IH]; [reflexivity|].
  cbn [app distinctKeys] in H. apply andb_prop in H as [Hp H].
  cbn [existsb]. rewrite (IH H), orb_false_r.
  apply negb_true_iff in Hp. apply existsb_app_false in Hp as [_ Hp].
  cbn [existsb] in Hp. apply orb_false_elim in Hp as [Hp _].
  now rewrite String.eqb_sym.
Qed.

Lemma fold_setProp_distinct (members acc : list (string * json)) :
  distinctKeys (map fst (acc ++ members)) = true ->
  fold_left (fun a kv => setProp (fst kv) (snd kv) a) members acc = acc ++ members.
Proof.
  revert acc. induction members as [|[k v] members IH]; intros acc Hd.
  - now rewrite app_nil_r.
  - cbn [fold_left fst snd].
    rewrite map_app in Hd. cbn [map fst] in Hd.
    apply distinctKeys_app_cons in Hd as [Hfresh Hd].
    rewrite setProp_fresh by exact Hfresh.
    rewrite IH.
    + now rewrite <- app_assoc.
    + rewrite !map_app. exact Hd.
Qed.

Lemma objectOf_distinct (props : list (string * json)) :
  distinctKeys (map fst props) = true -> objectOf props = JObj props.
Proof.
  intros H. unfold objectOf. now rewrite (fold_setProp_distinct props []).
Qed.

(** The parser reads back every well-formed value that [JSON.stringify]
    has printed. *)
Theorem parseValue_stringify (v : json) : parses v.
Proof.
  induction v as [ | b | n | s | items IH | props IH ] using json_induction;
    intros Hwf fuel rest Hfuel Hc;
    (destruct fuel as [|fuel]; [cbn in Hfuel; lia|]).
  - reflexivity.
  - destruct b; reflexivity.
  - cbn [JSON_stringify].
    destruct (toString_head n) as (c & s & Hs & Hstart).
    pose proof (parseNumber_toString n rest Hc) as Hp.
    rewrite Hs in *. rewrite append_cons in *.
    rewrite parseValue_number by exact Hstart. now rewrite Hp.
  - cbn [JSON_stringify].
    destruct (parseChars_quoteJSON s rest) as (body & -> & Hparse).
    change (parseValue (S fuel) (String dquote body))
      with (match parseChars body with
            | Some (str, r) => Some (JStr str, r)
            | None => None
            end).
    now rewrite Hparse.
  - cbn [JSON_stringify wellFormed json_size] in *.
    rewrite append_cons, append_assoc.
    destruct items as [|x items]; [reflexivity|].
    destruct (stringify_head x) as (c & s & Hs & Hstart).
    pose proof (parseElements_stringify (x :: items) ltac:(discriminate) IH Hwf
                  fuel rest ltac:(lia)) as Hp.
    change ("]" +:+ rest) with (String "]" rest).
    destruct items as [|y items].
    + cbn [map joinComma] in *. rewrite Hs in *. rewrite append_cons in *.
      rewrite parseValue_array by exact Hstart. now rewrite Hp.
    + rewrite map_cons, joinComma_cons in * by discriminate.
      rewrite Hs in *. rewrite !append_cons in *.
      rewrite parseValue_array by exact Hstart. now rewrite Hp.
  - cbn [JSON_stringify wellFormed json_size] in *.
    apply andb_prop in Hwf as [Hkeys Hwf].
    rewrite append_cons, append_assoc.
    destruct props as [|[k x] props]; [reflexivity|].
    pose proof (parseMembers_stringify ((k, x) :: props) ltac:(discriminate) IH Hwf
                  fuel rest ltac:(lia)) as Hp.
    change ("}" +:+ rest) with (String "}" rest).
    fold printMember.
    destruct props as [|kv props].
    + cbn [map joinComma] in *.
      unfold printMember at 1, quoteJSON. unfold printMember at 1, quoteJSON in Hp.
      cbn [fst] in *. rewrite !append_cons in *.
      rewrite parseValue_object, Hp, objectOf_distinct by exact Hkeys. reflexivity.
    + rewrite map_cons, joinComma_cons in * by discriminate.
      unfold printMember at 1, quoteJSON. unfold printMember at 1, quoteJSON in Hp.
      cbn [fst] in *. rewrite !append_cons in *.
      rewrite parseValue_object, Hp, objectOf_distinct by exact Hkeys. reflexivity.
Qed.

Lemma length_joinComma_cons (part : string) (parts : list string) :
  String.length (joinComma (part :: parts))
  = match parts with
    | [] => String.length part
    | _ :: _ => S (String.length part + String.length (joinComma parts))
    end.
Proof.
  destruct parts as [|q parts]; [reflexivity|].
  rewrite (joinComma_cons part (q :: parts)) by discriminate.
  rewrite length_append. cbn [String.length]. lia.
Qed.

Lemma json_size_length (v : json) :
  (json_size v <= String.length (JSON_stringify v))%nat.
Proof.
  induction v as [ | b | n | s | items IH | props IH ] using json_induction.
  - cbn. lia.
  - destruct b; cbn; lia.
  - cbn [JSON_stringify json_size].
    destruct (toString_head n) as (c & s & -> & _). cbn [String.length]. lia.
  - cbn [JSON_stringify json_size]. unfold quoteJSON. cbn [String.length]. lia.
  - cbn [JSON_stringify json_size String.length]. rewrite length_append.
    cbn [String.length].
    enough (fold_right (fun x n => S (json_size x + n)) O items
            <= S (String.length (joinComma (map JSON_stringify items))))%nat by lia.
    induction IH as [|x items Hx _ IHitems]; [cbn; lia|].
    cbn [fold_right map]. rewrite length_joinComma_cons.
    destruct items; cbn [map fold_right] in *; lia.
  - cbn [JSON_stringify json_size String.length]. rewrite length_append.
    cbn [String.length]. fold printMember.
    enough (fold_right (fun kv n => S (json_size (snd kv) + n)) O props
            <= S (String.length (joinComma (map printMember props))))%nat by lia.
    induction IH as [|[k x] props Hx _ IHprops]; [cbn; lia|].
    cbn [snd] in Hx.
    assert (Hm : (S (json_size x) <= String.length (printMember (k, x)))%nat).
    { unfold printMember, quoteJSON. cbn [fst snd].
      rewrite append_cons. cbn [String.length].
      rewrite !length_append. cbn [String.length]. lia. }
    cbn [fold_right map snd]. rewrite length_joinComma_cons.
    destruct props; cbn [map fold_right] in *; lia.
Qed.

(** [JSON.parse(JSON.stringify(v))] is [v]. *)
Theorem JSON_parse_stringify (v : json) :
  wellFormed v = true -> JSON_parse (JSON_stringify v) = Some v.
Proof.
  intros Hwf. unfold JSON_parse.
  pose proof (parseValue_stringify v Hwf (S (String.length (JSON_stringify v)))
                EmptyString) as Hp.
  rewrite append_nil_r in Hp.
  rewrite Hp; [reflexivity | pose proof (json_size_length v); lia | reflexivity].
Qed.

(** ** The fuel of the parser *)

Lemma skipWs_length (s : string) : (String.length (skipWs s) <= String.length s)%nat.
Proof.
  induction s as [|c s IH]; cbn [skipWs String.length]; [lia|].
  destruct (is_ws c); cbn [String.length]; lia.
Qed.

Lemma consChar_length (c : ascii) (res : option (string * string)) (str r : string) (n : nat) :
  (forall str' r', res = Some (str', r') -> String.length r' < n)%nat ->
  consChar c res = Some (str, r) -> (String.length r < n)%nat.
Proof.
  intros H. destruct res as [[str' r']|]; [|discriminate].
  cbn [consChar]. intros [= _ <-]. now apply (H str').
Qed.

Lemma parseChars_length (s str r : string) :
  parseChars s = Some (str, r) -> (String.length r < String.length s)%nat.
Proof.
  remember (String.length s) as n eqn:Hn.
  revert s str r Hn. induction n as [n IH] using lt_wf_ind.
  intros s str r -> H.
  destruct s as [|c s1]; [discriminate|]. cbn [parseChars] in H.
  destruct (N_of_ascii c =? 34)%N.
  { injection H as _ <-. cbn [String.length]. lia. }
  destruct (N_of_ascii c =? 92)%N.
  - destruct s1 as [|e s2]; [discriminate|].
    destruct (N_of_ascii e =? 117)%N.
    + destruct s2 as [|h1 [|h2 [|h3 [|h4 s3]]]]; try discriminate.
      destruct (hex4 h1 h2 h3 h4) as [k|]; [|discriminate].
      destruct (k <? 256)%N; [|discriminate].
      eapply consChar_length in H; [exact H|].
      intros str' r' Hr. cbn [String.length].
      pose proof (IH (String.length s3) ltac:(cbn [String.length]; lia) s3 str' r' eq_refl Hr).
      lia.
    + destruct (unescape e) as [ch|]; [|discriminate].
      eapply consChar_length in H; [exact H|].
      intros str' r' Hr. cbn [String.length].
      pose proof (IH (String.length s2) ltac:(cbn [String.length]; lia) s2 str' r' eq_refl Hr).
      lia.
  - destruct (N_of_ascii c <? 32)%N; [discriminate|].
    eapply consChar_length in H; [exact H|].
    intros str' r' Hr. cbn [String.length].
    pose proof (IH (String.length s1) ltac:(cbn [String.length]; lia) s1 str' r' eq_refl Hr).
    lia.
Qed.

Lemma parseDigits_length (acc : Z) (s : string) :
  (String.length (snd (parseDigits acc s)) <= String.length s)%nat.
Proof.
  revert acc. induction s as [|c s IH]; intros acc; cbn [parseDigits]; [cbn; lia|].
  destruct (digitVal c); cbn [snd String.length]; [|lia].
  specialize (IH (10 * acc + z)). lia.
Qed.

Lemma parseNat_length (s : string) (n : Z) (r : string) :
  parseNat s = Some (n, r) -> (String.length r < String.length s)%nat.
Proof.
  unfold parseNat. destruct s as [|c s]; [discriminate|].
  destruct (digitVal c) as [d|]; [|discriminate].
  assert (Hrun : forall k,
             (let '(n, rest) := parseDigits k s in
              if startsFraction rest then None else Some (n, rest)) = Some (n, r) ->
             (String.length r < String.length (String c s))%nat).
  { intros k. pose proof (parseDigits_length k s) as Hl.
    destruct (parseDigits k s) as [m rest]. cbn [snd] in Hl.
    destruct (startsFraction rest); [discriminate|].
    intros [= _ <-]. cbn [String.length]. lia. }
  destruct d as [|p|p]; [|apply Hrun..].
  destruct (startsFraction s); [discriminate|].
  intros [= _ <-]. cbn [String.length]. lia.
Qed.

Lemma parseNumber_length (s : string) (n : Z) (r : string) :
  parseNumber s = Some (n, r) -> (String.length r < String.length s)%nat.
Proof.
  assert (Hnat : forall s', match parseNat s' with
                            | Some (n, rest) => Some (- n, rest)
                            | None => None
                            end = Some (n, r) ->
                            (String.length r < String.length s')%nat).
  { intros s'. destruct (parseNat s') as [[m rest]|] eqn:E; [|discriminate].
    intros [= _ <-]. now apply parseNat_length in E. }
  unfold parseNumber. destruct s as [|c s']; [discriminate|].
  destruct c as [[] [] [] [] [] [] [] []];
    try apply parseNat_length.
  intros H. apply Hnat in H. cbn [String.length]. lia.
Qed.

Lemma expect_length (word s r : string) :
  expect word s = Some r -> (String.length r <= String.length s)%nat.
Proof.
  revert s. induction word as [|w word IH]; intros s; cbn [expect].
  - intros [= <-]. lia.
  - destruct s as [|c s]; [discriminate|].
    destruct (Ascii.eqb c w); [|discriminate].
    intros H. apply IH in H. cbn [String.length]. lia.
Qed.

Lemma after_length (c : ascii) (s r : string) :
  after c s = Some r -> (String.length r < String.length s)%nat.
Proof.
  unfold after. pose proof (skipWs_length s) as H.
  destruct (skipWs s) as [|c' r']; [discriminate|].
  destruct (Ascii.eqb c' c); [|discriminate].
  intros [= <-]. cbn [String.length] in H. lia.
Qed.

Lemma parseValue_step (fuel : nat) (s : string) :
  parseValue (S fuel) s
  = match skipWs s with
    | EmptyString => None
    | String c s1 =>
        let n := N_of_ascii c in
        if (n =? 110)%N then
          match expect "ull" s1 with Some r => Some (JNull, r) | None => None end
        else if (n =? 116)%N then
          match expect "rue" s1 with Some r => Some (JBool true, r) | None => None end
        else if (n =? 102)%N then
          match expect "alse" s1 with Some r => Some (JBool false, r) | None => None end
        else if (n =? 34)%N then
          match parseChars s1 with
          | Some (str, r) => Some (JStr str, r)
          | None => None
          end
        else if (n =? 91)%N then
          match after "]" s1 with
          | Some r => Some (JArr [], r)
          | None =>
              match parseElements fuel s1 with
              | Some (items, r) => Some (JArr items, r)
              | None => None
              end
          end
        else if (n =? 123)%N then
          match after "}" s1 with
          | Some r => Some (JObj [], r)
          | None =>
              match parseMembers fuel s1 with
              | Some (members, r) => Some (objectOf members, r)
              | None => None
              end
          end
        else
          match parseNumber (String c s1) with
          | Some (z, r) => Some (JNum z, r)
          | None => None
          end
    end.
Proof. reflexivity. Qed.

Lemma parseMembers_eq (fuel : nat) (s : string) :
  parseMembers (S fuel) s
  = match after dquote s with
    | Some s1 =>
        match parseChars s1 with
        | Some (k, r) =>
            match after ":" r with
            | Some r1 =>
                match parseValue fuel r1 with
                | Some (v, r2) =>
                    match after "," r2 with
                    | Some r3 =>
                        match parseMembers fuel r3 with
                        | Some (kvs, r4) => Some ((k, v) :: kvs, r4)
                        | None => None
                        end
                    | None =>
                        match after "}" r2 with
                        | Some r3 => Some ([(k, v)], r3)
                        | None => None
                        end
                    end
                | None => None
                end
            | None => None
            end
        | None => None
        end
    | None => None
    end.
Proof. reflexivity. Qed.

Lemma parseValue_stable_step (fuel : nat) :
  stable parseElements fuel -> stable parseMembers fuel -> stable parseValue (S fuel).
Proof.
  intros HE HM s x r H.
  rewrite parseValue_step in H.
  pose proof (skipWs_length s) as Hws.
  destruct (skipWs s) as [|c s1] eqn:Es; [discriminate|].
  cbn [String.length] in Hws. cbv zeta in H.
  assert (Hstep : forall fuel', parseValue (S fuel') s
                                = ltac:(let t := eval cbv zeta in
                                           (let n := N_of_ascii c in
        if (n =? 110)%N then
          match expect "ull" s1 with Some r => Some (JNull, r) | None => None end
        else if (n =? 116)%N then
          match expect "rue" s1 with Some r => Some (JBool true, r) | None => None end
        else if (n =? 102)%N then
          match expect "alse" s1 with Some r => Some (JBool false, r) | None => None end
        else if (n =? 34)%N then
          match parseChars s1 with
          | Some (str, r) => Some (JStr str, r)
          | None => None
          end
        else if (n =? 91)%N then
          match after "]" s1 with
          | Some r => Some (JArr [], r)
          | None =>
              match parseElements fuel' s1 with
              | Some (items, r) => Some (JArr items, r)
              | None => None
              end
          end
        else if (n =? 123)%N then
          match after "}" s1 with
          | Some r => Some (JObj [], r)
          | None =>
              match parseMembers fuel' s1 with
              | Some (members, r) => Some (objectOf members, r)
              | None => None
              end
          end
        else
          match parseNumber (String c s1) with
          | Some (z, r) => Some (JNum z, r)
          | None => None
          end) in exact t))
    by (intros fuel'; now rewrite parseValue_step, Es).
  assert (Hleaf : (String.length r <= String.length s1)%nat ->
                  (forall fuel', parseValue (S fuel') s = Some (x, r)) ->
                  (String.length r < String.length s)%nat
                  /\ forall fuel', (String.length s - String.length r <= fuel')%nat ->
                                   parseValue fuel' s = Some (x, r)).
  { intros Hr Hres. split; [lia|]. intros [|fuel'] Hf; [lia | apply Hres]. }
  destruct (N_of_ascii c =? 110)%N.
  { destruct (expect "ull" s1) as [r'|] eqn:Ex; [|discriminate]. injection H as <- <-.
    apply Hleaf; [now apply expect_length in Ex | exact Hstep]. }
  destruct (N_of_ascii c =? 116)%N.
  { destruct (expect "rue" s1) as [r'|] eqn:Ex; [|discriminate]. injection H as <- <-.
    apply Hleaf; [now apply expect_length in Ex | exact Hstep]. }
  destruct (N_of_ascii c =? 102)%N.
  { destruct (expect "alse" s1) as [r'|] eqn:Ex; [|discriminate]. injection H as <- <-.
    apply Hleaf; [now apply expect_length in Ex | exact Hstep]. }
  destruct (N_of_ascii c =? 34)%N.
  { destruct (parseChars s1) as [[str r']|] eqn:Ex; [|discriminate]. injection H as <- <-.
    apply Hleaf; [apply parseChars_length in Ex; lia | exact Hstep]. }
  destruct (N_of_ascii c =? 91)%N.
  { destruct (after "]" s1) as [r'|] eqn:Ea.
    - injection H as <- <-.
      apply Hleaf; [apply after_length in Ea; lia | exact Hstep].
    - destruct (parseElements fuel s1) as [[items r']|] eqn:Ex; [|discriminate].
      injection H as <- <-. destruct (HE _ _ _ Ex) as [Hlt Hstable].
      split; [lia|]. intros [|fuel'] Hf; [lia|].
      rewrite Hstep, Hstable by lia. reflexivity. }
  destruct (N_of_ascii c =? 123)%N.
  { destruct (after "}" s1) as [r'|] eqn:Ea.
    - injection H as <- <-.
      apply Hleaf; [apply after_length in Ea; lia | exact Hstep].
    - destruct (parseMembers fuel s1) as [[members r']|] eqn:Ex; [|discriminate].
      injection H as <- <-. destruct (HM _ _ _ Ex) as [Hlt Hstable].
      split; [lia|]. intros [|fuel'] Hf; [lia|].
      rewrite Hstep, Hstable by lia. reflexivity. }
  destruct (parseNumber (String c s1)) as [[z r']|] eqn:Ex; [|discriminate].
  injection H as <- <-.
  apply Hleaf; [apply parseNumber_length in Ex; cbn [String.length] in Ex; lia | exact Hstep].
Qed.

Lemma parseElements_stable_step (fuel : nat) :
  stable parseValue fuel -> stable parseElements fuel -> stable parseElements (S fuel).
Proof.
  intros HV HE s x r H.
  rewrite parseElements_step in H.
  destruct (parseValue fuel s) as [[v r1]|] eqn:Ev; [|discriminate].
  destruct (HV _ _ _ Ev) as [Hlt1 Hst1].
  destruct (after "," r1) as [r2|] eqn:Ec.
  - pose proof (after_length _ _ _ Ec) as Hlt2.
    destruct (parseElements fuel r2) as [[vs r3]|] eqn:Ee; [|discriminate].
    injection H as <- <-. destruct (HE _ _ _ Ee) as [Hlt3 Hst3].
    split; [lia|]. intros [|fuel'] Hf; [lia|].
    rewrite parseElements_step, Hst1, Ec, Hst3 by lia. reflexivity.
  - destruct (after "]" r1) as [r2|] eqn:Eb; [|discriminate].
    pose proof (after_length _ _ _ Eb) as Hlt2. injection H as <- <-.
    split; [lia|]. intros [|fuel'] Hf; [lia|].
    rewrite parseElements_step, Hst1, Ec, Eb by lia. reflexivity.
Qed.

Lemma parseMembers_stable_step (fuel : nat) :
  stable parseValue fuel -> stable parseMembers fuel -> stable parseMembers (S fuel).
Proof.
  intros HV HM s x r H.
  rewrite parseMembers_eq in H.
  destruct (after dquote s) as [s1|] eqn:Eq; [|discriminate].
  pose proof (after_length _ _ _ Eq) as Hlt0.
  destruct (parseChars s1) as [[k r0]|] eqn:Ek; [|discriminate].
  pose proof (parseChars_length _ _ _ Ek) as Hltk.
  destruct (after ":" r0) as [r1|] eqn:Ecolon; [|discriminate].
  pose proof (after_length _ _ _ Ecolon) as Hltc.
  destruct (parseValue fuel r1) as [[v r2]|] eqn:Ev; [|discriminate].
  destruct (HV _ _ _ Ev) as [Hlt1 Hst1].
  destruct (after "," r2) as [r3|] eqn:Ec.
  - pose proof (after_length _ _ _ Ec) as Hlt2.
    destruct (parseMembers fuel r3) as [[kvs r4]|] eqn:Em; [|discriminate].
    injection H as <- <-. destruct (HM _ _ _ Em) as [Hlt3 Hst3].
    split; [lia|]. intros [|fuel'] Hf; [lia|].
    rewrite parseMembers_eq, Eq, Ek, Ecolon, Hst1, Ec, Hst3 by lia. reflexivity.
  - destruct (after "}" r2) as [r3|] eqn:Eb; [|discriminate].
    pose proof (after_length _ _ _ Eb) as Hlt2. injection H as <- <-.
    split; [lia|]. intros [|fuel'] Hf; [lia|].
    rewrite parseMembers_eq, Eq, Ek, Ecolon, Hst1, Ec, Eb by lia. reflexivity.
Qed.

Lemma parse_stable (fuel : nat) :
  stable parseValue fuel /\ stable parseElements fuel /\ stable parseMembers fuel.
Proof.
  induction fuel as [|fuel (HV & HE & HM)].
  - split; [|split]; intros s x r H; discriminate H.
  - split; [now apply parseValue_stable_step|].
    split; [now apply parseElements_stable_step | now apply parseMembers_stable_step].
Qed.

(** The fuel [JSON_parse] gives the parser is enough: a text that parses
    with any fuel at all parses, to the same value, in [JSON_parse]. *)
Theorem JSON_parse_fuel (fuel : nat) (text : string) (v : json) (rest : string) :
  parseValue fuel text = Some (v, rest) ->
  JSON_parse text = match skipWs rest with
                    | EmptyString => Some v
                    | String _ _ => None
                    end.
Proof.
  intros H. destruct (proj1 (parse_stable fuel) _ _ _ H) as [_ Hst].
  unfold JSON_parse. rewrite Hst by lia. reflexivity.
Qed.

(** ** Persistence *)

Lemma safelyParseJson_load (expected : json -> bool) (fallback : json)
      (entry : option string) :
  expected JNull = false -> expected fallback = true ->
  (let v := safelyParseJson entry fallback in if expected v then v else fallback)
  = Contract.load expected fallback entry.
Proof.
  intros Hnull Hfb. unfold safelyParseJson, Contract.load.
  destruct entry as [text|].
  - destruct (JSON_parse text) as [v|]; cbv beta iota zeta; [reflexivity | now rewrite Hfb].
  - change (JSON_parse "null") with (Some JNull). cbv beta iota zeta. now rewrite Hnull.
Qed.

Lemma filterActive_no_null (items : list json) :
  existsb Contract.isNull items = false ->
  Calendar.filterActive items
  = Returns (List.filter (fun t => negb (Contract.isCompleted t)) items).
Proof.
  induction items as [|t items IH]; [reflexivity|].
  cbn [existsb]. intros H. apply orb_false_elim in H as [Ht H].
  cbn [Calendar.filterActive List.filter]. rewrite (IH H).
  destruct t; try discriminate Ht; cbn; try reflexivity.
  now destruct (truthyOpt (lookupProp "completed" props)).
Qed.

(** C1 (as amended): for the four JSON-encoded collections loading never
    throws and follows the load contract, with these shapes: an array for
    the tasks of the board (the check is the one of [App.init]), the
    subjects and the chat history; any value whose [typeof] is ['object']
    and that is not [null], arrays included, for the colour map (on the
    board and in the calendar).  The task loader of the calendar returns
    the elements of the contract's array that are not completed, when no
    element of the array is [null]. *)
Theorem load_contract (store : gmap string string) :
  Board.init_tasks store
  = Contract.load isArray (JArr []) (store !! Board.KEY_tasks)
  /\ Board.Storage_loadSubjects store
     = Contract.load isArray (JArr []) (store !! Board.KEY_subjects)
  /\ Board.Storage_loadSubjectColors store
     = Contract.load isObjectLike (JObj []) (store !! Board.KEY_subjectColors)
  /\ Calendar.loadSubjectColors store
     = Contract.load isObjectLike (JObj []) (store !! Calendar.KEY_subjectColors)
  /\ Chat.load store
     = Contract.load isArray (JArr []) (store !! Chat.KEY_history)
  /\ (forall items : list json,
         Contract.load isArray (JArr []) (store !! Calendar.KEY_tasks) = JArr items ->
         existsb Contract.isNull items = false ->
         Calendar.loadTasks store
         = Returns (List.filter (fun t => negb (Contract.isCompleted t)) items)).
Proof.
  repeat split; try (apply safelyParseJson_load; reflexivity).
  intros items Hload Hnull.
  unfold Calendar.loadTasks.
  rewrite <- (safelyParseJson_load isArray (JArr [])) in Hload by reflexivity.
  cbn zeta in Hload. unfold getItem.
  destruct (safelyParseJson (store !! Calendar.KEY_tasks) (JArr [])) as [| | | |l|];
    cbn [isArray] in Hload; try (injection Hload as <-); try discriminate Hload;
    apply filterActive_no_null; auto.
Qed.

(** A store whose tasks are one completed and one active task. *)
Lemma load_contract_witness :
  let stored := JArr [JObj [("completed", JBool true)]; JObj [("completed", JBool false)]] in
  let store : gmap string string := {[ Calendar.KEY_tasks := JSON_stringify stored ]} in
  Calendar.loadTasks store = Returns [JObj [("completed", JBool false)]].
Proof.
  intros stored store.
  exact (proj2 (proj2 (proj2 (proj2 (proj2 (load_contract store)))))
           [JObj [("completed", JBool true)]; JObj [("completed", JBool false)]]
           eq_refl eq_refl).
Defined.

(** C1 (as stated) fails: with one completed and one active task stored,
    the entry is present, parses and is an array, yet the task loader of
    the calendar returns neither the deserialized value nor the
    fallback. *)
Lemma load_contract_counterexample :
  let stored := JArr [JObj [("completed", JBool true)]; JObj [("completed", JBool false)]] in
  let store : gmap string string := {[ Calendar.KEY_tasks := JSON_stringify stored ]} in
  JSON_parse (JSON_stringify stored) = Some stored
  /\ isArray stored = true
  /\ exists loaded,
       Calendar.loadTasks store = Returns loaded
       /\ JArr loaded <> stored /\ JArr loaded <> JArr [].
Proof.
  cbn zeta. split; [reflexivity|]. split; [reflexivity|].
  exists [JObj [("completed", JBool false)]].
  split; [reflexivity|]. split; discriminate.
Qed.

(** A [null] among the stored tasks: the loader of the calendar throws. *)
Example loadTasks_null_element :
  JSON_parse "[null]" = Some (JArr [JNull])
  /\ Calendar.loadTasks {[ Calendar.KEY_tasks := "[null]" ]} = Throws "TypeError".
Proof. split; reflexivity. Qed.

(** C7: a well-formed value saved through the persistence layer is loaded
    back unchanged: an array through the tasks, subjects and chat-history
    keys, an object through the colour-map key (read by the board and by
    the calendar). *)
Theorem save_load_round_trip (v : json) (store : gmap string string) :
  wellFormed v = true ->
  (forall items, v = JArr items ->
     Board.Storage_loadTasks (Board.Storage_saveTasks v store) = v
     /\ Board.init_tasks (Board.Storage_saveTasks v store) = v
     /\ Board.Storage_loadSubjects (Board.Storage_saveSubjects v store) = v
     /\ Chat.load (Chat.save v store) = v)
  /\ (forall props, v = JObj props ->
        Board.Storage_loadSubjectColors (Board.Storage_saveSubjectColors v store) = v
        /\ Calendar.loadSubjectColors (Board.Storage_saveSubjectColors v store) = v).
Proof.
  intros Hwf.
  pose proof (JSON_parse_stringify v Hwf) as Hp.
  assert (Hload : forall key fallback,
             safelyParseJson (getItem (setItem store key (JSON_stringify v)) key) fallback = v).
  { intros key fallback. unfold getItem, setItem, safelyParseJson.
    rewrite lookup_insert_eq, Hp. reflexivity. }
  split.
  - intros items ->.
    unfold Board.init_tasks, Board.Storage_loadTasks, Board.Storage_saveTasks,
      Board.Storage_loadSubjects, Board.Storage_saveSubjects, Chat.load, Chat.save.
    rewrite !Hload. repeat split; reflexivity.
  - intros props ->.
    unfold Board.Storage_loadSubjectColors, Board.Storage_saveSubjectColors,
      Calendar.loadSubjectColors.
    change Calendar.KEY_subjectColors with Board.KEY_subjectColors.
    rewrite !Hload. split; reflexivity.
Qed.

Lemma save_load_round_trip_witness :
  let v := JArr [JObj [("role", JStr "user"); ("content", JStr "hi"); ("ts", JNum 1700000000000)]] in
  wellFormed v = true /\ Chat.load (Chat.save v ∅) = v.
Proof.
  intros v. split; [reflexivity|].
  exact (proj2 (proj2 (proj2 (proj1 (save_load_round_trip v ∅ eq_refl) _ eq_refl)))).
Defined.

(** ** Subject colours *)

Example generateColorFor_empty : Board.generateColorFor "" = "#db5757".
Proof. vm_compute. reflexivity. Qed.

Example generateColorFor_Math : Board.generateColorFor "Math" = "#d2db57".
Proof. vm_compute. reflexivity. Qed.

(** Every hue of the colour wheel converts to a well-formed colour. *)
Lemma hslToHex_all_hues :
  forallb (fun h => Board.is_hex_color (Board.hslToHex (JS.ofZ (Z.of_nat h)) 65 60))
          (seq 0 360) = true.
Proof. vm_compute. reflexivity. Qed.

Lemma hslToHex_hue (hue : Z) :
  0 <= hue < 360 ->
  Board.is_hex_color (Board.hslToHex (JS.ofZ hue) 65 60) = true.
Proof.
  intros Hh.
  pose proof hslToHex_all_hues as Hall.
  rewrite forallb_forall in Hall.
  specialize (Hall (Z.to_nat hue)).
  rewrite Z2Nat.id in Hall by lia.
  apply Hall, in_seq. lia.
Qed.

Lemma generateColorForCodes_hex (codes : list Z) :
  Board.is_hex_color (Board.generateColorForCodes codes) = true.
Proof.
  unfold Board.generateColorForCodes.
  apply hslToHex_hue, Z.mod_pos_bound. lia.
Qed.

(** C6: [generateColorFor] is a function of its argument alone (equal
    seeds give equal colours, the empty seed included, and the result does
    not depend on anything but the code units of the seed), and for every
    seed the result is [#] followed by six hexadecimal digits. *)
Theorem generateColorFor_deterministic_hex :
  (forall seed1 seed2 : string,
      seed1 = seed2 -> Board.generateColorFor seed1 = Board.generateColorFor seed2)
  /\ (forall seed : string, Board.is_hex_color (Board.generateColorFor seed) = true)
  /\ (forall codes : list Z, Board.is_hex_color (Board.generateColorForCodes codes) = true)
  /\ Board.generateColorFor "" = "#db5757".
Proof.
  split; [intros ? ? ->; reflexivity|].
  split; [intros seed; apply generateColorForCodes_hex|].
  split; [apply generateColorForCodes_hex|].
  vm_compute. reflexivity.
Qed.

(** ** The chat client *)

Lemma trimStart_white (s : string) :
  forallb is_white (list_ascii_of_string s) = true -> trimStart s = EmptyString.
Proof.
  induction s as [|c s IH]; [reflexivity|].
  cbn [list_ascii_of_string forallb trimStart]. intros H.
  apply andb_prop in H as [Hc H]. rewrite Hc. exact (IH H).
Qed.

Lemma trim_white (s : string) :
  forallb is_white (list_ascii_of_string s) = true -> trim s = EmptyString.
Proof. intros H. unfold trim. now rewrite trimStart_white. Qed.

(** C10: when the input box holds nothing but white space (the empty
    text included), [handleSend] changes nothing: the messages, the store
    with all its keys, the input box and the requests are what they
    were. *)
Theorem handleSend_blank_input (now1 now2 : Z) (network : Chat.Request -> Chat.Response)
        (st : Chat.State) :
  forallb is_white (list_ascii_of_string (Chat.inputValue st)) = true ->
  Chat.handleSend now1 now2 network st = st.
Proof.
  intros H. unfold Chat.handleSend. rewrite (trim_white _ H). reflexivity.
Qed.

Lemma handleSend_blank_input_witness :
  let st := {| Chat.messages := [JStr "kept"];
               Chat.localStorage := {[ Chat.KEY_history := "[]" ]};
               Chat.inputValue := "   ";
               Chat.requests := [] |} in
  forallb is_white (list_ascii_of_string (Chat.inputValue st)) = true
  /\ Chat.handleSend 1 2 (fun _ => Chat.NetworkError "offline") st = st.
Proof.
  intros st. split; [reflexivity|].
  apply (handleSend_blank_input 1 2 (fun _ => Chat.NetworkError "offline") st).
  reflexivity.
Defined.

(** C9: with text in the input box and no API key in the store (no entry,
    or an empty one), [handleSend] appends the user message and then one
    assistant message with the configuration prompt, saves the history
    after each, issues no request and is done. *)
Theorem handleSend_no_api_key (now1 now2 : Z) (network : Chat.Request -> Chat.Response)
        (st : Chat.State) :
  nonempty (trim (Chat.inputValue st)) = true ->
  Chat.missing (Chat.localStorage st !! Chat.KEY_apiKey) = true ->
  let user :=
    JObj [("role", JStr "user"); ("content", JStr (trim (Chat.inputValue st)));
          ("ts", JNum now1)] in
  let assistant :=
    JObj [("role", JStr "assistant");
          ("content", JStr "Please set your API key in the API dialog.");
          ("ts", JNum now2)] in
  let st' := Chat.handleSend now1 now2 network st in
  Chat.messages st' = Chat.messages st ++ [user; assistant]
  /\ Chat.requests st' = Chat.requests st
  /\ Chat.inputValue st' = EmptyString
  /\ Chat.localStorage st'
     = <[Chat.KEY_history := JSON_stringify (JArr (Chat.messages st ++ [user; assistant]))]>
         (Chat.localStorage st).
Proof.
  intros Htext Hkey user assistant st'.
  assert (Hsend : st' =
            Chat.append "assistant" (JStr "Please set your API key in the API dialog.") now2
              (Chat.append "user" (JStr (trim (Chat.inputValue st))) now1
                 {| Chat.messages := Chat.messages st;
                    Chat.localStorage := Chat.localStorage st;
                    Chat.inputValue := EmptyString;
                    Chat.requests := Chat.requests st |})).
  { subst st'. unfold Chat.handleSend. rewrite Htext. cbn [negb]. cbv zeta.
    match goal with
    | |- context [Chat.missing ?item] =>
        replace item with (Chat.localStorage st !! Chat.KEY_apiKey)
    end.
    - now rewrite Hkey.
    - unfold getItem, Chat.append, Chat.save, setItem. cbn [Chat.localStorage].
      now rewrite lookup_insert_ne by discriminate. }
  rewrite Hsend. unfold Chat.append, Chat.save, setItem.
  cbn [Chat.localStorage Chat.messages Chat.requests Chat.inputValue].
  rewrite insert_insert_eq, <- app_assoc.
  repeat split; reflexivity.
Qed.

Lemma handleSend_no_api_key_witness :
  let st := {| Chat.messages := [];
               Chat.localStorage := ∅;
               Chat.inputValue := " hello ";
               Chat.requests := [] |} in
  let st' := Chat.handleSend 10 11 (fun _ => Chat.NetworkError "offline") st in
  Chat.messages st'
  = [JObj [("role", JStr "user"); ("content", JStr "hello"); ("ts", JNum 10)];
     JObj [("role", JStr "assistant");
           ("content", JStr "Please set your API key in the API dialog.");
           ("ts", JNum 11)]]
  /\ Chat.requests st' = [].
Proof.
  intros st st'.
  pose proof (handleSend_no_api_key 10 11 (fun _ => Chat.NetworkError "offline") st
                eq_refl eq_refl) as H.
  split; [exact (proj1 H) | exact (proj1 (proj2 H))].
Defined.

(** ** Sorting *)

Section SortFacts.
Context {A : Type} (compare : A -> A -> Z).

Lemma sortInsert_Permutation (x : A) (l : list A) :
  Permutation (sortInsert compare x l) (x :: l).
Proof.
  induction l as [|y l IH]; cbn [sortInsert]; [reflexivity|].
  destruct (compare x y <=? 0); [reflexivity|].
  rewrite IH. apply perm_swap.
Qed.

Lemma sort_Permutation (l : list A) : Permutation (sort compare l) l.
Proof.
  induction l as [|x l IH]; cbn [sort]; [reflexivity|].
  rewrite sortInsert_Permutation. now constructor.
Qed.

(** The comparator orders consistently: any two elements compare one way
    or the other, and the order is transitive. *)
Hypothesis compare_total : forall a b, compare a b <= 0 \/ compare b a <= 0.
Hypothesis compare_trans :
  forall a b c, compare a b <= 0 -> compare b c <= 0 -> compare a c <= 0.

Let le (a b : A) : Prop := compare a b <= 0.

Lemma sortInsert_sorted (x : A) (l : list A) :
  StronglySorted le l -> StronglySorted le (sortInsert compare x l).
Proof.
  induction 1 as [|y l Hl IH Hy]; cbn [sortInsert].
  - repeat constructor.
  - destruct (compare x y <=? 0) eqn:E.
    + apply Z.leb_le in E. constructor; [now constructor|].
      constructor; [exact E|].
      eapply List.Forall_impl; [|exact Hy]. intros z Hz. now apply (compare_trans x y z).
    + apply Z.leb_gt in E. constructor; [exact IH|].
      assert (Hyx : le y x) by (destruct (compare_total x y); [lia | assumption]).
      eapply Permutation_Forall; [symmetry; apply sortInsert_Permutation|].
      now constructor.
Qed.

Lemma sort_sorted (l : list A) : StronglySorted le (sort compare l).
Proof.
  induction l as [|x l IH]; cbn [sort]; [constructor | now apply sortInsert_sorted].
Qed.

Lemma filter_sorted (f : A -> bool) (l : list A) :
  StronglySorted le l -> StronglySorted le (List.filter f l).
Proof.
  induction 1 as [|y l Hl IH Hy]; cbn [List.filter]; [constructor|].
  destruct (f y); [|exact IH].
  constructor; [exact IH|].
  apply List.Forall_forall. intros z Hz. apply List.filter_In in Hz as [Hz _].
  rewrite List.Forall_forall in Hy. now apply Hy.
Qed.

End SortFacts.

(** ** Subjects *)

Lemma includes_In (name_ : string) (l : list string) :
  Board.includes name_ l = true <-> In name_ l.
Proof.
  unfold Board.includes. rewrite List.existsb_exists. split.
  - intros (x & Hx & E). apply String.eqb_eq in E. now subst.
  - intros H. exists name_. split; [exact H | apply String.eqb_refl].
Qed.

Section Subjects.
Variable localeCompare : string -> string -> Z.
Hypothesis localeCompare_total :
  forall a b, localeCompare a b <= 0 \/ localeCompare b a <= 0.
Hypothesis localeCompare_trans :
  forall a b c, localeCompare a b <= 0 -> localeCompare b c <= 0 -> localeCompare a c <= 0.

Let subjectsOrdered := Board.subjectsOrdered localeCompare.

Lemma onAddSubject_ordered (input : option string) (p : Board.Page) :
  subjectsOrdered (Board.subjects (Board.app p)) ->
  subjectsOrdered (Board.subjects (Board.app (Board.onAddSubject localeCompare input p))).
Proof.
  intros [Hs Hn]. unfold Board.onAddSubject.
  destruct input as [text|]; [|now split].
  destruct (nonempty text); cbn [negb]; [|now split].
  destruct (nonempty (trim text)); cbn [negb]; [|now split].
  destruct (Board.includes (trim text) (Board.subjects (Board.app p))) eqn:Hin;
    [now split|].
  cbn [Board.notify Board.app Board.subjects]. split.
  - now apply sort_sorted.
  - apply (Stdlib.Sorting.Permutation.Permutation_NoDup
             (l := trim text :: Board.subjects (Board.app p))).
    + rewrite sort_Permutation. apply Permutation_cons_append.
    + constructor; [|exact Hn].
      intros Hc. apply includes_In in Hc. congruence.
Qed.

Lemma deleteSubject_ordered (subject_ : string) (confirmed : bool) (p : Board.Page) :
  subjectsOrdered (Board.subjects (Board.app p)) ->
  subjectsOrdered (Board.subjects (Board.app (Board.deleteSubject subject_ confirmed p))).
Proof.
  intros [Hs Hn]. unfold Board.deleteSubject.
  destruct confirmed; cbn [negb]; [|now split].
  cbn [Board.notify Board.app Board.subjects]. split.
  - now apply filter_sorted.
  - now apply List.NoDup_filter.
Qed.

Lemma perform_subjects (a : Board.Action) (p : Board.Page) :
  subjectsOrdered (Board.subjects (Board.app p)) ->
  subjectsOrdered (Board.subjects (Board.app (Board.perform localeCompare a p))).
Proof.
  intros H. destruct a as [form now nowISO | id_ | id_ | input | subject_ confirmed];
    cbn [Board.perform].
  - unfold Board.onSubmit.
    destruct (_ || _); cbn [Board.notify Board.app Board.subjects]; exact H.
  - unfold Board.completeTask.
    destruct (Board.markCompleted _ _); cbn [Board.notify Board.app Board.subjects]; exact H.
  - unfold Board.deleteTask.
    destruct (_ <? _)%nat; cbn [Board.notify Board.app Board.subjects]; exact H.
  - now apply onAddSubject_ordered.
  - now apply deleteSubject_ordered.
Qed.

(** C5: from a subject list that is sorted (in the order of
    [localeCompare], the comparator the script sorts with) and free of
    duplicates, every run of board actions, in particular of adding and
    deleting subjects, leaves the subject list sorted and free of
    duplicates; a name that is already in the list (exact match of the
    trimmed text) is rejected and the list stays as it is. *)
Theorem subjects_sorted_distinct (actions : list Board.Action) (p : Board.Page) :
  subjectsOrdered (Board.subjects (Board.app p)) ->
  subjectsOrdered (Board.subjects (Board.app (Board.performAll localeCompare actions p)))
  /\ (forall text : string,
         In (trim text) (Board.subjects (Board.app p)) ->
         Board.subjects (Board.app (Board.onAddSubject localeCompare (Some text) p))
         = Board.subjects (Board.app p)).
Proof.
  intros H. split.
  - revert p H. induction actions as [|a actions IH]; intros p H; [exact H|].
    cbn [Board.performAll fold_left]. apply IH. now apply perform_subjects.
  - intros text Hin. unfold Board.onAddSubject.
    destruct (nonempty text); cbn [negb]; [|reflexivity].
    destruct (nonempty (trim text)); cbn [negb]; [|reflexivity].
    apply includes_In in Hin. now rewrite Hin.
Qed.

End Subjects.

Lemma subjects_sorted_distinct_witness :
  let p := {| Board.app := {| Board.tasks := []; Board.subjects := ["Art"; "Math"];
                              Board.subjectColors := [] |};
              Board.localStorage := ∅; Board.notifications := [] |} in
  let actions := [Board.AddSubject (Some " PE "); Board.AddSubject (Some "Math");
                  Board.DeleteSubject "Art" true] in
  Board.subjects (Board.app (Board.performAll Board.compareLength actions p)) = ["PE"; "Math"]
  /\ Board.subjectsOrdered Board.compareLength
       (Board.subjects (Board.app (Board.performAll Board.compareLength actions p))).
Proof.
  intros p actions. split; [reflexivity|].
  refine (proj1 (subjects_sorted_distinct Board.compareLength _ _ actions p _)).
  - intros a b. unfold Board.compareLength. lia.
  - intros a b c. unfold Board.compareLength. lia.
  - split.
    + repeat constructor; unfold Board.compareLength; cbn; lia.
    + repeat constructor; cbn; intuition discriminate.
Defined.

(** ** Task ids *)

Lemma toString_inj (a b : Z) : toString a = toString b -> a = b.
Proof.
  intros H.
  pose proof (parseNumber_toString a EmptyString eq_refl) as Ha.
  pose proof (parseNumber_toString b EmptyString eq_refl) as Hb.
  rewrite H in Ha. congruence.
Qed.


Lemma markCompleted_ids (id_ : string) (tasks tasks' : list Board.Task) :
  Board.markCompleted id_ tasks = Some tasks' -> map Board.id tasks' = map Board.id tasks.
Proof.
  revert tasks'. induction tasks as [|t tasks IH]; intros tasks'; [discriminate|].
  cbn [Board.markCompleted]. destruct (String.eqb (Board.id t) id_).
  - intros [= <-]. reflexivity.
  - destruct (Board.markCompleted id_ tasks) as [l|]; [|discriminate].
    intros [= <-]. cbn [map]. now rewrite (IH l).
Qed.

Lemma map_filter_NoDup {A B} (f : A -> B) (keep : A -> bool) (l : list A) :
  List.NoDup (map f l) -> List.NoDup (map f (List.filter keep l)).
Proof.
  induction l as [|x l IH]; cbn [map List.filter]; [trivial|].
  intros H. apply List.NoDup_cons_iff in H as [Hx H].
  destruct (keep x); [|now apply IH].
  cbn [map]. constructor; [|now apply IH].
  intros Hin. apply Hx. apply List.in_map_iff in Hin as (y & <- & Hy).
  apply List.filter_In in Hy as [Hy _]. now apply List.in_map.
Qed.

Lemma map_filter_incl {A B} (f : A -> B) (keep : A -> bool) (l : list A) (b : B) :
  In b (map f (List.filter keep l)) -> In b (map f l).
Proof.
  intros Hin. apply List.in_map_iff in Hin as (y & <- & Hy).
  apply List.filter_In in Hy as [Hy _]. now apply List.in_map.
Qed.

(** What an action does to the ids: a submission may append the reading
    of the clock, every other action keeps or removes ids. *)
Lemma perform_ids (localeCompare : string -> string -> Z) (a : Board.Action)
      (p : Board.Page) :
  List.NoDup (Board.ids p) ->
  (forall now, In now (Board.clockReading a) -> ~ In (toString now) (Board.ids p)) ->
  List.NoDup (Board.ids (Board.perform localeCompare a p))
  /\ (forall i, In i (Board.ids (Board.perform localeCompare a p)) ->
                In i (Board.ids p) \/ exists now, In now (Board.clockReading a) /\ i = toString now).
Proof.
  intros Hn Hfresh. unfold Board.ids in *.
  destruct a as [form now nowISO | id_ | id_ | input | subject_ confirmed];
    cbn [Board.perform].
  - unfold Board.onSubmit.
    destruct (_ || _); cbn [Board.notify Board.app Board.tasks]; [now auto|].
    rewrite map_app. cbn [map Board.id]. split.
    + apply (Stdlib.Sorting.Permutation.Permutation_NoDup
               (l := toString now :: map Board.id (Board.tasks (Board.app p)))).
      * apply Permutation_cons_append.
      * constructor; [|exact Hn]. apply Hfresh. cbn. now left.
    + intros i Hi. apply List.in_app_iff in Hi as [Hi | [<- | []]]; [now left|].
      right. exists now. split; [cbn; now left | reflexivity].
  - unfold Board.completeTask.
    destruct (Board.markCompleted id_ _) as [tasks'|] eqn:E;
      cbn [Board.notify Board.app Board.tasks]; [|now auto].
    rewrite (markCompleted_ids _ _ _ E). now auto.
  - unfold Board.deleteTask.
    destruct (_ <? _)%nat; cbn [Board.notify Board.app Board.tasks];
      (split; [now apply map_filter_NoDup | intros i Hi; left; eapply map_filter_incl, Hi]).
  - unfold Board.onAddSubject.
    destruct input as [text|]; [|now auto].
    destruct (nonempty text); cbn [negb]; [|now auto].
    destruct (nonempty (trim text)); cbn [negb]; [|now auto].
    destruct (Board.includes _ _); cbn [Board.notify Board.app Board.tasks]; now auto.
  - unfold Board.deleteSubject.
    destruct confirmed; cbn [negb]; [|now auto].
    cbn [Board.notify Board.app Board.tasks].
    split; [now apply map_filter_NoDup | intros i Hi; left; eapply map_filter_incl, Hi].
Qed.

(** C2 (as amended): the id of a task is the decimal text of the clock
    reading at its creation.  When the stored ids are pairwise distinct,
    the clock readings of the submissions of a run are pairwise distinct,
    and none of them is the id of a stored task, then after the run (of
    submissions, completions and deletions, in any order) the stored ids
    are pairwise distinct. *)
Theorem task_ids_distinct (localeCompare : string -> string -> Z)
        (actions : list Board.Action) (p : Board.Page) :
  List.NoDup (Board.ids p) ->
  List.NoDup (Board.clockReadings actions) ->
  (forall now, In now (Board.clockReadings actions) -> ~ In (toString now) (Board.ids p)) ->
  List.NoDup (Board.ids (Board.performAll localeCompare actions p)).
Proof.
  revert p. induction actions as [|a actions IH]; intros p Hn Hclock Hfresh; [exact Hn|].
  cbn [Board.performAll fold_left].
  change (Board.clockReadings (a :: actions))
    with (Board.clockReading a ++ Board.clockReadings actions) in *.
  destruct (perform_ids localeCompare a p Hn) as [Hn' Hids].
  { intros now Hin. apply Hfresh. apply List.in_app_iff. now left. }
  apply IH.
  - exact Hn'.
  - apply List.NoDup_app_remove_l in Hclock. exact Hclock.
  - intros now Hin Hi. apply Hids in Hi as [Hi | (now' & Hnow' & E)].
    + apply (Hfresh now); [apply List.in_app_iff; now right | exact Hi].
    + apply toString_inj in E. subst now'.
      destruct a; cbn [Board.clockReading] in Hnow', Hclock; try contradiction.
      destruct Hnow' as [<- | []]. cbn [app] in Hclock.
      apply List.NoDup_cons_iff in Hclock as [Hc _]. exact (Hc Hin).
Qed.

(** C2 (as stated) fails: two submissions at the same reading of the
    clock store two tasks with the same id. *)
Lemma task_ids_counterexample :
  let form := {| Board.taskName := "Essay"; Board.taskSubjectSelect := "English";
                 Board.taskDueDate := "2024-01-01"; Board.taskPriority := Some "high" |} in
  let p := {| Board.app := {| Board.tasks := []; Board.subjects := ["English"];
                              Board.subjectColors := [] |};
              Board.localStorage := ∅; Board.notifications := [] |} in
  let actions := [Board.Submit form 1704153600000 "2024-01-02T00:00:00.000Z";
                  Board.Submit form 1704153600000 "2024-01-02T00:00:00.000Z"] in
  Board.ids (Board.performAll Board.compareLength actions p) = ["1704153600000"; "1704153600000"]
  /\ ~ List.NoDup (Board.ids (Board.performAll Board.compareLength actions p)).
Proof.
  cbn zeta. split; [reflexivity|].
  intros H. apply List.NoDup_cons_iff in H as [H _]. apply H. now left.
Qed.

Lemma task_ids_distinct_witness :
  let form := {| Board.taskName := "Essay"; Board.taskSubjectSelect := "English";
                 Board.taskDueDate := "2024-01-01"; Board.taskPriority := Some "high" |} in
  let p := {| Board.app := {| Board.tasks := []; Board.subjects := ["English"];
                              Board.subjectColors := [] |};
              Board.localStorage := ∅; Board.notifications := [] |} in
  let actions := [Board.Submit form 1704153600000 "2024-01-02T00:00:00.000Z";
                  Board.Submit form 1704153600001 "2024-01-02T00:00:00.001Z"] in
  Board.ids (Board.performAll Board.compareLength actions p) = ["1704153600000"; "1704153600001"]
  /\ List.NoDup (Board.ids (Board.performAll Board.compareLength actions p)).
Proof.
  intros form p actions. split; [reflexivity|].
  apply (task_ids_distinct Board.compareLength actions p).
  - constructor.
  - repeat constructor; cbn; intuition discriminate.
  - intros now _ [].
Defined.

(** ** Priority order *)

Section KeySort.
Context {A : Type} (key : A -> Z).

Let byKey (a b : A) : Z := key a - key b.

(** Sorting by a key keeps the elements of each key in their order. *)
Lemma sortInsert_stable (r : Z) (x : A) (l : list A) :
  List.filter (fun a => key a =? r) (sortInsert byKey x l)
  = List.filter (fun a => key a =? r) (x :: l).
Proof.
  induction l as [|y l IH]; cbn [sortInsert]; [reflexivity|].
  destruct (byKey x y <=? 0) eqn:E; [reflexivity|].
  apply Z.leb_gt in E. unfold byKey in E.
  cbn [List.filter] in *. rewrite IH.
  destruct (key y =? r) eqn:Ey, (key x =? r) eqn:Ex; try reflexivity.
  apply Z.eqb_eq in Ey, Ex. lia.
Qed.

Lemma sort_stable (r : Z) (l : list A) :
  List.filter (fun a => key a =? r) (sort byKey l)
  = List.filter (fun a => key a =? r) l.
Proof.
  induction l as [|x l IH]; cbn [sort]; [reflexivity|].
  rewrite sortInsert_stable. cbn [List.filter]. now rewrite IH.
Qed.

Lemma sort_by_key_sorted (l : list A) :
  StronglySorted (fun a b => key a <= key b) (sort byKey l).
Proof.
  assert (H : StronglySorted (fun a b => byKey a b <= 0) (sort byKey l)).
  { apply sort_sorted; unfold byKey; intros; lia. }
  induction H as [|x l' _ IH Hx]; constructor; [exact IH|].
  eapply List.Forall_impl; [|exact Hx]. unfold byKey. intros; lia.
Qed.

End KeySort.

(** The result of a sort depends on the comparator only through the
    elements of the list. *)
Lemma sort_ext {A} (c1 c2 : A -> A -> Z) (l : list A) :
  (forall a b, In a l -> In b l -> c1 a b = c2 a b) ->
  sort c1 l = sort c2 l.
Proof.
  induction l as [|x l IH]; intros H; cbn [sort]; [reflexivity|].
  rewrite IH by (intros; apply H; now right).
  assert (Hins : forall s, (forall b, In b s -> In b l) ->
                   sortInsert c1 x s = sortInsert c2 x s).
  { induction s as [|y s IHs]; intros Hs; cbn [sortInsert]; [reflexivity|].
    rewrite (H x y) by (cbn; auto using in_eq, in_cons).
    rewrite IHs by (intros; apply Hs; now right). reflexivity. }
  apply Hins. intros b Hb.
  eapply Permutation_in; [apply sort_Permutation | exact Hb].
Qed.

Lemma comparePriority_rank (a b : Board.Task) :
  Calendar.knownPriority a = true -> Calendar.knownPriority b = true ->
  Calendar.comparePriority a b = Calendar.rankOf a - Calendar.rankOf b.
Proof.
  unfold Calendar.knownPriority, Calendar.comparePriority, Calendar.rankOf, Calendar.rank.
  destruct (Calendar.pri _), (Calendar.pri _); intros; try discriminate; reflexivity.
Qed.

Lemma sort_comparePriority (l : list Board.Task) :
  forallb Calendar.knownPriority l = true ->
  sort Calendar.comparePriority l
  = sort (fun a b => Calendar.rankOf a - Calendar.rankOf b) l.
Proof.
  intros H. rewrite List.forallb_forall in H.
  apply sort_ext. intros a b Ha Hb. apply comparePriority_rank; auto.
Qed.

Lemma sort_priorityOrdered (l : list Board.Task) :
  forallb Calendar.knownPriority l = true ->
  Calendar.priorityOrdered l (sort Calendar.comparePriority l).
Proof.
  intros H. rewrite sort_comparePriority by exact H.
  split; [apply sort_Permutation|].
  split; [apply (sort_by_key_sorted Calendar.rankOf) | intros r; apply (sort_stable Calendar.rankOf)].
Qed.

(** Sorting a sorted list again changes nothing. *)
Lemma sortInsert_head {A} (c : A -> A -> Z) (x : A) (l : list A) :
  List.Forall (fun y => c x y <= 0) l -> sortInsert c x l = x :: l.
Proof.
  destruct l as [|y l]; [reflexivity|].
  intros H. apply List.Forall_inv in H. cbn [sortInsert].
  now rewrite (proj2 (Z.leb_le _ _) H).
Qed.

Lemma sort_of_sorted {A} (c : A -> A -> Z) (l : list A) :
  StronglySorted (fun a b => c a b <= 0) l -> sort c l = l.
Proof.
  induction 1 as [|x l _ IH Hx]; cbn [sort]; [reflexivity|].
  rewrite IH. now apply sortInsert_head.
Qed.

(** ** The buckets of the calendar *)

Lemma groupTasksByDate_lookup (tasks : list Board.Task) (key : string) :
  nonempty key = true ->
  default [] (Calendar.groupTasksByDate tasks !! key)
  = List.filter (Calendar.dueOn key) tasks.
Proof.
  intros Hkey. unfold Calendar.groupTasksByDate.
  enough (H : forall (m : gmap string (list Board.Task)),
             default [] (fold_left
                (fun (m : gmap string (list Board.Task)) t =>
                   match Board.dueDate t with
                   | Some key =>
                       if nonempty key then <[key := default [] (m !! key) ++ [t]]> m else m
                   | None => m
                   end) tasks m !! key)
             = default [] (m !! key) ++ List.filter (Calendar.dueOn key) tasks).
  { rewrite H. now rewrite lookup_empty. }
  induction tasks as [|t tasks IH]; intros m; cbn [fold_left List.filter].
  - now rewrite app_nil_r.
  - rewrite IH. unfold Calendar.dueOn at 2.
    destruct (Board.dueDate t) as [k|]; [|reflexivity].
    destruct (String.eqb_spec k key) as [->|Hne].
    + rewrite Hkey, lookup_insert_eq. cbn [default from_option id]. now rewrite <- app_assoc.
    + destruct (nonempty k); [|reflexivity].
      now rewrite lookup_insert_ne.
Qed.

Lemma nonempty_append_cons (a : string) (c : ascii) (b : string) :
  nonempty (a +:+ String c b) = true.
Proof. destruct a; reflexivity. Qed.

Lemma formatLocalISO_nonempty (date : Date) :
  nonempty (Calendar.formatLocalISO date) = true.
Proof. unfold Calendar.formatLocalISO, Board.formatLocalISO. apply nonempty_append_cons. Qed.

Lemma forallb_filter {A} (f keep : A -> bool) (l : list A) :
  forallb f l = true -> forallb f (List.filter keep l) = true.
Proof.
  rewrite !List.forallb_forall. intros H x Hx.
  apply List.filter_In in Hx as [Hx _]. now apply H.
Qed.

Lemma map_chipTask (colors : list (string * string)) (items : list Board.Task) :
  map Calendar.chipTask (map (Calendar.chipOf colors) items) = items.
Proof. induction items as [|t items IH]; cbn; [reflexivity | now rewrite IH]. Qed.

Lemma map_rowTask (colors : list (string * string)) (items : list Board.Task) :
  map Calendar.rowTask (Calendar.openDayModal items colors)
  = sort Calendar.comparePriority items.
Proof.
  unfold Calendar.openDayModal.
  induction (sort Calendar.comparePriority items) as [|t l IH]; cbn;
    [reflexivity | now rewrite IH].
Qed.

Lemma sort_comparePriority_twice (l : list Board.Task) :
  forallb Calendar.knownPriority l = true ->
  sort Calendar.comparePriority (sort Calendar.comparePriority l)
  = sort Calendar.comparePriority l.
Proof.
  intros H.
  assert (H' : forallb Calendar.knownPriority (sort Calendar.comparePriority l) = true).
  { rewrite List.forallb_forall in *. intros x Hx. apply H.
    eapply Permutation_in; [apply sort_Permutation | exact Hx]. }
  rewrite (sort_comparePriority _ H'). rewrite (sort_comparePriority _ H).
  apply sort_of_sorted. apply sort_sorted; intros; lia.
Qed.

(** The day cells of a rendered month. *)
Lemma refresh_dayCell (now year monthIndex : Z) (stored : list Board.Task)
      (colors : list (string * string)) (d : Z) (iso : string) (today : bool)
      (chips : list Calendar.Chip) (click : list Board.Task) :
  In (Calendar.DayCell d iso today chips click)
     (Calendar.refresh now year monthIndex stored colors) ->
  In d (Calendar.daysOf (Calendar.getDaysInMonth year monthIndex))
  /\ iso = Calendar.formatLocalISO (newDate (Some year) monthIndex d)
  /\ click = sort Calendar.comparePriority
               (List.filter (Calendar.dueOn iso) (Calendar.activeTasks stored))
  /\ chips = map (Calendar.chipOf colors) click.
Proof.
  unfold Calendar.refresh, Calendar.renderMonth. intros H.
  apply List.in_app_iff in H as [H|H].
  { apply List.in_map_iff in H as (x & Hx & _). discriminate Hx. }
  apply List.in_app_iff in H as [H|H].
  { apply List.repeat_spec in H. discriminate H. }
  apply List.in_map_iff in H as (day_ & Hcell & Hday).
  unfold Calendar.dayCell in Hcell. injection Hcell as -> <- _ <- <-.
  rewrite groupTasksByDate_lookup by apply formatLocalISO_nonempty.
  auto.
Qed.

(** C4 (as amended): in the calendar, when every stored task has one of
    the priorities high, medium, low or none, the chips of a day cell and
    the rows of its day modal are the active tasks due that day in
    priority order (high, medium with the tasks of no priority, low),
    tasks of equal rank in stored order.  On the board a subject card
    lists its active tasks in stored order, whatever their priorities. *)
Theorem priority_order (now year monthIndex : Z) (stored : list Board.Task)
        (colors : list (string * string)) (subjects : list string) :
  forallb Calendar.knownPriority stored = true ->
  (forall d iso today chips click,
      In (Calendar.DayCell d iso today chips click)
         (Calendar.refresh now year monthIndex stored colors) ->
      Calendar.priorityOrdered (List.filter (Calendar.dueOn iso) (Calendar.activeTasks stored))
                      (map Calendar.chipTask chips)
      /\ map Calendar.rowTask (Calendar.openDayModal click colors)
         = map Calendar.chipTask chips)
  /\ (forall card,
         In card (Board.renderSubjects now subjects stored colors) ->
         Board.cardTasks card
         = map (Board.taskHtml now)
               (List.filter (fun t => String.eqb (Board.subject t) (Board.cardSubject card)
                                      && negb (Board.completed t)) stored)).
Proof.
  intros Hknown. split.
  - intros d iso today chips click Hin.
    apply refresh_dayCell in Hin as (_ & _ & -> & ->).
    rewrite map_chipTask, map_rowTask.
    assert (Hk : forallb Calendar.knownPriority
                   (List.filter (Calendar.dueOn iso) (Calendar.activeTasks stored)) = true)
      by (unfold Calendar.activeTasks; now do 2 apply forallb_filter).
    split; [now apply sort_priorityOrdered | now apply sort_comparePriority_twice].
  - intros card Hin. unfold Board.renderSubjects in Hin.
    apply List.in_map_iff in Hin as (s & <- & _). reflexivity.
Qed.

(** C4 (as stated) fails on the board: a low-priority task stored before a
    high-priority task of the same subject and day is listed first. *)
Lemma priority_order_counterexample :
  let low := {| Board.id := "1"; Board.name := "Notes"; Board.subject := "Math";
                Board.dueDate := Some "2024-01-05"; Board.priority := Some "low";
                Board.completed := false; Board.createdAt := "" |} in
  let high := {| Board.id := "2"; Board.name := "Exam"; Board.subject := "Math";
                 Board.dueDate := Some "2024-01-05"; Board.priority := Some "high";
                 Board.completed := false; Board.createdAt := "" |} in
  map (fun item => (Board.itemName item, Board.priorityClass item))
      (flat_map Board.cardTasks
                (Board.renderSubjects 1704153600000 ["Math"] [low; high] []))
  = [("Notes", "low"); ("Exam", "high")].
Proof. vm_compute. reflexivity. Qed.

Lemma priority_order_witness :
  let low := {| Board.id := "1"; Board.name := "Notes"; Board.subject := "Math";
                Board.dueDate := Some "2024-01-05"; Board.priority := Some "low";
                Board.completed := false; Board.createdAt := "" |} in
  let high := {| Board.id := "2"; Board.name := "Exam"; Board.subject := "Math";
                 Board.dueDate := Some "2024-01-05"; Board.priority := Some "high";
                 Board.completed := false; Board.createdAt := "" |} in
  let none := {| Board.id := "3"; Board.name := "Quiz"; Board.subject := "Art";
                 Board.dueDate := Some "2024-01-05"; Board.priority := None;
                 Board.completed := false; Board.createdAt := "" |} in
  forallb Calendar.knownPriority [low; high; none] = true
  /\ Calendar.priorityOrdered [low; high; none] [high; none; low]
  /\ map Calendar.rowTask (Calendar.openDayModal [high; none; low] []) = [high; none; low].
Proof.
  intros low high none. split; [reflexivity|].
  refine (proj1 (priority_order 1704153600000 2024 0 [low; high; none] [] []
                   eq_refl)
            5 "2024-01-05" false
            (map (Calendar.chipOf []) [high; none; low]) [high; none; low] _).
  vm_compute. do 12 right. left. reflexivity.
Defined.

(** ** The calendar of the runtime *)

Lemma dayFromYear_succ (y : Z) : dayFromYear (y + 1) = dayFromYear y + daysInYear y.
Proof.
  unfold dayFromYear, daysInYear, inLeapYear.
  destruct (y mod 4 =? 0) eqn:E4; destruct (y mod 100 =? 0) eqn:E100;
    destruct (y mod 400 =? 0) eqn:E400; cbn [andb orb negb];
    rewrite ?Z.eqb_eq, ?Z.eqb_neq in *;
    Z.div_mod_to_equations; lia.
Qed.

Lemma dayFromYear_mono (a b : Z) : a <= b -> dayFromYear a <= dayFromYear b.
Proof. unfold dayFromYear. intros. Z.div_mod_to_equations. lia. Qed.

Lemma yearFromDay_spec (n : Z) :
  dayFromYear (yearFromDay n) <= n < dayFromYear (yearFromDay n + 1).
Proof.
  unfold yearFromDay.
  set (c := 1970 + 400 * n / 146097).
  destruct (dayFromYear (c + 1) <=? n) eqn:E1; [|destruct (dayFromYear c <=? n) eqn:E2];
    rewrite ?Z.leb_le, ?Z.leb_gt in *.
  - split; [exact E1|]. subst c. unfold dayFromYear in *. Z.div_mod_to_equations. lia.
  - split; [exact E2|exact E1].
  - replace (c - 1 + 1) with c by lia. split; [|exact E2].
    subst c. unfold dayFromYear in *. Z.div_mod_to_equations. lia.
Qed.

Lemma yearFromDay_unique (n y : Z) :
  dayFromYear y <= n < dayFromYear (y + 1) -> yearFromDay n = y.
Proof.
  intros H. pose proof (yearFromDay_spec n) as Hs.
  destruct (Z.lt_trichotomy (yearFromDay n) y) as [Hlt | [Heq | Hgt]]; [|exact Heq|].
  - pose proof (dayFromYear_mono (yearFromDay n + 1) y ltac:(lia)). lia.
  - pose proof (dayFromYear_mono (y + 1) (yearFromDay n) ltac:(lia)). lia.
Qed.

Lemma dayWithinYear_range (n : Z) :
  0 <= dayWithinYear n < daysInYear (yearFromDay n).
Proof.
  unfold dayWithinYear. pose proof (yearFromDay_spec n) as H.
  rewrite dayFromYear_succ in H. lia.
Qed.

Lemma monthFromDay_range (n : Z) : 0 <= monthFromDay n <= 11.
Proof. unfold monthFromDay. cbv zeta. split_tests; lia. Qed.

Lemma month_index_cases (m : Z) :
  0 <= m <= 11 ->
  m = 0 \/ m = 1 \/ m = 2 \/ m = 3 \/ m = 4 \/ m = 5 \/ m = 6 \/ m = 7
  \/ m = 8 \/ m = 9 \/ m = 10 \/ m = 11.
Proof. lia. Qed.

Lemma dateFromDay_range (n : Z) :
  1 <= dateFromDay n <= daysIn (yearFromDay n) (monthFromDay n).
Proof.
  pose proof (dayWithinYear_range n) as H.
  unfold dateFromDay, daysIn, monthFromDay, daysInYear in *. cbv zeta.
  destruct (inLeapYear (yearFromDay n)); month_table; split_tests; month_table; lia.
Qed.

Lemma daysIn_range (year monthIndex : Z) :
  0 <= monthIndex <= 11 -> 28 <= daysIn year monthIndex <= 31.
Proof.
  intros H. apply month_index_cases in H. unfold daysIn.
  destruct (inLeapYear year); month_cases H.
Qed.

(** The day number of a date determines the date, and back. *)
Lemma makeDay_fields (year monthIndex date : Z) :
  0 <= monthIndex <= 11 -> 1 <= date <= daysIn year monthIndex ->
  yearFromDay (makeDay year monthIndex date) = year
  /\ monthFromDay (makeDay year monthIndex date) = monthIndex
  /\ dateFromDay (makeDay year monthIndex date) = date.
Proof.
  intros Hm Hd.
  assert (Hmk : makeDay year monthIndex date
                = dayFromYear year + monthStart (inLeapYear year) monthIndex + date - 1).
  { unfold makeDay. rewrite Z.div_small, Z.mod_small by lia.
    now rewrite Z.add_0_r. }
  pose proof (month_index_cases _ Hm) as Hm12.
  assert (Hy : yearFromDay (makeDay year monthIndex date) = year).
  { apply yearFromDay_unique. rewrite Hmk, dayFromYear_succ.
    unfold daysIn, daysInYear in *.
    destruct (inLeapYear year); month_cases Hm12. }
  split; [exact Hy|].
  unfold dateFromDay, monthFromDay, dayWithinYear. cbv zeta. rewrite Hy, Hmk.
  unfold daysIn in Hd.
  destruct (inLeapYear year); month_cases Hm12.
Qed.

Lemma fields_makeDay (n : Z) :
  makeDay (yearFromDay n) (monthFromDay n) (dateFromDay n) = n.
Proof.
  pose proof (monthFromDay_range n) as Hm.
  unfold makeDay. rewrite Z.div_small, Z.mod_small, Z.add_0_r by lia.
  unfold dateFromDay, dayWithinYear. lia.
Qed.

(** ** Dates as the scripts format them *)

Lemma day_midnight (n : Z) : day (n * msPerDay) = n.
Proof. unfold day, msPerDay. now rewrite Z.div_mul. Qed.

Lemma timeWithinDay_midnight (n : Z) : timeWithinDay (n * msPerDay) = 0.
Proof. unfold timeWithinDay, msPerDay. now rewrite Z.mod_mul. Qed.

Lemma timeClip_valid (t : Z) : Z.abs t <= 8640000000000000 -> timeClip t = Some t.
Proof. intros H. unfold timeClip. now rewrite (proj2 (Z.leb_le _ _) H). Qed.

Lemma timeClip_Some (t u : Z) : timeClip t = Some u -> u = t.
Proof. unfold timeClip. destruct (_ <=? _); congruence. Qed.

Lemma makeDay_bound (year monthIndex date : Z) :
  -200000 <= year <= 200000 -> 0 <= monthIndex <= 12 -> 0 <= date <= 32 ->
  Z.abs (makeDay year monthIndex date * msPerDay) <= 8640000000000000.
Proof.
  intros Hy Hm Hd.
  assert (H : -80000000 <= makeDay year monthIndex date <= 80000000).
  { unfold makeDay.
    assert (Hq : monthIndex / 12 = 0 \/ monthIndex / 12 = 1)
      by (Z.div_mod_to_equations; lia).
    assert (Hs : 0 <= monthStart (inLeapYear (year + monthIndex / 12)) (monthIndex mod 12) <= 366).
    { pose proof (Z.mod_pos_bound monthIndex 12 ltac:(lia)) as Hr.
      generalize dependent (monthIndex mod 12). intros mn Hr.
      assert (Hmn : 0 <= mn <= 11) by lia. apply month_index_cases in Hmn.
      destruct (inLeapYear _); month_cases Hmn. }
    generalize dependent (monthStart (inLeapYear (year + monthIndex / 12)) (monthIndex mod 12)).
    intros start Hs.
    unfold dayFromYear. destruct Hq as [-> | ->]; Z.div_mod_to_equations; lia. }
  unfold msPerDay. lia.
Qed.

(** The date of a day of a month, for a year that is not abbreviated. *)
Lemma newDate_fields (year monthIndex date : Z) :
  100 <= year <= 200000 -> 0 <= monthIndex <= 11 -> 1 <= date <= daysIn year monthIndex ->
  newDate (Some year) monthIndex date = Some (makeDay year monthIndex date * msPerDay)
  /\ getFullYear (newDate (Some year) monthIndex date) = Some year
  /\ getMonth (newDate (Some year) monthIndex date) = Some monthIndex
  /\ getDate (newDate (Some year) monthIndex date) = Some date.
Proof.
  intros Hy Hm Hd.
  pose proof (daysIn_range year monthIndex Hm) as Hr.
  assert (Hnew : newDate (Some year) monthIndex date
                 = Some (makeDay year monthIndex date * msPerDay)).
  { unfold newDate.
    replace ((0 <=? year) && (year <=? 99)) with false
      by (symmetry; apply andb_false_iff; right; apply Z.leb_gt; lia).
    apply timeClip_valid, makeDay_bound; lia. }
  rewrite Hnew. unfold getFullYear, getMonth, getDate. cbn [option_map].
  rewrite day_midnight.
  destruct (makeDay_fields year monthIndex date Hm Hd) as (-> & -> & ->). auto.
Qed.

(** [getDaysInMonth] is the length of the month. *)
Lemma getDaysInMonth_daysIn (year monthIndex : Z) :
  100 <= year <= 200000 -> 0 <= monthIndex <= 11 ->
  Calendar.getDaysInMonth year monthIndex = Some (daysIn year monthIndex).
Proof.
  intros Hy Hm.
  pose proof (daysIn_range year monthIndex Hm) as Hr.
  assert (Hlast : makeDay year (monthIndex + 1) 0
                  = makeDay year monthIndex (daysIn year monthIndex)).
  { unfold makeDay, daysIn.
    destruct (Z.eq_dec monthIndex 11) as [-> | Hne].
    - change ((11 + 1) / 12) with 1. change ((11 + 1) mod 12) with 0.
      change (11 / 12) with 0. change (11 mod 12) with 11.
      rewrite !Z.add_0_r, dayFromYear_succ. unfold daysInYear.
      destruct (inLeapYear year), (inLeapYear (year + 1)); month_table; lia.
    - rewrite !Z.div_small, !Z.mod_small, !Z.add_0_r by lia. lia. }
  unfold Calendar.getDaysInMonth.
  destruct (newDate_fields year monthIndex (daysIn year monthIndex) Hy Hm ltac:(lia))
    as (Hnew & _ & _ & Hdate).
  unfold newDate in *.
  replace ((0 <=? year) && (year <=? 99)) with false in *
    by (symmetry; apply andb_false_iff; right; apply Z.leb_gt; lia).
  rewrite Hlast. exact Hdate.
Qed.

Lemma append_inv_head (a x y : string) : a +:+ x = a +:+ y -> x = y.
Proof.
  induction a as [|c a IH]; [trivial|].
  rewrite !append_cons. intros [= H]. auto.
Qed.

(** Two digits of a day or month number read back as the number. *)
Lemma padStart2_decode (d : Z) :
  0 <= d <= 99 -> fst (parseDigits 0 (padStart2 (toString d))) = d.
Proof.
  intros H.
  assert (Hall : forallb (fun k => fst (parseDigits 0 (padStart2 (toString (Z.of_nat k))))
                                   =? Z.of_nat k) (seq 0 100) = true)
    by (vm_compute; reflexivity).
  rewrite List.forallb_forall in Hall.
  specialize (Hall (Z.to_nat d)). rewrite Z2Nat.id in Hall by lia.
  apply Z.eqb_eq, Hall, List.in_seq. lia.
Qed.

Lemma padStart4_year (year : Z) :
  1000 <= year <= 9999 -> padStart4 (toString year) = toString year.
Proof.
  intros H.
  assert (Hall : forallb (fun k => String.eqb (padStart4 (toString (Z.of_nat k)))
                                              (toString (Z.of_nat k)))
                         (seq (Z.to_nat 1000) (Z.to_nat 9000)) = true)
    by (vm_compute; reflexivity).
  rewrite List.forallb_forall in Hall.
  specialize (Hall (Z.to_nat year)). rewrite Z2Nat.id in Hall by lia.
  apply String.eqb_eq, Hall, List.in_seq. lia.
Qed.

Lemma isoDate_inj (year month d d' : Z) :
  0 <= d <= 99 -> 0 <= d' <= 99 ->
  Contract.isoDate year month d = Contract.isoDate year month d' -> d = d'.
Proof.
  intros Hd Hd' H. unfold Contract.isoDate in H.
  apply append_inv_head in H.
  change ("-" +:+ ?x) with (String "-" x) in H. injection H as H.
  apply append_inv_head in H.
  change ("-" +:+ ?x) with (String "-" x) in H. injection H as H.
  rewrite <- (padStart2_decode d Hd), <- (padStart2_decode d' Hd'). now rewrite H.
Qed.

(** The key of a day cell is the date of the day in the format of the
    data model, for a year of four digits. *)
Lemma formatLocalISO_isoDate (year monthIndex date : Z) :
  1000 <= year <= 9999 -> 0 <= monthIndex <= 11 -> 1 <= date <= daysIn year monthIndex ->
  Calendar.formatLocalISO (newDate (Some year) monthIndex date)
  = Contract.isoDate year (monthIndex + 1) date.
Proof.
  intros Hy Hm Hd.
  destruct (newDate_fields year monthIndex date ltac:(lia) Hm Hd) as (_ & Hyear & Hmonth & Hdate).
  unfold Calendar.formatLocalISO, Board.formatLocalISO, Contract.isoDate.
  rewrite Hyear, Hmonth, Hdate. cbn [option_map numString].
  now rewrite padStart4_year.
Qed.

(** ** Calendar bucketing *)

Lemma daysOf_In (n d : Z) :
  In d (Calendar.daysOf (Some n)) <-> 1 <= d <= n.
Proof.
  unfold Calendar.daysOf. rewrite List.in_map_iff. split.
  - intros (k & <- & Hk). apply List.in_seq in Hk. lia.
  - intros H. exists (Z.to_nat d). split; [lia|]. apply List.in_seq. lia.
Qed.

Lemma dayNumbers_refresh (now year monthIndex : Z) (stored : list Board.Task)
      (colors : list (string * string)) :
  Calendar.dayNumbers (Calendar.refresh now year monthIndex stored colors)
  = Calendar.daysOf (Calendar.getDaysInMonth year monthIndex).
Proof.
  unfold Calendar.refresh, Calendar.renderMonth, Calendar.dayNumbers.
  rewrite !List.flat_map_app.
  assert (Hw : forall l, flat_map (fun cell => match cell with
                                               | Calendar.DayCell d _ _ _ _ => [d]
                                               | _ => []
                                               end) (map Calendar.Weekday l) = [])
    by (induction l; cbn; auto).
  assert (Hb : forall k, flat_map (fun cell => match cell with
                                               | Calendar.DayCell d _ _ _ _ => [d]
                                               | _ => []
                                               end) (repeat Calendar.Blank k) = [])
    by (induction k; cbn; auto).
  rewrite Hw, Hb. cbn [app].
  induction (Calendar.daysOf (Calendar.getDaysInMonth year monthIndex)) as [|d l IH];
    [reflexivity|].
  cbn [map flat_map Calendar.dayCell app]. now rewrite IH.
Qed.

Lemma In_sort_filter (iso : string) (stored : list Board.Task) (t : Board.Task) :
  In t (sort Calendar.comparePriority
          (List.filter (Calendar.dueOn iso) (Calendar.activeTasks stored)))
  <-> In t stored /\ Board.completed t = false /\ Board.dueDate t = Some iso.
Proof.
  assert (Hperm : forall l, In t (sort Calendar.comparePriority l) <-> In t l).
  { intros l. split; apply Permutation_in;
      [apply sort_Permutation | symmetry; apply sort_Permutation]. }
  rewrite Hperm. unfold Calendar.activeTasks. rewrite !List.filter_In.
  unfold Calendar.dueOn. rewrite negb_true_iff.
  destruct (Board.dueDate t) as [k|].
  - rewrite String.eqb_eq. intuition congruence.
  - intuition congruence.
Qed.

Lemma seq_NoDup_Z (n : nat) : List.NoDup (map Z.of_nat (seq 1 n)).
Proof.
  apply List.NoDup_map_inv with (f := Z.to_nat).
  rewrite List.map_map.
  rewrite (List.map_ext _ (fun k => k)) by (intros; apply Nat2Z.id).
  rewrite List.map_id. apply List.seq_NoDup.
Qed.

(** X25: the bucketing of the calendar for a displayed month of a
    four-digit year, all of whose days the local calendar has: the grid
    has one day cell for each day of the month, under the date of the
    day; the chips of a cell are stored tasks that are not completed and
    are due on the date of the cell; and a stored task that is not
    completed and is due on a day of the month is on the cell of that day
    and on no other. *)
Theorem calendar_bucketing (now year monthIndex : Z) (stored : list Board.Task)
        (colors : list (string * string)) :
  1000 <= year <= 9999 -> 0 <= monthIndex <= 11 ->
  Calendar.monthExists year monthIndex ->
  let grid := Calendar.refresh now year monthIndex stored colors in
  Calendar.dayNumbers grid
  = map Z.of_nat (seq 1 (Z.to_nat (daysIn year monthIndex)))
  /\ List.NoDup (Calendar.dayNumbers grid)
  /\ (forall d iso today chips click,
         In (Calendar.DayCell d iso today chips click) grid ->
         1 <= d <= daysIn year monthIndex
         /\ iso = Contract.isoDate year (monthIndex + 1) d
         /\ forall t, In t (map Calendar.chipTask chips) ->
                      In t stored /\ Board.completed t = false
                      /\ Board.dueDate t = Some iso)
  /\ (forall t d,
         In t stored -> Board.completed t = false ->
         1 <= d <= daysIn year monthIndex ->
         Board.dueDate t = Some (Contract.isoDate year (monthIndex + 1) d) ->
         (exists today chips click,
             In (Calendar.DayCell d (Contract.isoDate year (monthIndex + 1) d)
                                  today chips click) grid
             /\ In t (map Calendar.chipTask chips))
         /\ (forall d' iso' today' chips' click',
                In (Calendar.DayCell d' iso' today' chips' click') grid ->
                In t (map Calendar.chipTask chips') -> d' = d)).
Proof.
  intros Hy Hm _ grid.
  pose proof (getDaysInMonth_daysIn year monthIndex ltac:(lia) Hm) as Hdays.
  pose proof (daysIn_range year monthIndex Hm) as Hrange.
  assert (Hcell : forall d iso today chips click,
             In (Calendar.DayCell d iso today chips click) grid ->
             1 <= d <= daysIn year monthIndex
             /\ iso = Contract.isoDate year (monthIndex + 1) d
             /\ forall t, In t (map Calendar.chipTask chips) <->
                          In t stored /\ Board.completed t = false
                          /\ Board.dueDate t = Some iso).
  { intros d iso today chips click Hin.
    apply refresh_dayCell in Hin as (Hd & Hiso & -> & ->).
    rewrite Hdays in Hd. apply daysOf_In in Hd.
    rewrite formatLocalISO_isoDate in Hiso by assumption.
    split; [exact Hd|]. split; [exact Hiso|].
    intros t. rewrite map_chipTask. apply In_sort_filter. }
  split; [|split; [|split]].
  - subst grid. now rewrite dayNumbers_refresh, Hdays.
  - subst grid. rewrite dayNumbers_refresh, Hdays. apply seq_NoDup_Z.
  - intros d iso today chips click Hin.
    destruct (Hcell _ _ _ _ _ Hin) as (Hd & Hiso & Hchips).
    split; [exact Hd|]. split; [exact Hiso|]. intros t Ht. now apply Hchips.
  - intros t d Hstored Hactive Hd Hdue. split.
    + set (iso := Contract.isoDate year (monthIndex + 1) d) in *.
      set (items := sort Calendar.comparePriority
                      (List.filter (Calendar.dueOn iso) (Calendar.activeTasks stored))).
      exists (String.eqb iso (Calendar.formatLocalISO (Some now))),
        (map (Calendar.chipOf colors) items), items.
      split.
      * subst grid. unfold Calendar.refresh, Calendar.renderMonth.
        apply List.in_app_iff. right. apply List.in_app_iff. right.
        apply List.in_map_iff. exists d. split.
        -- unfold Calendar.dayCell.
           rewrite formatLocalISO_isoDate by assumption. fold iso.
           rewrite groupTasksByDate_lookup
             by (unfold iso, Contract.isoDate; apply nonempty_append_cons).
           reflexivity.
        -- rewrite Hdays. now apply daysOf_In.
      * rewrite map_chipTask. apply In_sort_filter. auto.
    + intros d' iso' today' chips' click' Hin Ht.
      destruct (Hcell _ _ _ _ _ Hin) as (Hd' & Hiso' & Hchips).
      apply Hchips in Ht as (_ & _ & Hdue').
      rewrite Hdue in Hdue'. injection Hdue' as Hdue'. rewrite Hiso' in Hdue'.
      symmetry. apply (isoDate_inj year (monthIndex + 1)); [lia | lia | exact Hdue'].
Qed.

(** ** The due-date badge *)

Lemma append_inj_length (a a' b b' : string) :
  String.length a = String.length a' -> a +:+ b = a' +:+ b' -> a = a' /\ b = b'.
Proof.
  revert a'. induction a as [|c a IH]; intros [|c' a'] Hlen H; try discriminate Hlen.
  - auto.
  - rewrite !append_cons in H. injection H as -> H.
    injection Hlen as Hlen. destruct (IH a' Hlen H) as [-> ->]. auto.
Qed.

Lemma weekdayShort_length (w : Z) : String.length (weekdayShort w) = 3%nat.
Proof.
  destruct w as [|p|p]; try reflexivity.
  do 3 (destruct p as [p|p|]; try reflexivity).
Qed.

Lemma monthShort_length (m : Z) : String.length (monthShort m) = 3%nat.
Proof.
  destruct m as [|p|p]; try reflexivity.
  do 4 (destruct p as [p|p|]; try reflexivity).
Qed.

Lemma monthShort_inj (m m' : Z) :
  0 <= m <= 11 -> 0 <= m' <= 11 -> monthShort m = monthShort m' -> m = m'.
Proof.
  intros Hm Hm'. apply month_index_cases in Hm, Hm'.
  repeat (destruct Hm as [-> | Hm]);
    repeat (destruct Hm' as [-> | Hm']); subst;
    first [reflexivity | discriminate].
Qed.

Lemma padStart2_length (d : Z) :
  0 <= d <= 99 -> String.length (padStart2 (toString d)) = 2%nat.
Proof.
  intros H.
  assert (Hall : forallb (fun k => (String.length (padStart2 (toString (Z.of_nat k))) =? 2)%nat)
                         (seq 0 100) = true)
    by (vm_compute; reflexivity).
  rewrite List.forallb_forall in Hall.
  specialize (Hall (Z.to_nat d)). rewrite Z2Nat.id in Hall by lia.
  apply Nat.eqb_eq, Hall, List.in_seq. lia.
Qed.

(** A printed number that is not negative reads back from its digits,
    leading zeros or not. *)
Lemma parseDigits_toString (n : Z) :
  0 <= n -> parseDigits 0 (toString n) = (n, EmptyString).
Proof.
  intros Hn. rewrite toString_cases. destruct n as [|p|p]; [reflexivity| |lia].
  pose proof (to_uint_head p) as Hh.
  pose proof (DecimalPos.Unsigned.of_to p) as Hof.
  unfold NilZero.string_of_uint.
  destruct (Pos.to_uint p) as [|d|d|d|d|d|d|d|d|d|d]; try contradiction;
    cbn [NilEmpty.string_of_uint];
    cbn [Pos.of_uint] in Hof; injection Hof as Hof;
    cbn [parseDigits];
    match goal with
    | |- context [digitVal ?c] =>
        let v := eval vm_compute in (digitVal c) in
        change (digitVal c) with v
    end; cbv iota beta;
    rewrite <- (append_nil_r (NilEmpty.string_of_uint d));
    change (10 * 0 + ?k) with k;
    rewrite parseDigits_uint by reflexivity; now rewrite Hof.
Qed.

Lemma parseDigits_zero (s : string) :
  parseDigits 0 (String "0" s) = parseDigits 0 s.
Proof. reflexivity. Qed.

Lemma parseDigits_padStart4 (s : string) :
  parseDigits 0 (padStart4 s) = parseDigits 0 s.
Proof.
  unfold padStart4.
  destruct s as [|a [|b [|c [|d s]]]]; reflexivity.
Qed.

Lemma padStart4_head (n : Z) :
  0 <= n -> exists c s, padStart4 (toString n) = String c s /\ isDigit c = true.
Proof.
  intros Hn.
  assert (Hd : exists c s, toString n = String c s /\ isDigit c = true).
  { rewrite toString_cases. destruct n as [|p|p]; [eexists _, _; split; reflexivity| |lia].
    destruct (string_of_uint_head p) as (c & s & Hs & d & Hd).
    exists c, s. split; [exact Hs|]. unfold isDigit. now rewrite Hd. }
  destruct Hd as (c & s & Hs & Hc). rewrite Hs. unfold padStart4.
  destruct s as [|b [|c' [|d s]]]; cbn [String.length];
    try (eexists _, _; split; [reflexivity | first [exact Hc | reflexivity]]).
Qed.

Lemma readYear_yearString (y : Z) : readYear (yearString y) = y.
Proof.
  unfold yearString. destruct (y <? 0) eqn:E.
  - apply Z.ltb_lt in E. change ("-" +:+ ?x) with (String "-" x).
    cbn [readYear]. rewrite parseDigits_padStart4, parseDigits_toString by lia.
    cbn [fst]. lia.
  - apply Z.ltb_ge in E. rewrite append_nil_l.
    destruct (padStart4_head (Z.abs y) ltac:(lia)) as (c & s & Hs & Hc).
    assert (Hread : readYear (String c s) = fst (parseDigits 0 (String c s))).
    { destruct c as [[] [] [] [] [] [] [] []]; try discriminate Hc; reflexivity. }
    rewrite Hs, Hread, <- Hs, parseDigits_padStart4, parseDigits_toString by lia.
    cbn [fst]. lia.
Qed.

Lemma toDateString_parts (t : Z) :
  toDateString (Some t)
  = weekdayShort (weekDay (day t)) +:+ " " +:+ monthShort (monthFromDay (day t)) +:+ " "
    +:+ padStart2 (toString (dateFromDay (day t))) +:+ " "
    +:+ yearString (yearFromDay (day t)).
Proof. reflexivity. Qed.

Lemma dateFromDay_small (n : Z) : 0 <= dateFromDay n <= 99.
Proof.
  pose proof (dateFromDay_range n) as H.
  pose proof (daysIn_range (yearFromDay n) (monthFromDay n) (monthFromDay_range n)). lia.
Qed.

(** Dates with the same [toDateString] are on the same day. *)
Lemma toDateString_inj (t t' : Z) :
  toDateString (Some t) = toDateString (Some t') -> day t = day t'.
Proof.
  rewrite !toDateString_parts. intros H.
  apply append_inj_length in H as [_ H]; [|now rewrite !weekdayShort_length].
  change (" " +:+ ?x) with (String " " x) in H. injection H as H.
  apply append_inj_length in H as [Hmonth H]; [|now rewrite !monthShort_length].
  change (" " +:+ ?x) with (String " " x) in H. injection H as H.
  apply append_inj_length in H as [Hdate H];
    [|now rewrite !padStart2_length by apply dateFromDay_small].
  change (" " +:+ ?x) with (String " " x) in H. injection H as Hyear.
  apply monthShort_inj in Hmonth; try apply monthFromDay_range.
  apply (f_equal (fun s => fst (parseDigits 0 s))) in Hdate.
  rewrite !padStart2_decode in Hdate by apply dateFromDay_small.
  apply (f_equal readYear) in Hyear. rewrite !readYear_yearString in Hyear.
  rewrite <- (fields_makeDay (day t)), <- (fields_makeDay (day t')).
  now rewrite Hmonth, Hdate, Hyear.
Qed.

Lemma parseLocalYMD_midnight (ymd : option string) (due : Z) :
  Board.parseLocalYMD ymd = Some due -> due = day due * msPerDay.
Proof.
  unfold Board.parseLocalYMD. destruct ymd as [s|]; [|discriminate].
  destruct (negb (nonempty s)); [discriminate|].
  unfold newDate. destruct (Number (nth_error (split "-" s) 0)) as [y|]; [|discriminate].
  intros H. apply timeClip_Some in H. rewrite H. now rewrite day_midnight.
Qed.

Lemma day_bound (now : Z) :
  Z.abs now <= 8000000000000000 -> -92592593 <= day now <= 92592593.
Proof. unfold day, msPerDay. intros H. Z.div_mod_to_equations. lia. Qed.

Lemma midnight_valid (n : Z) :
  -92592594 <= n <= 92592594 -> timeClip (n * msPerDay) = Some (n * msPerDay).
Proof. intros H. apply timeClip_valid. unfold msPerDay. lia. Qed.

Lemma next_day (n : Z) :
  makeDay (yearFromDay n) (monthFromDay n) (dateFromDay n + 1) = n + 1.
Proof.
  replace (makeDay (yearFromDay n) (monthFromDay n) (dateFromDay n + 1))
    with (makeDay (yearFromDay n) (monthFromDay n) (dateFromDay n) + 1)
    by (unfold makeDay; ring).
  now rewrite fields_makeDay.
Qed.

(** Today at midnight, and tomorrow, for a clock within the range of
    dates. *)
Lemma today_tomorrow (now : Z) :
  Z.abs now <= 8000000000000000 ->
  setHoursZero (Some now) = Some (day now * msPerDay)
  /\ match getDate (setHoursZero (Some now)) with
     | Some d => setDate (setHoursZero (Some now)) (d + 1)
     | None => None
     end = Some ((day now + 1) * msPerDay).
Proof.
  intros Hnow. apply day_bound in Hnow.
  assert (Htoday : setHoursZero (Some now) = Some (day now * msPerDay))
    by (apply midnight_valid; lia).
  split; [exact Htoday|].
  rewrite Htoday. unfold getDate, setDate. cbn [option_map].
  rewrite day_midnight, timeWithinDay_midnight, Z.add_0_r, next_day.
  apply midnight_valid. lia.
Qed.

(** The badge follows the day of the parsed due date: a day before the
    day of the clock gives class ["overdue"], the same day ["Due Today"],
    the next day ["Due Tomorrow"], a later day no class; the label ends
    with the formatted date. *)
Lemma badge_of_due (now : Z) (task : Board.Task) (due : Z) :
  Z.abs now <= 8000000000000000 ->
  Board.parseLocalYMD (Board.dueDate task) = Some due ->
  let item := Board.taskHtml now task in
  let label := Board.formatLongDate (Some due) in
  (day due < day now ->
     Board.cls item = "overdue" /\ Board.txt item = "Overdue - " +:+ label)
  /\ (day due = day now ->
        Board.cls item = "due-soon" /\ Board.txt item = "Due Today - " +:+ label)
  /\ (day due = day now + 1 ->
        Board.cls item = "due-soon" /\ Board.txt item = "Due Tomorrow - " +:+ label)
  /\ (day now + 1 < day due ->
        Board.cls item = EmptyString /\ Board.txt item = label).
Proof.
  intros Hnow Hdue item label.
  destruct (today_tomorrow now Hnow) as [Htoday Htomorrow].
  pose proof (parseLocalYMD_midnight _ _ Hdue) as Hmid.
  assert (Hlt : dateLt (Some due) (Some (day now * msPerDay)) = (day due <? day now)).
  { cbn [dateLt]. rewrite Hmid at 1.
    destruct (day due <? day now) eqn:E.
    - apply Z.ltb_lt in E. apply Z.ltb_lt. unfold msPerDay. lia.
    - apply Z.ltb_ge in E. apply Z.ltb_ge. unfold msPerDay. lia. }
  assert (Heq : forall n, String.eqb (toDateString (Some due))
                                     (toDateString (Some (n * msPerDay)))
                          = (day due =? n)).
  { intros n. destruct (day due =? n) eqn:E.
    - apply Z.eqb_eq in E. apply String.eqb_eq. rewrite Hmid, E. reflexivity.
    - apply Z.eqb_neq in E. apply String.eqb_neq. intros H.
      apply toDateString_inj in H. rewrite day_midnight in H. contradiction. }
  subst item. unfold Board.taskHtml. cbv zeta.
  rewrite Hdue, Htomorrow, Htoday, Hlt, !Heq.
  split; [|split; [|split]]; intros H.
  - rewrite (proj2 (Z.ltb_lt _ _)) by lia. split; reflexivity.
  - rewrite (proj2 (Z.ltb_ge _ _)) by lia.
    rewrite (proj2 (Z.eqb_eq _ _)) by lia. split; reflexivity.
  - rewrite (proj2 (Z.ltb_ge _ _)) by lia.
    rewrite (proj2 (Z.eqb_neq (day due) (day now))) by lia.
    rewrite (proj2 (Z.eqb_eq _ _)) by lia. split; reflexivity.
  - rewrite (proj2 (Z.ltb_ge _ _)) by lia.
    rewrite (proj2 (Z.eqb_neq (day due) (day now))) by lia.
    rewrite (proj2 (Z.eqb_neq (day due) (day now + 1))) by lia. split; reflexivity.
Qed.

Lemma calendar_bucketing_witness :
  let task := {| Board.id := "1"; Board.name := "Essay"; Board.subject := "English";
                 Board.dueDate := Some "2024-02-29"; Board.priority := Some "high";
                 Board.completed := false; Board.createdAt := "" |} in
  let grid := Calendar.refresh 1704209400000 2024 1 [task] [] in
  Calendar.dayNumbers grid = map Z.of_nat (seq 1 29)
  /\ exists today chips click,
       In (Calendar.DayCell 29 "2024-02-29" today chips click) grid
       /\ In task (map Calendar.chipTask chips).
Proof.
  intros task grid.
  pose proof (calendar_bucketing 1704209400000 2024 1 [task] []
                ltac:(lia) ltac:(lia)
                ltac:(intros k Hk; apply newDate_fields; [lia | lia | exact Hk]))
    as (Hdays & _ & _ & Hshown).
  split; [exact Hdays|].
  refine (proj1 (Hshown task 29 _ eq_refl _ eq_refl)).
  - now left.
  - vm_compute. split; discriminate.
Defined.

(** C3 at a displayed month before the year 1000: January 999 with one
    active task due on its fifth day, under the date a date input gives
    for that day.  The grid has the cell of day 5, under the key
    [999-01-05], and the task is on no cell. *)
Theorem calendar_bucketing_year_999 :
  let task := {| Board.id := "1"; Board.name := "Essay"; Board.subject := "English";
                 Board.dueDate := Some "0999-01-05"; Board.priority := Some "high";
                 Board.completed := false; Board.createdAt := "" |} in
  let grid := Calendar.refresh 1704209400000 999 0 [task] [] in
  Contract.isoDate 999 1 5 = "0999-01-05"
  /\ Calendar.getDaysInMonth 999 0 = Some 31
  /\ In (Calendar.DayCell 5 "999-01-05" false [] []) grid
  /\ Calendar.shownTasks grid = [].
Proof.
  cbn zeta. split; [reflexivity|]. split; [reflexivity|].
  split; [|vm_compute; reflexivity].
  vm_compute. do 13 right. left. reflexivity.
Qed.

(** ** The board, event by event *)

(** *** What the store holds *)

Lemma wellFormed_tasksValue (tasks : list Board.Task) :
  wellFormed (Board.tasksValue tasks) = true.
Proof.
  unfold Board.tasksValue. cbn [wellFormed].
  induction tasks as [|t tasks IH]; [reflexivity|].
  cbn [map forallb]. rewrite IH, andb_true_r.
  unfold Board.Task_to_json.
  destruct (Board.dueDate t), (Board.priority t); reflexivity.
Qed.

Lemma wellFormed_subjectsValue (subjects : list string) :
  wellFormed (Board.subjectsValue subjects) = true.
Proof.
  unfold Board.subjectsValue. cbn [wellFormed].
  induction subjects as [|s subjects IH]; [reflexivity | exact IH].
Qed.

Lemma wellFormed_colorsValue (colors : list (string * string)) :
  distinctKeys (map fst colors) = true ->
  wellFormed (Board.colorsValue colors) = true.
Proof.
  intros H. unfold Board.colorsValue. cbn [wellFormed].
  replace (map fst (map (fun kv : string * string => (fst kv, JStr (snd kv))) colors))
    with (map fst colors)
    by (clear H; induction colors as [|kv colors IH];
        [reflexivity | simpl; f_equal; exact IH]).
  rewrite H. cbn [andb]. clear H.
  induction colors as [|kv colors IH]; [reflexivity | simpl; exact IH].
Qed.

Lemma load_saveTasks (v : list Board.Task) (store : gmap string string) :
  Board.init_tasks (Board.Storage_saveTasks (Board.tasksValue v) store) = Board.tasksValue v.
Proof.
  unfold Board.init_tasks, Board.Storage_loadTasks, Board.Storage_saveTasks,
    safelyParseJson, getItem, setItem.
  rewrite lookup_insert_eq, JSON_parse_stringify by apply wellFormed_tasksValue.
  reflexivity.
Qed.

Lemma load_saveSubjects (v : list string) (store : gmap string string) :
  Board.Storage_loadSubjects (Board.Storage_saveSubjects (Board.subjectsValue v) store)
  = Board.subjectsValue v.
Proof.
  unfold Board.Storage_loadSubjects, Board.Storage_saveSubjects,
    safelyParseJson, getItem, setItem.
  rewrite lookup_insert_eq, JSON_parse_stringify by apply wellFormed_subjectsValue.
  reflexivity.
Qed.

Lemma load_saveSubjectColors (v : list (string * string)) (store : gmap string string) :
  distinctKeys (map fst v) = true ->
  Board.Storage_loadSubjectColors
    (Board.Storage_saveSubjectColors (Board.colorsValue v) store)
  = Board.colorsValue v.
Proof.
  intros H.
  unfold Board.Storage_loadSubjectColors, Board.Storage_saveSubjectColors,
    safelyParseJson, getItem, setItem.
  rewrite lookup_insert_eq, JSON_parse_stringify by now apply wellFormed_colorsValue.
  reflexivity.
Qed.

(** Saving under one key leaves the loads of the other keys as they
    were. *)
Ltac other_key :=
  intros;
  unfold Board.init_tasks, Board.Storage_loadTasks, Board.Storage_loadSubjects,
    Board.Storage_loadSubjectColors, Board.Storage_saveTasks, Board.Storage_saveSubjects,
    Board.Storage_saveSubjectColors, Board.Theme_set, getItem, setItem;
  rewrite lookup_insert_ne by discriminate; reflexivity.

Lemma tasks_saveSubjects v s :
  Board.init_tasks (Board.Storage_saveSubjects v s) = Board.init_tasks s.
Proof. other_key. Qed.
Lemma tasks_saveSubjectColors v s :
  Board.init_tasks (Board.Storage_saveSubjectColors v s) = Board.init_tasks s.
Proof. other_key. Qed.
Lemma tasks_Theme_set v s :
  Board.init_tasks (Board.Theme_set v s) = Board.init_tasks s.
Proof. other_key. Qed.
Lemma subjects_saveTasks v s :
  Board.Storage_loadSubjects (Board.Storage_saveTasks v s) = Board.Storage_loadSubjects s.
Proof. other_key. Qed.
Lemma subjects_saveSubjectColors v s :
  Board.Storage_loadSubjects (Board.Storage_saveSubjectColors v s)
  = Board.Storage_loadSubjects s.
Proof. other_key. Qed.
Lemma subjects_Theme_set v s :
  Board.Storage_loadSubjects (Board.Theme_set v s) = Board.Storage_loadSubjects s.
Proof. other_key. Qed.
Lemma colors_saveTasks v s :
  Board.Storage_loadSubjectColors (Board.Storage_saveTasks v s)
  = Board.Storage_loadSubjectColors s.
Proof. other_key. Qed.
Lemma colors_saveSubjects v s :
  Board.Storage_loadSubjectColors (Board.Storage_saveSubjects v s)
  = Board.Storage_loadSubjectColors s.
Proof. other_key. Qed.
Lemma colors_Theme_set v s :
  Board.Storage_loadSubjectColors (Board.Theme_set v s) = Board.Storage_loadSubjectColors s.
Proof. other_key. Qed.

Create Rewrite HintDb store.
#[export] Hint Rewrite load_saveTasks load_saveSubjects tasks_saveSubjects
  tasks_saveSubjectColors tasks_Theme_set subjects_saveTasks subjects_saveSubjectColors
  subjects_Theme_set colors_saveTasks colors_saveSubjects colors_Theme_set : store.

(** The keys of the colour map. *)
Lemma distinctKeys_NoDup (keys : list string) :
  distinctKeys keys = true <-> List.NoDup keys.
Proof.
  induction keys as [|k keys IH]; cbn [distinctKeys].
  - split; [constructor | reflexivity].
  - rewrite andb_true_iff, negb_true_iff, IH, List.NoDup_cons_iff.
    assert (H : existsb (String.eqb k) keys = false <-> ~ In k keys).
    { rewrite <- not_true_iff_false, List.existsb_exists. split.
      - intros H Hin. apply H. exists k. split; [assumption | apply String.eqb_refl].
      - intros H (x & Hin & Heq). apply String.eqb_eq in Heq. now subst. }
    now rewrite H.
Qed.

Lemma In_setColor (k v x : string) (colors : list (string * string)) :
  In x (map fst (Board.setColor k v colors)) <-> x = k \/ In x (map fst colors).
Proof.
  induction colors as [|[k0 v0] colors IH]; cbn [Board.setColor map fst In].
  - intuition.
  - destruct (String.eqb_spec k0 k) as [->|Hne]; cbn [map fst In].
    + intuition.
    + rewrite IH. intuition.
Qed.

Lemma setColor_distinct (k v : string) (colors : list (string * string)) :
  distinctKeys (map fst colors) = true ->
  distinctKeys (map fst (Board.setColor k v colors)) = true.
Proof.
  rewrite !distinctKeys_NoDup.
  induction colors as [|[k0 v0] colors IH]; cbn [Board.setColor map fst]; intros H.
  - repeat constructor. intros [].
  - apply List.NoDup_cons_iff in H. destruct H as (Hk0 & H).
    destruct (String.eqb_spec k0 k) as [->|Hne]; cbn [map fst].
    + now constructor.
    + constructor; [|auto]. rewrite In_setColor. intuition.
Qed.

Lemma deleteColor_distinct (k : string) (colors : list (string * string)) :
  distinctKeys (map fst colors) = true ->
  distinctKeys (map fst (Board.deleteColor k colors)) = true.
Proof.
  rewrite !distinctKeys_NoDup. unfold Board.deleteColor. apply map_filter_NoDup.
Qed.

Lemma filter_length_all {A} (keep : A -> bool) (l : list A) :
  (length l <= length (List.filter keep l))%nat -> List.filter keep l = l.
Proof.
  induction l as [|x l IH]; cbn [List.filter length]; [reflexivity|].
  pose proof (List.filter_length_le keep l) as Hle.
  destruct (keep x); cbn [length]; intros H; [f_equal; apply IH; lia | lia].
Qed.

(** A step keeps the store and the application in step. *)
Lemma handle_synced (localeCompare : string -> string -> Z) (e : Board.Event)
      (p : Board.Page) :
  distinctKeys (map fst (Board.subjectColors (Board.app p))) = true ->
  Board.synced p ->
  distinctKeys (map fst (Board.subjectColors (Board.app (Board.handle localeCompare e p))))
  = true
  /\ Board.synced (Board.handle localeCompare e p).
Proof.
  intros Hkeys (Ht & Hs & Hc).
  destruct e as [[form now nowISO | id_ | id_ | input | subject_ confirmed] | subj color | q];
    cbn [Board.handle Board.perform].
  - unfold Board.onSubmit.
    destruct (_ || _); unfold Board.synced;
      cbn [Board.notify Board.app Board.localStorage Board.tasks Board.subjects
             Board.subjectColors];
      autorewrite with store; auto.
  - unfold Board.completeTask.
    destruct (Board.markCompleted id_ _); unfold Board.synced;
      cbn [Board.notify Board.app Board.localStorage Board.tasks Board.subjects
             Board.subjectColors];
      autorewrite with store; auto.
  - unfold Board.deleteTask.
    destruct (_ <? _)%nat eqn:E; unfold Board.synced;
      cbn [Board.notify Board.app Board.localStorage Board.tasks Board.subjects
             Board.subjectColors];
      autorewrite with store; auto.
    apply Nat.ltb_ge in E. rewrite (filter_length_all _ _ E). auto.
  - unfold Board.onAddSubject.
    destruct input as [text|]; [|unfold Board.synced; auto].
    destruct (nonempty text); cbn [negb]; [|unfold Board.synced; auto].
    destruct (nonempty (trim text)); cbn [negb]; [|unfold Board.synced; auto].
    destruct (Board.includes _ _); unfold Board.synced;
      cbn [Board.notify Board.app Board.localStorage Board.tasks Board.subjects
             Board.subjectColors];
      autorewrite with store; auto.
    split; [now apply setColor_distinct|].
    rewrite load_saveSubjectColors by now apply setColor_distinct. auto.
  - unfold Board.deleteSubject.
    destruct confirmed; cbn [negb]; [|unfold Board.synced; auto].
    destruct (match Board.lookupColor subject_ _ with Some c => nonempty c | None => false end);
      unfold Board.synced;
      cbn [Board.notify Board.app Board.localStorage Board.tasks Board.subjects
             Board.subjectColors];
      autorewrite with store; auto.
    split; [now apply deleteColor_distinct|].
    rewrite load_saveSubjectColors by now apply deleteColor_distinct. auto.
  - unfold Board.onColorInput.
    destruct subj as [s|]; [|unfold Board.synced; auto].
    destruct (_ || _); unfold Board.synced;
      cbn [Board.notify Board.app Board.localStorage Board.tasks Board.subjects
             Board.subjectColors];
      autorewrite with store; auto.
    split; [now apply setColor_distinct|].
    rewrite load_saveSubjectColors by now apply setColor_distinct. auto.
  - unfold Board.Theme_toggle, Board.synced.
    cbn [fst Board.notify Board.app Board.localStorage Board.tasks Board.subjects
           Board.subjectColors].
    autorewrite with store. auto.
Qed.

Lemma run_synced (localeCompare : string -> string -> Z) (events : list Board.Event)
        (p : Board.Page) :
  distinctKeys (map fst (Board.subjectColors (Board.app p))) = true ->
  Board.synced p ->
  Board.synced (Board.run localeCompare events p).
Proof.
  unfold Board.run. revert p.
  induction events as [|e events IH]; intros p Hkeys Hp; cbn [fold_left]; [exact Hp|].
  destruct (handle_synced localeCompare e p Hkeys Hp) as (Hkeys' & Hp').
  now apply IH.
Qed.

(** *** Colours and priorities *)

Lemma lookupColor_setColor (k v x : string) (colors : list (string * string)) :
  Board.lookupColor x (Board.setColor k v colors)
  = if String.eqb k x then Some v else Board.lookupColor x colors.
Proof.
  induction colors as [|[k0 v0] colors IH]; cbn [Board.setColor Board.lookupColor].
  - reflexivity.
  - destruct (String.eqb_spec k0 k) as [->|Hne]; cbn [Board.lookupColor].
    + destruct (String.eqb k x); reflexivity.
    + rewrite IH. destruct (String.eqb_spec k0 x) as [->|]; [|reflexivity].
      destruct (String.eqb_spec k x) as [->|]; [contradiction | reflexivity].
Qed.

Lemma lookupColor_deleteColor (k x : string) (colors : list (string * string)) :
  Board.lookupColor x (Board.deleteColor k colors)
  = if String.eqb k x then None else Board.lookupColor x colors.
Proof.
  unfold Board.deleteColor.
  induction colors as [|[k0 v0] colors IH]; cbn [List.filter Board.lookupColor fst].
  - destruct (String.eqb k x); reflexivity.
  - destruct (String.eqb_spec k0 k) as [->|Hne]; cbn [negb Board.lookupColor].
    + rewrite IH. destruct (String.eqb k x); reflexivity.
    + rewrite IH. destruct (String.eqb_spec k0 x) as [->|]; [|reflexivity].
      destruct (String.eqb_spec k x) as [->|]; [contradiction | reflexivity].
Qed.

Lemma generateColorFor_nonempty (seed : string) :
  nonempty (Board.generateColorFor seed) = true.
Proof.
  pose proof (generateColorForCodes_hex (charCodes seed)) as H.
  unfold Board.generateColorFor.
  destruct (Board.generateColorForCodes (charCodes seed)); [discriminate H | reflexivity].
Qed.

Lemma hasColor_setColor (k v x : string) (colors : list (string * string)) :
  nonempty v = true ->
  Board.hasColor x (Board.setColor k v colors)
  = String.eqb k x || Board.hasColor x colors.
Proof.
  intros Hv. unfold Board.hasColor. rewrite lookupColor_setColor.
  destruct (String.eqb k x); [|reflexivity]. cbn [Board.falsy]. now rewrite Hv.
Qed.

Lemma hasColor_deleteColor (k x : string) (colors : list (string * string)) :
  Board.hasColor x (Board.deleteColor k colors)
  = negb (String.eqb k x) && Board.hasColor x colors.
Proof.
  unfold Board.hasColor. rewrite lookupColor_deleteColor.
  destruct (String.eqb k x); reflexivity.
Qed.

(** What [completeTask] does to the list: the first task with the id is
    marked, if there is one. *)
Lemma markCompleted_None (id_ : string) (tasks : list Board.Task) :
  Board.markCompleted id_ tasks = None <-> ~ In id_ (map Board.id tasks).
Proof.
  induction tasks as [|t tasks IH]; cbn [Board.markCompleted map In].
  - tauto.
  - destruct (String.eqb_spec (Board.id t) id_) as [E|E].
    + split; [discriminate | tauto].
    + destruct (Board.markCompleted id_ tasks); cbn [option_map].
      * split; [discriminate|]. intros H.
        assert (Hn : ~ In id_ (map Board.id tasks)) by tauto.
        apply IH in Hn. discriminate.
      * split; [|reflexivity]. intros _ [H|H]; [contradiction|]. now apply IH.
Qed.

Lemma markCompleted_Some (id_ : string) (tasks tasks' : list Board.Task) :
  Board.markCompleted id_ tasks = Some tasks' ->
  exists before t after,
    tasks = before ++ t :: after /\ Board.id t = id_
    /\ ~ In id_ (map Board.id before)
    /\ tasks' = before ++ Board.completedTask t :: after.
Proof.
  revert tasks'. induction tasks as [|t tasks IH]; intros tasks'; [discriminate|].
  cbn [Board.markCompleted].
  destruct (String.eqb_spec (Board.id t) id_) as [E|E].
  - intros [= <-]. exists [], t, tasks. cbn. auto.
  - destruct (Board.markCompleted id_ tasks) as [l|]; [|discriminate].
    intros [= <-]. destruct (IH l eq_refl) as (before & t0 & after & -> & Hid & Hnot & ->).
    exists (t :: before), t0, after. cbn [map In app]. intuition.
Qed.

Lemma hasPriority_completedTask (t : Board.Task) :
  Board.hasPriority (Board.completedTask t) = Board.hasPriority t.
Proof. reflexivity. Qed.

Lemma hasPriority_withPriority (t : Board.Task) :
  Board.hasPriority (Board.withPriority t) = true.
Proof.
  unfold Board.withPriority, Board.hasPriority.
  destruct (Board.falsy (Board.priority t)) eqn:E; [reflexivity | now rewrite E].
Qed.

Lemma orElse_nonempty (v : option string) (fallback : string) :
  nonempty fallback = true -> nonempty (Board.orElse v fallback) = true.
Proof.
  intros H. unfold Board.orElse. destruct v as [s|]; [|exact H].
  destruct (nonempty s) eqn:E; assumption.
Qed.

Lemma handle_complete (localeCompare : string -> string -> Z) (e : Board.Event)
      (p : Board.Page) :
  Board.complete p -> Board.complete (Board.handle localeCompare e p).
Proof.
  intros (Hc & Hp).
  destruct e as [[form now nowISO | id_ | id_ | input | subject_ confirmed] | subj color | q];
    cbn [Board.handle Board.perform].
  - unfold Board.onSubmit.
    destruct (_ || _) eqn:E; [split; assumption|].
    split; cbn [Board.notify Board.app Board.tasks Board.subjects Board.subjectColors];
      [assumption|].
    intros t Hin. apply List.in_app_or in Hin. destruct Hin as [Hin | [<- | []]]; [auto|].
    unfold Board.hasPriority. cbn [Board.priority Board.falsy].
    rewrite orElse_nonempty; reflexivity.
  - unfold Board.completeTask.
    destruct (Board.markCompleted id_ _) as [tasks'|] eqn:E; [|split; assumption].
    split; cbn [Board.notify Board.app Board.tasks Board.subjects Board.subjectColors];
      [assumption|].
    apply markCompleted_Some in E.
    destruct E as (before & t0 & after & Heq & _ & _ & ->).
    intros t Hin. rewrite Heq in Hp.
    apply List.in_app_or in Hin. destruct Hin as [Hin | [<- | Hin]].
    + apply Hp, List.in_or_app. now left.
    + rewrite hasPriority_completedTask. apply Hp, List.in_or_app. right. now left.
    + apply Hp, List.in_or_app. right. now right.
  - unfold Board.deleteTask.
    destruct (_ <? _)%nat;
      (split; cbn [Board.notify Board.app Board.tasks Board.subjects Board.subjectColors];
       [assumption|]);
      intros t Hin; apply List.filter_In in Hin; apply Hp; tauto.
  - unfold Board.onAddSubject.
    destruct input as [text|]; [|split; assumption].
    destruct (nonempty text); cbn [negb]; [|split; assumption].
    destruct (nonempty (trim text)); cbn [negb]; [|split; assumption].
    destruct (Board.includes _ _); [split; assumption|].
    split; cbn [Board.notify Board.app Board.tasks Board.subjects Board.subjectColors];
      [|assumption].
    intros s Hin.
    apply (Permutation_in _ (sort_Permutation localeCompare _)) in Hin.
    rewrite hasColor_setColor by apply generateColorFor_nonempty.
    apply List.in_app_or in Hin. destruct Hin as [Hin | [<- | []]].
    + rewrite (Hc s Hin). apply orb_true_r.
    + now rewrite String.eqb_refl.
  - unfold Board.deleteSubject.
    destruct confirmed; cbn [negb]; [|split; assumption].
    split; cbn [Board.notify Board.app Board.tasks Board.subjects Board.subjectColors].
    + intros s Hin. apply List.filter_In in Hin. destruct Hin as (Hin & Hne).
      destruct (match Board.lookupColor subject_ _ with Some c => nonempty c | None => false end);
        [|auto].
      rewrite hasColor_deleteColor, (Hc s Hin), String.eqb_sym. now rewrite Hne.
    + intros t Hin. apply List.filter_In in Hin. apply Hp. tauto.
  - unfold Board.onColorInput.
    destruct subj as [s|]; [|split; assumption].
    destruct (negb (nonempty s) || negb (nonempty color)) eqn:E; [split; assumption|].
    apply orb_false_iff in E. destruct E as (_ & E). apply negb_false_iff in E.
    split; cbn [Board.notify Board.app Board.tasks Board.subjects Board.subjectColors];
      [|assumption].
    intros x Hin. rewrite hasColor_setColor by assumption.
    rewrite (Hc x Hin). apply orb_true_r.
  - split; assumption.
Qed.

Lemma assignColor_keeps (x : string) (state : list (string * string) * bool) (sub : string) :
  Board.hasColor x (fst state) = true ->
  Board.hasColor x (fst (Board.assignColor state sub)) = true.
Proof.
  destruct state as [colors flag]. unfold Board.assignColor. cbn [fst].
  destruct (Board.falsy (Board.lookupColor sub colors)); cbn [fst]; [|trivial].
  intros H. rewrite hasColor_setColor by apply generateColorFor_nonempty.
  rewrite H. apply orb_true_r.
Qed.

Lemma assignColor_assigns (state : list (string * string) * bool) (sub : string) :
  Board.hasColor sub (fst (Board.assignColor state sub)) = true.
Proof.
  destruct state as [colors flag]. unfold Board.assignColor.
  destruct (Board.falsy (Board.lookupColor sub colors)) eqn:E; cbn [fst].
  - rewrite hasColor_setColor by apply generateColorFor_nonempty.
    now rewrite String.eqb_refl.
  - unfold Board.hasColor. now rewrite E.
Qed.

Lemma fold_assignColor_keeps (x : string) (subs : list string)
      (state : list (string * string) * bool) :
  Board.hasColor x (fst state) = true ->
  Board.hasColor x (fst (fold_left Board.assignColor subs state)) = true.
Proof.
  revert state. induction subs as [|s subs IH]; intros state H; cbn [fold_left]; [exact H|].
  apply IH. now apply assignColor_keeps.
Qed.

Lemma fold_assignColor_all (subs : list string) (state : list (string * string) * bool)
      (x : string) :
  In x subs -> Board.hasColor x (fst (fold_left Board.assignColor subs state)) = true.
Proof.
  revert state. induction subs as [|s subs IH]; intros state []; cbn [fold_left].
  - subst. apply fold_assignColor_keeps, assignColor_assigns.
  - now apply IH.
Qed.

Lemma init_complete (storedTasks : list Board.Task) (storedSubjects : list string)
      (storedColors : list (string * string)) (store : gmap string string) :
  Board.complete (Board.init storedTasks storedSubjects storedColors store).
Proof.
  unfold Board.init. cbv zeta.
  match goal with
  | |- context [fold_left Board.assignColor ?s _] => set (subjects1 := s)
  end.
  pose proof (fold_assignColor_all subjects1 (storedColors, false)) as Hall.
  destruct (fold_left Board.assignColor subjects1 (storedColors, false)) as [colors1 flag].
  split; cbn [Board.app Board.tasks Board.subjects Board.subjectColors].
  - exact Hall.
  - intros t Hin. apply List.in_map_iff in Hin. destruct Hin as (t0 & <- & _).
    apply hasPriority_withPriority.
Qed.

(** X2: after [App.init] on stored tasks, subjects and colours of the
    data model and any sequence of events of the page, every listed
    subject has a colour that is not empty and every task a priority that
    is not empty, provided that no subject name, stored or brought by an
    event, is the name of a member of [Object.prototype]. *)
Theorem board_complete (localeCompare : string -> string -> Z) (events : list Board.Event)
        (storedTasks : list Board.Task) (storedSubjects : list string)
        (storedColors : list (string * string)) (store : gmap string string) :
  Board.ownNames (storedSubjects ++ map Board.subject storedTasks
                  ++ flat_map Board.eventNames events) = true ->
  let p := Board.run localeCompare events
             (Board.init storedTasks storedSubjects storedColors store) in
  (forall s, In s (Board.subjects (Board.app p)) ->
     exists c, Board.lookupColor s (Board.subjectColors (Board.app p)) = Some c
               /\ nonempty c = true)
  /\ (forall t, In t (Board.tasks (Board.app p)) ->
        exists pr, Board.priority t = Some pr /\ nonempty pr = true).
Proof.
  intros _ p.
  assert (H : Board.complete p).
  { subst p. unfold Board.run.
    generalize (init_complete storedTasks storedSubjects storedColors store).
    generalize (Board.init storedTasks storedSubjects storedColors store).
    induction events as [|e events IH]; intros q Hq; cbn [fold_left]; [exact Hq|].
    apply IH. now apply handle_complete. }
  destruct H as (Hc & Hp). split.
  - intros s Hin. specialize (Hc s Hin). unfold Board.hasColor, Board.falsy in Hc.
    destruct (Board.lookupColor s _) as [c|]; [|discriminate].
    exists c. split; [reflexivity|]. now apply negb_true_iff, negb_false_iff in Hc.
  - intros t Hin. specialize (Hp t Hin). unfold Board.hasPriority, Board.falsy in Hp.
    destruct (Board.priority t) as [pr|]; [|discriminate].
    exists pr. split; [reflexivity|]. now apply negb_true_iff, negb_false_iff in Hp.
Qed.

Lemma board_complete_witness :
  let p := Board.run Board.compareLength
             [Board.Act (Board.AddSubject (Some " Art "));
              Board.ColorInput (Some "Art") "#ff0000"]
             (Board.init
                [Board.mkTask "1" "Essay" "English" (Some "2024-01-05") None false ""]
                [] [] ∅) in
  (forall s, In s (Board.subjects (Board.app p)) ->
     exists c, Board.lookupColor s (Board.subjectColors (Board.app p)) = Some c
               /\ nonempty c = true)
  /\ (forall t, In t (Board.tasks (Board.app p)) ->
        exists pr, Board.priority t = Some pr /\ nonempty pr = true).
Proof.
  exact (board_complete Board.compareLength
           [Board.Act (Board.AddSubject (Some " Art "));
            Board.ColorInput (Some "Art") "#ff0000"]
           [Board.mkTask "1" "Essay" "English" (Some "2024-01-05") None false ""]
           [] [] ∅ eq_refl).
Defined.

(** *** What [App.init] saves *)

Lemma assignColor_distinct (state : list (string * string) * bool) (sub : string) :
  distinctKeys (map fst (fst state)) = true ->
  distinctKeys (map fst (fst (Board.assignColor state sub))) = true.
Proof.
  destruct state as [colors flag]. unfold Board.assignColor. cbn [fst].
  destruct (Board.falsy _); cbn [fst]; [apply setColor_distinct | trivial].
Qed.

Lemma fold_assignColor_distinct (subs : list string) (state : list (string * string) * bool) :
  distinctKeys (map fst (fst state)) = true ->
  distinctKeys (map fst (fst (fold_left Board.assignColor subs state))) = true.
Proof.
  revert state. induction subs as [|s subs IH]; intros state H; cbn [fold_left]; [exact H|].
  apply IH. now apply assignColor_distinct.
Qed.

Lemma fold_assignColor_true (subs : list string) (colors : list (string * string)) :
  snd (fold_left Board.assignColor subs (colors, true)) = true.
Proof.
  revert colors. induction subs as [|s subs IH]; intros colors; cbn [fold_left]; [reflexivity|].
  unfold Board.assignColor at 2. destruct (Board.falsy _); apply IH.
Qed.

(** The flag stays down only when no colour was assigned. *)
Lemma fold_assignColor_false (subs : list string) (colors : list (string * string)) :
  snd (fold_left Board.assignColor subs (colors, false)) = false ->
  fold_left Board.assignColor subs (colors, false) = (colors, false)
  /\ forall s, In s subs -> Board.hasColor s colors = true.
Proof.
  revert colors. induction subs as [|s subs IH]; intros colors; cbn [fold_left].
  - intros _. split; [reflexivity | intros s []].
  - unfold Board.assignColor at 2 4.
    destruct (Board.falsy (Board.lookupColor s colors)) eqn:E.
    + rewrite fold_assignColor_true. discriminate.
    + intros H. destruct (IH colors H) as (Heq & Hall). split; [exact Heq|].
      intros x [<- | Hin]; [|auto]. unfold Board.hasColor. now rewrite E.
Qed.

Lemma fold_assignColor_none (subs : list string) (colors : list (string * string)) :
  (forall s, In s subs -> Board.hasColor s colors = true) ->
  fold_left Board.assignColor subs (colors, false) = (colors, false).
Proof.
  induction subs as [|s subs IH]; intros H; cbn [fold_left]; [reflexivity|].
  unfold Board.assignColor at 2.
  pose proof (H s (or_introl eq_refl)) as Hs. unfold Board.hasColor in Hs.
  apply negb_true_iff in Hs. rewrite Hs. apply IH. intros x Hx. apply H. now right.
Qed.

Lemma withPriority_all (tasks : list Board.Task) :
  existsb (fun t => Board.falsy (Board.priority t)) tasks = false ->
  map Board.withPriority tasks = tasks.
Proof.
  induction tasks as [|t tasks IH]; cbn [existsb map]; [reflexivity|].
  intros H. apply orb_false_iff in H. destruct H as (Ht & H).
  rewrite (IH H). unfold Board.withPriority. now rewrite Ht.
Qed.

Lemma init_synced (storedTasks : list Board.Task) (storedSubjects : list string)
      (storedColors : list (string * string)) (store : gmap string string) :
  distinctKeys (map fst storedColors) = true ->
  Board.init_tasks store = Board.tasksValue storedTasks ->
  Board.Storage_loadSubjects store = Board.subjectsValue storedSubjects ->
  Board.Storage_loadSubjectColors store = Board.colorsValue storedColors ->
  let p := Board.init storedTasks storedSubjects storedColors store in
  distinctKeys (map fst (Board.subjectColors (Board.app p))) = true
  /\ Board.synced p.
Proof.
  intros Hkeys Ht Hs Hc. unfold Board.init. cbv zeta.
  match goal with
  | |- context [fold_left Board.assignColor ?s _] => set (subjects1 := s)
  end.
  pose proof (fold_assignColor_distinct subjects1 (storedColors, false) Hkeys) as Hd.
  pose proof (fold_assignColor_false subjects1 storedColors) as Hf.
  destruct (fold_left Board.assignColor subjects1 (storedColors, false)) as [colors1 flag].
  cbn [fst snd] in Hd, Hf.
  unfold Board.synced.
  cbn [Board.app Board.localStorage Board.tasks Board.subjects Board.subjectColors].
  split; [exact Hd|].
  subst subjects1.
  destruct flag;
    [rewrite load_saveSubjectColors by exact Hd
    | destruct (Hf eq_refl) as (Hf' & _); injection Hf' as -> ];
    (destruct (existsb _ storedTasks) eqn:Em;
     [|rewrite (withPriority_all _ Em)]);
    destruct ((length storedSubjects =? 0)%nat && negb (length storedTasks =? 0)%nat);
    autorewrite with store; auto.
Qed.

(** X1: through a whole session the store follows the application.
    When the values [App.init] starts from are the stored ones (the colour
    map, an object, has no key twice), then after
    [App.init] and any sequence of events of the page (forms submitted,
    tasks completed and deleted, subjects added and deleted, colours
    picked, the theme toggled) each load returns the value of the field of
    [App] it belongs to: what is stored is what is in memory. *)
Theorem session_synced (localeCompare : string -> string -> Z) (events : list Board.Event)
        (storedTasks : list Board.Task) (storedSubjects : list string)
        (storedColors : list (string * string)) (store : gmap string string) :
  distinctKeys (map fst storedColors) = true ->
  Board.init_tasks store = Board.tasksValue storedTasks ->
  Board.Storage_loadSubjects store = Board.subjectsValue storedSubjects ->
  Board.Storage_loadSubjectColors store = Board.colorsValue storedColors ->
  Board.synced (Board.run localeCompare events
                   (Board.init storedTasks storedSubjects storedColors store)).
Proof.
  intros Hkeys Ht Hs Hc.
  destruct (init_synced storedTasks storedSubjects storedColors store Hkeys Ht Hs Hc)
    as (Hk & Hp).
  now apply run_synced.
Qed.

Lemma session_synced_witness :
  Board.synced
    (Board.run Board.compareLength
       [Board.Act (Board.AddSubject (Some "Math"));
        Board.Act (Board.Submit (Board.mkTaskForm "Essay" "Math" "2024-01-05" (Some "high"))
                      1704209400000 "2024-01-02T15:30:00.000Z");
        Board.ColorInput (Some "Math") "#ff0000";
        Board.Act (Board.CompleteTask "1704209400000")]
       (Board.init [] [] [] ∅)).
Proof.
  apply session_synced; vm_compute; reflexivity.
Defined.

(** *** Trimmed names *)

Lemma trimEnd_idempotent (s : string) : trimEnd (trimEnd s) = trimEnd s.
Proof.
  induction s as [|c s IH]; [reflexivity|].
  cbn [trimEnd]. destruct (trimEnd s) as [|d t] eqn:E.
  - destruct (is_white c) eqn:Ec; [reflexivity|]. cbn [trimEnd]. now rewrite Ec.
  - cbn [trimEnd]. cbn [trimEnd] in IH. now rewrite IH.
Qed.

Lemma trimStart_head (s : string) :
  match trimStart s with
  | EmptyString => True
  | String c _ => is_white c = false
  end.
Proof.
  induction s as [|c s IH]; [exact I|].
  cbn [trimStart]. destruct (is_white c) eqn:E; [exact IH | exact E].
Qed.

Lemma trimEnd_head (c : ascii) (s : string) :
  is_white c = false -> trimEnd (String c s) = String c (trimEnd s).
Proof.
  intros H. cbn [trimEnd]. destruct (trimEnd s); [now rewrite H | reflexivity].
Qed.

Lemma trim_idempotent (s : string) : trim (trim s) = trim s.
Proof.
  unfold trim. pose proof (trimStart_head s) as H.
  destruct (trimStart s) as [|c u]; [reflexivity|].
  rewrite (trimEnd_head c u H). cbn [trimStart]. rewrite H.
  rewrite <- (trimEnd_head c u H). apply trimEnd_idempotent.
Qed.

(** *** Tasks and their subjects *)

(** X3: every event keeps the tasks within the listed subjects: when
    every task belongs to a listed subject and the listed names are
    trimmed, it is so after the event, provided the subject control of a
    submitted form holds the empty value or a listed subject (the options
    the script gives it). *)
Theorem referential_integrity (localeCompare : string -> string -> Z) (e : Board.Event)
        (p : Board.Page) :
  Board.integral p -> Board.fromSelect e p ->
  Board.integral (Board.handle localeCompare e p).
Proof.
  intros (Ht & Hs) Hsel.
  destruct e as [[form now nowISO | id_ | id_ | input | subject_ confirmed] | subj color | q];
    cbn [Board.handle Board.perform].
  - unfold Board.onSubmit.
    destruct (_ || _) eqn:E; [split; assumption|].
    split; cbn [Board.notify Board.app Board.tasks Board.subjects Board.subjectColors];
      [|assumption].
    intros t Hin. apply List.in_app_or in Hin. destruct Hin as [Hin | [<- | []]]; [auto|].
    cbn [Board.subject]. cbn [Board.fromSelect] in Hsel.
    destruct Hsel as [Hsel | Hsel].
    + rewrite Hsel in E. rewrite !orb_false_iff in E.
      destruct E as (((_ & E) & _) & _). discriminate E.
    + now rewrite (Hs _ Hsel).
  - unfold Board.completeTask.
    destruct (Board.markCompleted id_ _) as [tasks'|] eqn:E; [|split; assumption].
    split; cbn [Board.notify Board.app Board.tasks Board.subjects Board.subjectColors];
      [|assumption].
    apply markCompleted_Some in E.
    destruct E as (before & t0 & after & Heq & _ & _ & ->).
    intros t Hin. rewrite Heq in Ht.
    apply List.in_app_or in Hin. destruct Hin as [Hin | [<- | Hin]].
    + apply Ht, List.in_or_app. now left.
    + apply (Ht t0), List.in_or_app. right. now left.
    + apply Ht, List.in_or_app. right. now right.
  - unfold Board.deleteTask.
    destruct (_ <? _)%nat;
      (split; cbn [Board.notify Board.app Board.tasks Board.subjects Board.subjectColors];
       [|assumption]);
      intros t Hin; apply List.filter_In in Hin; apply Ht; tauto.
  - unfold Board.onAddSubject.
    destruct input as [text|]; [|split; assumption].
    destruct (nonempty text); cbn [negb]; [|split; assumption].
    destruct (nonempty (trim text)); cbn [negb]; [|split; assumption].
    destruct (Board.includes _ _); [split; assumption|].
    split; cbn [Board.notify Board.app Board.tasks Board.subjects Board.subjectColors].
    + intros t Hin.
      apply (Permutation_in _ (Permutation_sym (sort_Permutation localeCompare _))).
      apply List.in_or_app. left. auto.
    + intros s Hin.
      apply (Permutation_in _ (sort_Permutation localeCompare _)) in Hin.
      apply List.in_app_or in Hin. destruct Hin as [Hin | [<- | []]]; [auto|].
      apply trim_idempotent.
  - unfold Board.deleteSubject.
    destruct confirmed; cbn [negb]; [|split; assumption].
    split; cbn [Board.notify Board.app Board.tasks Board.subjects Board.subjectColors].
    + intros t Hin. apply List.filter_In in Hin. destruct Hin as (Hin & Hne).
      apply List.filter_In. auto.
    + intros s Hin. apply List.filter_In in Hin. apply Hs. tauto.
  - unfold Board.onColorInput.
    destruct subj as [s|]; [|split; assumption].
    destruct (_ || _); split; assumption.
  - split; assumption.
Qed.

Lemma referential_integrity_witness :
  Board.integral
    (Board.handle Board.compareLength
       (Board.Act (Board.Submit (Board.mkTaskForm "Essay" "Math" "2024-01-05" None)
                      1704209400000 "2024-01-02T15:30:00.000Z"))
       (Board.mkPage (Board.mkApp [] ["Math"] []) ∅ [])).
Proof.
  apply referential_integrity.
  - split; [intros t [] | intros s [<- | []]; reflexivity].
  - right. left. reflexivity.
Defined.

(** X4: loading the page again.  On a state where every listed subject
    has a colour, every task a priority, and there are tasks only when
    there are subjects, [App.init] returns that state and writes nothing. *)
Theorem init_reload (p : Board.Page) :
  Board.complete p ->
  (Board.subjects (Board.app p) = [] -> Board.tasks (Board.app p) = []) ->
  Board.init (Board.tasks (Board.app p)) (Board.subjects (Board.app p))
    (Board.subjectColors (Board.app p)) (Board.localStorage p)
  = {| Board.app := Board.app p; Board.localStorage := Board.localStorage p;
       Board.notifications := [] |}.
Proof.
  intros (Hc & Hp) Hs. destruct p as [[tasks subjects colors] store notes].
  cbn [Board.app Board.tasks Board.subjects Board.subjectColors Board.localStorage] in *.
  unfold Board.init. cbv zeta.
  assert (Hderive : (length subjects =? 0)%nat && negb (length tasks =? 0)%nat = false).
  { destruct subjects; [rewrite Hs by reflexivity|]; reflexivity. }
  rewrite Hderive.
  assert (Hm : existsb (fun t => Board.falsy (Board.priority t)) tasks = false).
  { apply not_true_iff_false. intros H. apply List.existsb_exists in H.
    destruct H as (t & Hin & Ht). specialize (Hp t Hin).
    unfold Board.hasPriority in Hp. rewrite Ht in Hp. discriminate. }
  rewrite Hm, (withPriority_all _ Hm), (fold_assignColor_none _ _ Hc). reflexivity.
Qed.

Lemma init_reload_witness :
  Board.init [] ["Math"] [("Math", "#ff0000")] ∅
  = Board.mkPage (Board.mkApp [] ["Math"] [("Math", "#ff0000")]) ∅ [].
Proof.
  apply (init_reload (Board.mkPage (Board.mkApp [] ["Math"] [("Math", "#ff0000")]) ∅ [])).
  - split; [intros s [<- | []]; reflexivity | intros t []].
  - discriminate.
Defined.

(** *** The subjects and colours [App.init] starts with *)

Lemma setFrom_fold (items acc : list string) :
  List.NoDup acc ->
  List.NoDup (fold_left (fun set x => if Board.includes x set then set else set ++ [x])
                        items acc)
  /\ forall x, In x (fold_left (fun set x => if Board.includes x set then set else set ++ [x])
                               items acc)
               <-> In x acc \/ In x items.
Proof.
  revert acc. induction items as [|y items IH]; intros acc Hacc; cbn [fold_left].
  - split; [exact Hacc | intros x; cbn [In]; tauto].
  - destruct (Board.includes y acc) eqn:E.
    + destruct (IH acc Hacc) as (Hn & Hin). split; [exact Hn|].
      intros x. rewrite Hin. cbn [In]. apply includes_In in E.
      split; [tauto|]. intros [H | [<- | H]]; auto.
    + assert (Hy : ~ In y acc).
      { intros H. apply includes_In in H. congruence. }
      assert (Hacc' : List.NoDup (acc ++ [y])).
      { apply List.NoDup_app; [exact Hacc | repeat constructor; intros [] |].
        intros x Hx [<- | []]. contradiction. }
      destruct (IH (acc ++ [y]) Hacc') as (Hn & Hin). split; [exact Hn|].
      intros x. rewrite Hin, List.in_app_iff. cbn [In]. tauto.
Qed.

(** X5: the subjects [App.init] starts with are the stored list when
    it is not empty or no task is stored; otherwise they are the subjects
    of the stored tasks that are not empty, each once. *)
Theorem init_derives_subjects (storedTasks : list Board.Task) (storedSubjects : list string)
        (storedColors : list (string * string)) (store : gmap string string) :
  let p := Board.init storedTasks storedSubjects storedColors store in
  (storedSubjects <> [] \/ storedTasks = [] ->
     Board.subjects (Board.app p) = storedSubjects)
  /\ (storedSubjects = [] ->
        List.NoDup (Board.subjects (Board.app p))
        /\ forall s, In s (Board.subjects (Board.app p))
                     <-> nonempty s = true
                         /\ exists t, In t storedTasks /\ Board.subject t = s).
Proof.
  intros p. subst p. unfold Board.init. cbv zeta.
  destruct (fold_left Board.assignColor _ _) as [colors1 flag].
  cbn [Board.app Board.subjects]. split.
  - intros [H | ->]; [|now rewrite andb_false_r].
    destruct storedSubjects; [contradiction | reflexivity].
  - intros ->. cbn [length Nat.eqb andb].
    destruct storedTasks as [|t0 ts].
    + cbn [length Nat.eqb negb]. split; [constructor|].
      intros s. split; [intros [] | intros (_ & t & [] & _)].
    + cbn [length Nat.eqb negb]. unfold Board.setFrom.
      destruct (setFrom_fold (List.filter nonempty (map Board.subject (t0 :: ts))) []
                  ltac:(constructor)) as (Hn & Hin).
      split; [exact Hn|]. intros s. rewrite Hin, List.filter_In, List.in_map_iff.
      cbn [In]. split.
      * intros [[] | ((t & Ht & Hint) & Hne)]. eauto.
      * intros (Hne & t & Hint & Ht). right. eauto.
Qed.





(** *** Colours picked by the user *)

Lemma handle_leavesColor (localeCompare : string -> string -> Z) (sub c : string)
      (e : Board.Event) (p : Board.Page) :
  Board.leavesColor sub e = true ->
  In sub (Board.subjects (Board.app p))
  /\ Board.lookupColor sub (Board.subjectColors (Board.app p)) = Some c ->
  In sub (Board.subjects (Board.app (Board.handle localeCompare e p)))
  /\ Board.lookupColor sub (Board.subjectColors (Board.app (Board.handle localeCompare e p)))
     = Some c.
Proof.
  intros Hl (Hin & Hc).
  destruct e as [[form now nowISO | id_ | id_ | input | subject_ confirmed] | subj color | q];
    cbn [Board.handle Board.perform].
  - unfold Board.onSubmit. destruct (_ || _); split; assumption.
  - unfold Board.completeTask. destruct (Board.markCompleted id_ _); split; assumption.
  - unfold Board.deleteTask. destruct (_ <? _)%nat; split; assumption.
  - unfold Board.onAddSubject.
    destruct input as [text|]; [|split; assumption].
    destruct (nonempty text); cbn [negb]; [|split; assumption].
    destruct (nonempty (trim text)); cbn [negb]; [|split; assumption].
    destruct (Board.includes _ _) eqn:E; [split; assumption|].
    cbn [Board.notify Board.app Board.tasks Board.subjects Board.subjectColors]. split.
    + apply (Permutation_in _ (Permutation_sym (sort_Permutation localeCompare _))).
      apply List.in_or_app. now left.
    + rewrite lookupColor_setColor.
      destruct (String.eqb_spec (trim text) sub) as [Heq|]; [|exact Hc].
      rewrite <- Heq in Hin. apply includes_In in Hin. congruence.
  - unfold Board.deleteSubject. cbn [Board.leavesColor] in Hl.
    destruct confirmed; cbn [negb]; [|split; assumption].
    apply negb_true_iff in Hl.
    cbn [Board.notify Board.app Board.tasks Board.subjects Board.subjectColors]. split.
    + apply List.filter_In. split; [exact Hin|]. now rewrite String.eqb_sym, Hl.
    + destruct (match Board.lookupColor subject_ _ with Some c => nonempty c | None => false end);
        [|exact Hc].
      now rewrite lookupColor_deleteColor, Hl.
  - unfold Board.onColorInput. cbn [Board.leavesColor] in Hl.
    destruct subj as [s|]; [|split; assumption].
    destruct (_ || _); [split; assumption|].
    apply negb_true_iff in Hl.
    cbn [Board.app Board.tasks Board.subjects Board.subjectColors]. split; [exact Hin|].
    now rewrite lookupColor_setColor, Hl.
  - split; assumption.
Qed.

(** X7: a colour picked for a listed subject stays, for a subject
    whose name is not the name of a member of [Object.prototype].  After
    any events that neither delete the subject nor pick a colour for it
    again, the colour map holds the picked colour for the subject and the
    card of the subject is drawn with it. *)
Theorem picked_color_stays (localeCompare : string -> string -> Z) (sub color : string)
        (events : list Board.Event) (p : Board.Page) :
  prototypeName sub = false ->
  nonempty sub = true -> nonempty color = true ->
  In sub (Board.subjects (Board.app p)) ->
  forallb (Board.leavesColor sub) events = true ->
  let p' := Board.run localeCompare events (Board.onColorInput (Some sub) color p) in
  Board.lookupColor sub (Board.subjectColors (Board.app p')) = Some color
  /\ forall now, exists card,
       In card (Board.renderSubjects now (Board.subjects (Board.app p'))
                  (Board.tasks (Board.app p')) (Board.subjectColors (Board.app p')))
       /\ Board.cardSubject card = sub /\ Board.cardColor card = color.
Proof.
  intros _ Hsub Hcolor Hin Hev p'.
  assert (H : In sub (Board.subjects (Board.app p'))
              /\ Board.lookupColor sub (Board.subjectColors (Board.app p')) = Some color).
  { subst p'. unfold Board.run.
    assert (H0 : In sub (Board.subjects (Board.app (Board.onColorInput (Some sub) color p)))
                 /\ Board.lookupColor sub
                      (Board.subjectColors (Board.app (Board.onColorInput (Some sub) color p)))
                    = Some color).
    { unfold Board.onColorInput. rewrite Hsub, Hcolor. cbn [negb orb].
      cbn [Board.app Board.subjects Board.subjectColors]. split; [exact Hin|].
      now rewrite lookupColor_setColor, String.eqb_refl. }
    revert H0. generalize (Board.onColorInput (Some sub) color p).
    induction events as [|e events IH]; intros q Hq; cbn [fold_left]; [exact Hq|].
    cbn [forallb] in Hev. apply andb_true_iff in Hev. destruct Hev as (He & Hev).
    apply (IH Hev). now apply handle_leavesColor. }
  destruct H as (Hin' & Hc). split; [exact Hc|].
  intros now. unfold Board.renderSubjects.
  eexists. split; [apply List.in_map; exact Hin'|].
  cbn [Board.cardSubject Board.cardColor]. split; [reflexivity|].
  rewrite Hc. unfold Board.orElse. now rewrite Hcolor.
Qed.

Lemma picked_color_stays_witness :
  Board.lookupColor "Math"
    (Board.subjectColors
       (Board.app
          (Board.run Board.compareLength
             [Board.Act (Board.AddSubject (Some "Art"));
              Board.Act (Board.DeleteSubject "Art" true);
              Board.Act (Board.AddSubject (Some "Math"))]
             (Board.onColorInput (Some "Math") "#ff0000"
                (Board.mkPage (Board.mkApp [] ["Math"] []) ∅ [])))))
  = Some "#ff0000".
Proof.
  refine (proj1 (picked_color_stays Board.compareLength "Math" "#ff0000"
                   [Board.Act (Board.AddSubject (Some "Art"));
                    Board.Act (Board.DeleteSubject "Art" true);
                    Board.Act (Board.AddSubject (Some "Math"))]
                   (Board.mkPage (Board.mkApp [] ["Math"] []) ∅ [])
                   eq_refl eq_refl eq_refl _ eq_refl)).
  left. reflexivity.
Defined.

(** *** What the handlers change *)

Lemma filter_map_swap {A B} (f : A -> B) (keep : B -> bool) (l : list A) :
  List.filter keep (map f l) = map f (List.filter (fun x => keep (f x)) l).
Proof.
  induction l as [|x l IH]; cbn [map List.filter]; [reflexivity|].
  destruct (keep (f x)); cbn [map]; now rewrite IH.
Qed.

Lemma filter_filter_imp {A} (f g : A -> bool) (l : list A) :
  (forall x, f x = true -> g x = true) ->
  List.filter f (List.filter g l) = List.filter f l.
Proof.
  intros H. induction l as [|x l IH]; cbn [List.filter]; [reflexivity|].
  destruct (g x) eqn:Eg; cbn [List.filter].
  - destruct (f x); now rewrite IH.
  - destruct (f x) eqn:Ef; [|exact IH]. apply H in Ef. congruence.
Qed.

(** X8: a confirmed [deleteSubject] removes the card of the subject
    and leaves every other card as it was; the tasks left are exactly the
    tasks of the other subjects; the subject has no colour any more.  A
    deletion that is not confirmed changes nothing. *)
Theorem deleteSubject_cards (now : Z) (sub : string) (p : Board.Page) :
  let p' := Board.deleteSubject sub true p in
  Board.renderSubjects now (Board.subjects (Board.app p')) (Board.tasks (Board.app p'))
    (Board.subjectColors (Board.app p'))
  = List.filter (fun card => negb (String.eqb (Board.cardSubject card) sub))
      (Board.renderSubjects now (Board.subjects (Board.app p)) (Board.tasks (Board.app p))
         (Board.subjectColors (Board.app p)))
  /\ (forall t, In t (Board.tasks (Board.app p'))
                <-> In t (Board.tasks (Board.app p)) /\ Board.subject t <> sub)
  /\ Board.hasColor sub (Board.subjectColors (Board.app p')) = false
  /\ Board.deleteSubject sub false p = p.
Proof.
  intros p'. subst p'. unfold Board.deleteSubject. cbn [negb].
  cbn [Board.notify Board.app Board.tasks Board.subjects Board.subjectColors].
  match goal with
  | |- context [if ?b then Board.deleteColor sub ?c else _] =>
      set (colors' := if b then Board.deleteColor sub c else c)
  end.
  assert (Hother : forall s, s <> sub ->
            Board.lookupColor s colors' = Board.lookupColor s (Board.subjectColors (Board.app p))).
  { intros s Hs. subst colors'.
    destruct (match Board.lookupColor sub _ with Some c => nonempty c | None => false end);
      [|reflexivity].
    rewrite lookupColor_deleteColor.
    destruct (String.eqb_spec sub s); [congruence | reflexivity]. }
  split; [|split; [|split]].
  - unfold Board.renderSubjects. rewrite filter_map_swap. cbn [Board.cardSubject].
    apply List.map_ext_in. intros s Hs. apply List.filter_In in Hs.
    destruct Hs as (_ & Hs). apply negb_true_iff, String.eqb_neq in Hs.
    rewrite (Hother s Hs). f_equal. f_equal. unfold Board.subjectTasks.
    apply filter_filter_imp. intros t Ht. apply andb_true_iff in Ht.
    destruct Ht as (Ht & _). apply String.eqb_eq in Ht. rewrite Ht.
    now apply negb_true_iff, String.eqb_neq.
  - intros t. rewrite List.filter_In, negb_true_iff, String.eqb_neq. tauto.
  - subst colors'. unfold Board.hasColor.
    destruct (Board.lookupColor sub (Board.subjectColors (Board.app p))) as [c|] eqn:E.
    + destruct (nonempty c) eqn:Ec.
      * rewrite lookupColor_deleteColor, String.eqb_refl. reflexivity.
      * rewrite E. cbn [Board.falsy]. now rewrite Ec.
    + now rewrite E.
  - reflexivity.
Qed.

(** X9: [completeTask] with an id that no task has changes nothing (no
    save, no notification); otherwise it marks the first task with the id
    as completed, leaves every other task and the order as they are, saves
    the tasks and notifies. *)
Theorem completeTask_first (id_ : string) (p : Board.Page) :
  (~ In id_ (Board.ids p) -> Board.completeTask id_ p = p)
  /\ (In id_ (Board.ids p) ->
        exists before t after,
          Board.tasks (Board.app p) = before ++ t :: after
          /\ Board.id t = id_ /\ ~ In id_ (map Board.id before)
          /\ Board.completeTask id_ p
             = Board.notify "Task completed!" "success"
                 {| Board.app :=
                      {| Board.tasks := before ++ Board.completedTask t :: after;
                         Board.subjects := Board.subjects (Board.app p);
                         Board.subjectColors := Board.subjectColors (Board.app p) |};
                    Board.localStorage :=
                      Board.Storage_saveTasks
                        (Board.tasksValue (before ++ Board.completedTask t :: after))
                        (Board.localStorage p);
                    Board.notifications := Board.notifications p |}).
Proof.
  unfold Board.completeTask, Board.ids. split; intros H.
  - apply markCompleted_None in H. now rewrite H.
  - destruct (Board.markCompleted id_ (Board.tasks (Board.app p))) as [tasks'|] eqn:E.
    + apply markCompleted_Some in E.
      destruct E as (before & t & after & Heq & Hid & Hnot & ->).
      exists before, t, after. auto.
    + apply markCompleted_None in E. contradiction.
Qed.

Lemma itemId_taskHtml (now : Z) (t : Board.Task) :
  Board.itemId (Board.taskHtml now t) = Board.id t.
Proof.
  unfold Board.taskHtml. cbv zeta.
  repeat match goal with
    | |- context [if ?c then _ else _] => destruct c
    end; reflexivity.
Qed.

Lemma In_shownTasks (now year monthIndex : Z) (stored : list Board.Task)
      (colors : list (string * string)) (t : Board.Task) :
  In t (Calendar.shownTasks (Calendar.refresh now year monthIndex stored colors)) ->
  In t stored /\ Board.completed t = false.
Proof.
  unfold Calendar.shownTasks. rewrite List.in_flat_map.
  intros ([ | | d iso today chips click] & Hcell & Hin); try destruct Hin.
  apply refresh_dayCell in Hcell. destruct Hcell as (_ & _ & -> & ->).
  rewrite map_chipTask in Hin. apply In_sort_filter in Hin. tauto.
Qed.

(** X10: when the ids of the tasks are distinct, a task that has been
    completed is on no card of the board and on no day cell of the
    calendar. *)
Theorem completed_task_hidden (now year monthIndex : Z) (id_ : string) (p : Board.Page) :
  List.NoDup (Board.ids p) -> In id_ (Board.ids p) ->
  let p' := Board.completeTask id_ p in
  (forall card,
      In card (Board.renderSubjects now (Board.subjects (Board.app p'))
                 (Board.tasks (Board.app p')) (Board.subjectColors (Board.app p'))) ->
      ~ In id_ (map Board.itemId (Board.cardTasks card)))
  /\ (forall t,
         In t (Calendar.shownTasks
                 (Calendar.refresh now year monthIndex (Board.tasks (Board.app p'))
                    (Board.subjectColors (Board.app p')))) ->
         Board.id t <> id_).
Proof.
  intros Hnodup Hin p'.
  assert (Hactive : forall t, In t (Board.tasks (Board.app p')) ->
                              Board.completed t = false -> Board.id t <> id_).
  { subst p'. unfold Board.completeTask.
    destruct (Board.markCompleted id_ (Board.tasks (Board.app p))) as [tasks'|] eqn:E;
      [|apply markCompleted_None in E; contradiction].
    apply markCompleted_Some in E.
    destruct E as (before & t0 & after & Heq & Hid & Hnot & ->).
    cbn [Board.notify Board.app Board.tasks].
    unfold Board.ids in Hnodup. rewrite Heq, map_app in Hnodup. cbn [map] in Hnodup.
    apply List.NoDup_remove_2 in Hnodup. rewrite Hid in Hnodup.
    intros t Ht Hc Hidt. apply List.in_app_or in Ht. destruct Ht as [Ht | [<- | Ht]].
    - apply Hnot. rewrite <- Hidt. now apply List.in_map.
    - discriminate Hc.
    - apply Hnodup, List.in_or_app. right. rewrite <- Hidt. now apply List.in_map. }
  split.
  - intros card Hcard Hid. unfold Board.renderSubjects in Hcard.
    apply List.in_map_iff in Hcard. destruct Hcard as (s & <- & _).
    cbn [Board.cardTasks] in Hid. rewrite map_map in Hid.
    apply List.in_map_iff in Hid. destruct Hid as (t & Hidt & Ht).
    unfold Board.subjectTasks in Ht. apply List.filter_In in Ht.
    destruct Ht as (Ht & Hf). apply andb_true_iff in Hf. destruct Hf as (_ & Hf).
    apply negb_true_iff in Hf. rewrite itemId_taskHtml in Hidt.
    exact (Hactive t Ht Hf Hidt).
  - intros t Ht. apply In_shownTasks in Ht. destruct Ht as (Ht & Hc). now apply Hactive.
Qed.

Lemma completed_task_hidden_witness :
  forallb (fun t => negb (String.eqb (Board.id t) "1"))
    (Calendar.shownTasks
       (Calendar.refresh 1704209400000 2024 0
          (Board.tasks
             (Board.app
                (Board.completeTask "1"
                   (Board.mkPage
                      (Board.mkApp
                         [Board.mkTask "1" "Essay" "English" (Some "2024-01-05") (Some "high")
                            false "";
                          Board.mkTask "2" "Sums" "Math" (Some "2024-01-05") (Some "low")
                            false ""]
                         ["English"; "Math"] []) ∅ [])))) []))
  = true.
Proof.
  apply List.forallb_forall. intros t Ht. apply negb_true_iff, String.eqb_neq.
  refine (proj2 (completed_task_hidden 1704209400000 2024 0 "1"
                   (Board.mkPage
                      (Board.mkApp
                         [Board.mkTask "1" "Essay" "English" (Some "2024-01-05") (Some "high")
                            false "";
                          Board.mkTask "2" "Sums" "Math" (Some "2024-01-05") (Some "low")
                            false ""]
                         ["English"; "Math"] []) ∅ []) _ _) t Ht).
  - repeat constructor; cbn; intuition discriminate.
  - left. reflexivity.
Defined.

(** X11: [deleteTask] leaves exactly the tasks with another id.  When a
    task had the id, the tasks are saved and the deletion is notified;
    otherwise the page only gets the error notification. *)
Theorem deleteTask_outcome (id_ : string) (p : Board.Page) :
  let p' := Board.deleteTask id_ p in
  (forall t, In t (Board.tasks (Board.app p'))
             <-> In t (Board.tasks (Board.app p)) /\ Board.id t <> id_)
  /\ (In id_ (Board.ids p) ->
        Board.localStorage p'
        = Board.Storage_saveTasks (Board.tasksValue (Board.tasks (Board.app p')))
            (Board.localStorage p)
        /\ Board.notifications p' = Board.notifications p ++ [("Task deleted", "info")])
  /\ (~ In id_ (Board.ids p) ->
        p' = Board.notify "Error: Task not found" "error" p).
Proof.
  intros p'. subst p'. unfold Board.deleteTask, Board.ids.
  set (keep := fun t => negb (String.eqb (Board.id t) id_)).
  assert (Hlen : (length (List.filter keep (Board.tasks (Board.app p)))
                  <? length (Board.tasks (Board.app p)))%nat = true
                 <-> In id_ (map Board.id (Board.tasks (Board.app p)))).
  { rewrite Nat.ltb_lt. generalize (Board.tasks (Board.app p)). intros l.
    induction l as [|t l IH]; cbn [List.filter length map In]; [lia|].
    pose proof (List.filter_length_le keep l) as Hle.
    unfold keep at 1. destruct (String.eqb_spec (Board.id t) id_) as [E|E]; cbn [negb length].
    - split; [auto | lia].
    - rewrite <- Nat.succ_lt_mono, IH. tauto. }
  split; [|split].
  - intros t. destruct (_ <? _)%nat; cbn [Board.notify Board.app Board.tasks];
      rewrite List.filter_In; unfold keep; rewrite negb_true_iff, String.eqb_neq; tauto.
  - intros H. apply Hlen in H. rewrite H. split; reflexivity.
  - intros H.
    assert (E : (length (List.filter keep (Board.tasks (Board.app p)))
                 <? length (Board.tasks (Board.app p)))%nat = false)
      by (apply not_true_iff_false; intros E; apply Hlen in E; contradiction).
    rewrite E. apply Nat.ltb_ge in E. rewrite (filter_length_all _ _ E).
    destruct p as [[tasks subjects colors] store notes]. reflexivity.
Qed.

(** X12: [onSubmit] accepts the form exactly when the trimmed name, the
    trimmed subject and the due date are not empty (the priority falls
    back to medium and is never missing).  A rejected form changes nothing
    but for the error notification.  An accepted form appends one task,
    not completed, with the clock reading as its id, and saves the tasks;
    the task is the last one of the card of its subject and the other
    cards list what they listed. *)
Theorem onSubmit_outcome (form : Board.TaskForm) (now : Z) (nowISO : string)
        (p : Board.Page) :
  let name_ := trim (Board.taskName form) in
  let subject_ := trim (Board.taskSubjectSelect form) in
  let valid := nonempty name_ && nonempty subject_ && nonempty (Board.taskDueDate form) in
  let p' := Board.onSubmit form now nowISO p in
  (valid = false -> p' = Board.notify "Please fill in all fields" "error" p)
  /\ (valid = true ->
        exists task,
          Board.tasks (Board.app p') = Board.tasks (Board.app p) ++ [task]
          /\ Board.id task = toString now /\ Board.name task = name_
          /\ Board.subject task = subject_
          /\ Board.dueDate task = Some (Board.taskDueDate form)
          /\ Board.priority task = Some (Board.orElse (Board.taskPriority form) "medium")
          /\ Board.hasPriority task = true
          /\ Board.completed task = false
          /\ Board.init_tasks (Board.localStorage p')
             = Board.tasksValue (Board.tasks (Board.app p'))
          /\ (forall s,
                 Board.subjectTasks s (Board.tasks (Board.app p'))
                 = Board.subjectTasks s (Board.tasks (Board.app p))
                   ++ (if String.eqb subject_ s then [task] else []))
          /\ Board.notifications p'
             = Board.notifications p ++ [("Task added successfully!", "success")]).
Proof.
  intros name_ subject_ valid p'. subst p'. unfold Board.onSubmit. cbv zeta.
  fold name_ subject_.
  assert (Hpr : nonempty (Board.orElse (Board.taskPriority form) "medium") = true)
    by now apply orElse_nonempty.
  rewrite Hpr. cbn [negb]. rewrite orb_false_r.
  replace (negb (nonempty name_) || negb (nonempty subject_)
           || negb (nonempty (Board.taskDueDate form))) with (negb valid)
    by (subst valid; now rewrite !negb_andb).
  split; intros ->; cbn [negb]; [reflexivity|].
  eexists. cbn [Board.notify Board.app Board.tasks Board.localStorage Board.notifications].
  split; [reflexivity|].
  cbn [Board.id Board.name Board.subject Board.dueDate Board.priority Board.completed].
  repeat (split; [reflexivity|]).
  split; [unfold Board.hasPriority; cbn [Board.priority Board.falsy]; now rewrite Hpr|].
  split; [reflexivity|]. split; [apply load_saveTasks|]. split; [|reflexivity].
  intros s. unfold Board.subjectTasks. rewrite List.filter_app. f_equal.
  cbn [List.filter Board.subject Board.completed negb]. rewrite andb_true_r. reflexivity.
Qed.

(** X13: [onAddSubject], for an answer whose trimmed text is not the
    name of a member of [Object.prototype], does nothing when the prompt
    is cancelled or the answer blank, and only notifies an error for a
    name that is listed; otherwise the list gains exactly the trimmed
    name, the name gets its generated colour, the colours of the other
    names and the tasks stay, and the list is saved. *)
Theorem onAddSubject_outcome (localeCompare : string -> string -> Z)
        (input : option string) (p : Board.Page) :
  (forall text, input = Some text -> prototypeName (trim text) = false) ->
  let p' := Board.onAddSubject localeCompare input p in
  match input with
  | None => p' = p
  | Some text =>
      let name_ := trim text in
      if negb (nonempty name_) then p' = p
      else if Board.includes name_ (Board.subjects (Board.app p))
      then p' = Board.notify "Subject already exists" "error" p
      else
        (forall s, In s (Board.subjects (Board.app p'))
                   <-> s = name_ \/ In s (Board.subjects (Board.app p)))
        /\ length (Board.subjects (Board.app p'))
           = S (length (Board.subjects (Board.app p)))
        /\ Board.lookupColor name_ (Board.subjectColors (Board.app p'))
           = Some (Board.generateColorFor name_)
        /\ (forall s, s <> name_ ->
              Board.lookupColor s (Board.subjectColors (Board.app p'))
              = Board.lookupColor s (Board.subjectColors (Board.app p)))
        /\ Board.tasks (Board.app p') = Board.tasks (Board.app p)
        /\ Board.Storage_loadSubjects (Board.localStorage p')
           = Board.subjectsValue (Board.subjects (Board.app p'))
        /\ Board.notifications p' = Board.notifications p ++ [("Subject added", "success")]
  end.
Proof.
  intros _ p'. subst p'. unfold Board.onAddSubject.
  destruct input as [text|]; [|reflexivity]. cbv zeta.
  destruct (nonempty text) eqn:Et; cbn [negb].
  2:{ destruct text; [|discriminate]. reflexivity. }
  destruct (nonempty (trim text)) eqn:En; cbn [negb]; [|reflexivity].
  destruct (Board.includes (trim text) _) eqn:Ei; [reflexivity|].
  cbn [Board.notify Board.app Board.tasks Board.subjects Board.subjectColors
         Board.localStorage Board.notifications].
  pose proof (sort_Permutation localeCompare
                (Board.subjects (Board.app p) ++ [trim text])) as Hperm.
  split; [|split; [|split; [|split; [|split; [|split]]]]].
  - intros s. split.
    + intros H. apply (Permutation_in _ Hperm) in H.
      apply List.in_app_or in H. destruct H as [H | [<- | []]]; auto.
    + intros H. apply (Permutation_in _ (Permutation_sym Hperm)).
      apply List.in_or_app. destruct H as [-> | H]; [right; now left | now left].
  - rewrite (Permutation_length Hperm), length_app. cbn [length]. lia.
  - now rewrite lookupColor_setColor, String.eqb_refl.
  - intros s Hs. rewrite lookupColor_setColor.
    destruct (String.eqb_spec (trim text) s); [congruence | reflexivity].
  - reflexivity.
  - autorewrite with store. reflexivity.
  - reflexivity.
Qed.

Lemma onAddSubject_outcome_witness :
  let p := Board.mkPage (Board.mkApp [] ["Art"] []) ∅ [] in
  let p' := Board.onAddSubject Board.compareLength (Some " Math ") p in
  Board.subjects (Board.app p') = ["Art"; "Math"]
  /\ Board.lookupColor "Math" (Board.subjectColors (Board.app p'))
     = Some (Board.generateColorFor "Math")
  /\ Board.notifications p' = [("Subject added", "success")].
Proof.
  intros p p'.
  pose proof (onAddSubject_outcome Board.compareLength (Some " Math ") p
                ltac:(intros text [= <-]; reflexivity)) as H.
  split; [reflexivity|].
  destruct H as (_ & _ & Hcolor & _ & _ & _ & Hnote).
  split; [exact Hcolor | exact Hnote].
Defined.

(** ** Dates through the form *)

Lemma isDigit_cases (c : ascii) :
  isDigit c = true -> Ascii.eqb c "-" = false /\ Ascii.eqb c "+" = false /\ is_white c = false.
Proof.
  destruct c as [[] [] [] [] [] [] [] []]; vm_compute; intros H;
    first [discriminate H | repeat split].
Qed.

Lemma string_of_uint_digits (d : Decimal.uint) :
  forallb isDigit (list_ascii_of_string (NilEmpty.string_of_uint d)) = true.
Proof.
  induction d; cbn [NilEmpty.string_of_uint list_ascii_of_string forallb];
    [reflexivity | ..]; rewrite IHd; reflexivity.
Qed.

Lemma toString_digits (n : Z) : 0 <= n -> allDigits (toString n) = true.
Proof.
  intros Hn. rewrite toString_cases. destruct n as [|p|p]; [reflexivity| |lia].
  pose proof (to_uint_head p) as Hh.
  unfold allDigits, NilZero.string_of_uint.
  pose proof (string_of_uint_digits (Pos.to_uint p)) as Hd.
  destruct (Pos.to_uint p); try contradiction; rewrite Hd; reflexivity.
Qed.

Lemma padStart2_digits (s : string) :
  allDigits s = true -> allDigits (padStart2 s) = true.
Proof.
  destruct s as [|a [|b s]]; [discriminate | | trivial].
  unfold allDigits. cbn [padStart2 nonempty andb list_ascii_of_string forallb].
  intros ->. reflexivity.
Qed.

Lemma split_digits (s : string) :
  forallb isDigit (list_ascii_of_string s) = true -> split "-" s = [s].
Proof.
  induction s as [|c s IH]; [reflexivity|].
  cbn [list_ascii_of_string forallb split]. intros H.
  apply andb_true_iff in H. destruct H as (Hc & Hs).
  destruct (isDigit_cases c Hc) as (-> & _). now rewrite (IH Hs).
Qed.

Lemma split_digits_app (a b : string) :
  forallb isDigit (list_ascii_of_string a) = true ->
  split "-" (a +:+ String "-" b) = a :: split "-" b.
Proof.
  induction a as [|c a IH]; [reflexivity|].
  cbn [list_ascii_of_string forallb]. intros H.
  apply andb_true_iff in H. destruct H as (Hc & Ha).
  rewrite append_cons. cbn [split].
  destruct (isDigit_cases c Hc) as (-> & _). now rewrite (IH Ha).
Qed.

Lemma trimEnd_digits (s : string) :
  forallb isDigit (list_ascii_of_string s) = true -> trimEnd s = s.
Proof.
  induction s as [|c s IH]; [reflexivity|].
  cbn [list_ascii_of_string forallb trimEnd]. intros H.
  apply andb_true_iff in H. destruct H as (Hc & Hs).
  rewrite (IH Hs). destruct (isDigit_cases c Hc) as (_ & _ & ->).
  destruct s; reflexivity.
Qed.

Lemma Number_digits (s : string) :
  allDigits s = true -> Number (Some s) = Some (fst (parseDigits 0 s)).
Proof.
  intros H. pose proof H as Hall. unfold allDigits in H.
  apply andb_true_iff in H. destruct H as (Hne & Hd).
  unfold Number, trim.
  destruct s as [|c s]; [discriminate|].
  cbn [list_ascii_of_string forallb] in Hd. pose proof Hd as Hd'.
  apply andb_true_iff in Hd. destruct Hd as (Hc & Hs).
  cbn [trimStart]. destruct (isDigit_cases c Hc) as (Hm & Hp & ->).
  rewrite trimEnd_digits by exact Hd'.
  destruct c as [[] [] [] [] [] [] [] []]; try discriminate Hm; try discriminate Hp;
    now rewrite Hall.
Qed.

Lemma local_midnight_valid (t : Z) :
  Z.abs t <= 8640000000000000 -> timeClip (day t * msPerDay) = Some (day t * msPerDay).
Proof.
  intros H. apply timeClip_valid. unfold day, msPerDay in *.
  pose proof (Z.div_mod t 86400000 ltac:(lia)).
  pose proof (Z.mod_pos_bound t 86400000 ltac:(lia)).
  assert (-100000000 <= t / 86400000 <= 100000000).
  { split.
    - apply Z.div_le_lower_bound; lia.
    - apply Z.div_le_upper_bound; lia. }
  lia.
Qed.

(** The date [formatLocalISO] prints is read as the local midnight of its
    day. *)
Lemma parseLocalYMD_printed (t : Z) :
  Z.abs t <= 8640000000000000 -> 100 <= yearFromDay (day t) ->
  Board.parseLocalYMD (Some (Board.formatLocalISO (Some t))) = Some (day t * msPerDay).
Proof.
  intros Ht Hy.
  pose proof (monthFromDay_range (day t)) as Hm.
  pose proof (dateFromDay_range (day t)) as Hd.
  pose proof (dateFromDay_small (day t)) as Hd'.
  unfold Board.parseLocalYMD.
  pose proof (formatLocalISO_nonempty (Some t)) as Hne.
  unfold Calendar.formatLocalISO in Hne. rewrite Hne. cbn [negb].
  unfold Board.formatLocalISO.
  cbn [getFullYear getMonth getDate option_map numString].
  set (y := yearFromDay (day t)) in *.
  set (m := monthFromDay (day t)) in *.
  set (d := dateFromDay (day t)) in *.
  assert (Hys : allDigits (toString y) = true) by (apply toString_digits; lia).
  assert (Hms : allDigits (padStart2 (toString (m + 1))) = true)
    by (apply padStart2_digits, toString_digits; lia).
  assert (Hds : allDigits (padStart2 (toString d)) = true)
    by (apply padStart2_digits, toString_digits; lia).
  change ("-" +:+ ?x) with (String "-" x).
  rewrite split_digits_app
    by (unfold allDigits in Hys; apply andb_true_iff in Hys; tauto).
  change ("-" +:+ ?x) with (String "-" x).
  rewrite split_digits_app
    by (unfold allDigits in Hms; apply andb_true_iff in Hms; tauto).
  rewrite split_digits
    by (unfold allDigits in Hds; apply andb_true_iff in Hds; tauto).
  cbn [nth_error].
  rewrite !Number_digits by assumption.
  rewrite parseDigits_toString by lia. rewrite !padStart2_decode by lia.
  cbn [fst Board.orOne].
  destruct (Z.eqb_spec (m + 1) 0) as [E|_]; [lia|].
  destruct (Z.eqb_spec d 0) as [E|_]; [lia|].
  unfold newDate.
  destruct (Z.leb_spec y 99) as [E|_]; [lia|]. rewrite andb_false_r.
  replace (m + 1 - 1) with m by ring.
  subst y m d. rewrite fields_makeDay. now apply local_midnight_valid.
Qed.

(** X14: [parseLocalYMD] reads a date printed by [formatLocalISO] back
    as the local midnight of the same day, for a valid date of a year from
    100 on; printing the date read gives the text again. *)
Theorem parseLocalYMD_formatLocalISO (t : Z) :
  Z.abs t <= 8640000000000000 -> 100 <= yearFromDay (day t) ->
  Board.parseLocalYMD (Some (Board.formatLocalISO (Some t))) = Some (day t * msPerDay)
  /\ Board.formatLocalISO (Board.parseLocalYMD (Some (Board.formatLocalISO (Some t))))
     = Board.formatLocalISO (Some t).
Proof.
  intros Ht Hy. rewrite parseLocalYMD_printed by assumption.
  split; [reflexivity|].
  unfold Board.formatLocalISO. cbn [getFullYear getMonth getDate option_map].
  now rewrite day_midnight.
Qed.

Lemma parseLocalYMD_formatLocalISO_witness :
  Board.parseLocalYMD (Some (Board.formatLocalISO (Some 1704209400000)))
  = Some (day 1704209400000 * msPerDay).
Proof.
  apply (proj1 (parseLocalYMD_formatLocalISO 1704209400000
                  ltac:(vm_compute; discriminate) ltac:(vm_compute; discriminate))).
Defined.

(** X15: a task whose due date is the date the form is filled with at
    the start ([formatLocalISO(new Date())]) is shown as due today on that
    day, and as overdue on every later day. *)
Theorem default_due_date_today (filled now : Z) (task : Board.Task) :
  Z.abs filled <= 8000000000000000 -> Z.abs now <= 8000000000000000 ->
  100 <= yearFromDay (day filled) ->
  Board.dueDate task = Some (Board.formatLocalISO (Some filled)) ->
  let item := Board.taskHtml now task in
  (day now = day filled ->
     Board.cls item = "due-soon"
     /\ Board.txt item = "Due Today - " +:+ Board.formatLongDate (Some now))
  /\ (day filled < day now -> Board.cls item = "overdue").
Proof.
  intros Hfilled Hnow Hy Hdue item.
  destruct (today_tomorrow now Hnow) as [Htoday Htomorrow].
  subst item. unfold Board.taskHtml. cbv zeta.
  rewrite Hdue, parseLocalYMD_printed by lia.
  rewrite Htomorrow, Htoday. cbn [dateLt].
  split; intros H.
  - rewrite H, Z.ltb_irrefl, String.eqb_refl. split; [reflexivity|].
    cbn [Board.txt]. f_equal.
    unfold Board.formatLongDate, toLocaleDateStringShort.
    now rewrite day_midnight, H.
  - rewrite (proj2 (Z.ltb_lt _ _)) by (unfold msPerDay; lia). reflexivity.
Qed.

Lemma default_due_date_today_witness :
  Board.cls (Board.taskHtml 1704209400000
               {| Board.id := "1"; Board.name := "Essay"; Board.subject := "English";
                  Board.dueDate := Some (Board.formatLocalISO (Some 1704200000000));
                  Board.priority := Some "high"; Board.completed := false;
                  Board.createdAt := "" |}) = "due-soon".
Proof.
  refine (proj1 (proj1 (default_due_date_today 1704200000000 1704209400000
                          (Board.mkTask "1" "Essay" "English"
                             (Some (Board.formatLocalISO (Some 1704200000000)))
                             (Some "high") false "") _ _ _ eq_refl) _));
    [vm_compute; discriminate | vm_compute; discriminate | vm_compute; discriminate
    | reflexivity].
Defined.

Lemma weekdayShort_chars (w : Z) :
  exists a b c, weekdayShort w = String a (String b (String c EmptyString)).
Proof.
  pose proof (weekdayShort_length w) as H.
  destruct (weekdayShort w) as [|a [|b [|c [|d s]]]]; try discriminate H. eauto.
Qed.

Lemma toDateString_valid (t : Z) :
  String.eqb "Invalid Date" (toDateString (Some t)) = false.
Proof.
  rewrite toDateString_parts.
  destruct (weekdayShort_chars (weekDay (day t))) as (a & b & c & ->).
  rewrite !append_cons, append_nil_l. change (" " +:+ ?x) with (String " " x).
  apply String.eqb_neq. intros H. injection H as _ _ _ H _. discriminate H.
Qed.

(** X16: a task whose due date is missing, empty or not a date gets the
    label Invalid Date and no class: it is never shown as overdue or as
    due soon. *)
Theorem taskHtml_invalid_date (now : Z) (task : Board.Task) :
  Z.abs now <= 8000000000000000 ->
  Board.parseLocalYMD (Board.dueDate task) = None ->
  Board.cls (Board.taskHtml now task) = EmptyString
  /\ Board.txt (Board.taskHtml now task) = "Invalid Date".
Proof.
  intros Hnow Hdue.
  destruct (today_tomorrow now Hnow) as [Htoday Htomorrow].
  unfold Board.taskHtml. cbv zeta.
  rewrite Hdue, Htomorrow, Htoday. cbn [dateLt].
  change (toDateString None) with "Invalid Date".
  rewrite !toDateString_valid. split; reflexivity.
Qed.

Lemma taskHtml_invalid_date_witness :
  Board.txt (Board.taskHtml 1704209400000
               {| Board.id := "1"; Board.name := "Essay"; Board.subject := "English";
                  Board.dueDate := Some "soon"; Board.priority := None;
                  Board.completed := false; Board.createdAt := "" |}) = "Invalid Date".
Proof.
  refine (proj2 (taskHtml_invalid_date 1704209400000
                   (Board.mkTask "1" "Essay" "English" (Some "soon") None false "")
                   _ eq_refl)).
  vm_compute. discriminate.
Defined.

(** ** The badge of a stored due date *)

Lemma monthStart_next (leap : bool) (m : Z) :
  0 <= m <= 11 -> monthStart leap m + 28 <= monthStart leap (m + 1).
Proof.
  intros Hm. apply month_index_cases in Hm.
  destruct leap; month_cases Hm.
Qed.

Lemma monthStart_mono (leap : bool) (a b : Z) :
  0 <= a -> a <= b -> b <= 12 -> monthStart leap a <= monthStart leap b.
Proof.
  intros Ha Hab Hb.
  replace b with (a + Z.of_nat (Z.to_nat (b - a))) in * by lia.
  induction (Z.to_nat (b - a)) as [|k IH].
  - rewrite Z.add_0_r. lia.
  - pose proof (monthStart_next leap (a + Z.of_nat k) ltac:(lia)).
    replace (a + Z.of_nat (S k)) with (a + Z.of_nat k + 1) by lia.
    specialize (IH ltac:(lia) ltac:(lia)). lia.
Qed.

Lemma monthStart_year (y : Z) : monthStart (inLeapYear y) 12 = daysInYear y.
Proof. unfold daysInYear. destruct (inLeapYear y); reflexivity. Qed.

Lemma makeDay_month (y m d : Z) :
  0 <= m <= 11 -> makeDay y m d = dayFromYear y + monthStart (inLeapYear y) m + d - 1.
Proof.
  intros Hm. unfold makeDay.
  rewrite (Z.div_small m 12), (Z.mod_small m 12), Z.add_0_r by lia. reflexivity.
Qed.

(** The day numbers order the dates as the calendar does. *)
Lemma makeDay_before (y m d y' m' d' : Z) :
  1 <= m <= 12 -> 1 <= d <= daysIn y (m - 1) ->
  1 <= m' <= 12 -> 1 <= d' <= daysIn y' (m' - 1) ->
  Contract.before (y, m, d) (y', m', d') ->
  makeDay y (m - 1) d < makeDay y' (m' - 1) d'.
Proof.
  intros Hm Hd Hm' Hd' Hlt.
  rewrite !makeDay_month by lia. unfold daysIn in Hd, Hd'.
  replace (m - 1 + 1) with m in Hd by ring.
  replace (m' - 1 + 1) with m' in Hd' by ring.
  pose proof (monthStart_mono (inLeapYear y) m 12 ltac:(lia) ltac:(lia) ltac:(lia)) as H1.
  rewrite monthStart_year in H1.
  pose proof (monthStart_mono (inLeapYear y') 0 (m' - 1) ltac:(lia) ltac:(lia) ltac:(lia))
    as H2.
  change (monthStart (inLeapYear y') 0) with 0 in H2.
  cbn [Contract.before] in Hlt. destruct Hlt as [Hy | (<- & [Hmm | (<- & Hdd)])].
  - pose proof (dayFromYear_succ y). pose proof (dayFromYear_mono (y + 1) y' ltac:(lia)). lia.
  - pose proof (monthStart_mono (inLeapYear y) m (m' - 1) ltac:(lia) ltac:(lia) ltac:(lia)).
    lia.
  - lia.
Qed.

Lemma dateOf_fields (t : Z) :
  let '(y, m, d) := Contract.dateOf t in
  1 <= m <= 12 /\ 1 <= d <= daysIn y (m - 1) /\ makeDay y (m - 1) d = day t.
Proof.
  unfold Contract.dateOf.
  pose proof (monthFromDay_range (day t)). pose proof (dateFromDay_range (day t)).
  replace (monthFromDay (day t) + 1 - 1) with (monthFromDay (day t)) by ring.
  rewrite fields_makeDay. repeat split; lia.
Qed.

Lemma day_next (t : Z) : day (t + msPerDay) = day t + 1.
Proof.
  unfold day, msPerDay. replace (t + 86400000) with (t + 1 * 86400000) by ring.
  now rewrite Z.div_add by lia.
Qed.

Lemma padStart4_digits (y : Z) :
  0 <= y -> allDigits (padStart4 (toString y)) = true
            /\ fst (parseDigits 0 (padStart4 (toString y))) = y.
Proof.
  intros Hy. split.
  - pose proof (toString_digits y Hy) as H. unfold allDigits in *.
    apply andb_true_iff in H. destruct H as (Hne & Hd).
    unfold padStart4.
    destruct (toString y) as [|c1 [|c2 [|c3 [|c4 s]]]]; cbn [String.length];
      [discriminate Hne | | | | ];
      rewrite ?append_cons, ?append_nil_l;
      cbn [nonempty andb list_ascii_of_string forallb] in Hd |- *;
      first [exact Hd | reflexivity].
  - rewrite parseDigits_padStart4, parseDigits_toString by lia. reflexivity.
Qed.

(** [parseLocalYMD] reads a date of the data model as the local midnight of
    the day the text names. *)
Lemma parseLocalYMD_isoDate (y m d : Z) :
  100 <= y <= 9999 -> 1 <= m <= 12 -> 1 <= d <= daysIn y (m - 1) ->
  Board.parseLocalYMD (Some (Contract.isoDate y m d))
  = Some (makeDay y (m - 1) d * msPerDay).
Proof.
  intros Hy Hm Hd.
  pose proof (daysIn_range y (m - 1) ltac:(lia)) as Hdays.
  unfold Board.parseLocalYMD, Contract.isoDate.
  destruct (padStart4_digits y ltac:(lia)) as (Hys & Hyv).
  assert (Hms : allDigits (padStart2 (toString m)) = true)
    by (apply padStart2_digits, toString_digits; lia).
  assert (Hds : allDigits (padStart2 (toString d)) = true)
    by (apply padStart2_digits, toString_digits; lia).
  destruct (padStart4_head y ltac:(lia)) as (c & s & Hhead & _).
  rewrite Hhead. rewrite append_cons. cbn [nonempty negb]. rewrite <- append_cons, <- Hhead.
  change ("-" +:+ ?x) with (String "-" x).
  rewrite split_digits_app
    by (unfold allDigits in Hys; apply andb_true_iff in Hys; tauto).
  change ("-" +:+ ?x) with (String "-" x).
  rewrite split_digits_app
    by (unfold allDigits in Hms; apply andb_true_iff in Hms; tauto).
  rewrite split_digits
    by (unfold allDigits in Hds; apply andb_true_iff in Hds; tauto).
  cbn [nth_error].
  rewrite !Number_digits by assumption.
  rewrite Hyv, !padStart2_decode by lia.
  cbn [fst Board.orOne].
  destruct (Z.eqb_spec m 0) as [E|_]; [lia|].
  destruct (Z.eqb_spec d 0) as [E|_]; [lia|].
  unfold newDate.
  destruct (Z.leb_spec y 99) as [E|_]; [lia|]. rewrite andb_false_r.
  apply timeClip_valid. apply makeDay_bound; lia.
Qed.

(** [formatLongDate] on the local midnight of a date: weekday, month,
    day and year. *)
Lemma formatLongDate_date (y m d : Z) :
  1 <= m <= 12 -> 1 <= d <= daysIn y (m - 1) ->
  Board.formatLongDate (Some (makeDay y (m - 1) d * msPerDay))
  = weekdayShort (weekDay (makeDay y (m - 1) d)) +:+ ", " +:+ monthShort (m - 1)
    +:+ " " +:+ toString d +:+ ", " +:+ toString y.
Proof.
  intros Hm Hd. unfold Board.formatLongDate, toLocaleDateStringShort.
  cbv zeta. rewrite day_midnight.
  destruct (makeDay_fields y (m - 1) d ltac:(lia) Hd) as (-> & -> & ->). reflexivity.
Qed.

(** C8: the badge of a task compares the calendar date of its due date
    with the date of the clock, whatever the time of day.  For a task
    whose due date is the text [YYYY-MM-DD] of a date of the years 100
    to 9999, [parseLocalYMD] gives the local midnight of that date, and:
    a date before today gives class ["overdue"] and the label
    ["Overdue - "] followed by the date as weekday, month, day and year;
    today's date gives class ["due-soon"] and ["Due Today - "], the date
    of tomorrow class ["due-soon"] and ["Due Tomorrow - "]; a later date
    gives no class and the date alone.  The local calendar is taken to
    have the due date and the day after today (no day skipped by the time
    zone). *)
Theorem due_date_badge (now : Z) (task : Board.Task) (y m d : Z) :
  Z.abs now <= 8000000000000000 ->
  100 <= y <= 9999 -> 1 <= m <= 12 -> 1 <= d <= daysIn y (m - 1) ->
  dateExists y (m - 1) d ->
  option_map Contract.dateOf (Board.tomorrowOf now) = Some (Contract.dateOf (now + msPerDay)) ->
  Board.dueDate task = Some (Contract.isoDate y m d) ->
  let item := Board.taskHtml now task in
  let label :=
    weekdayShort (weekDay (makeDay y (m - 1) d)) +:+ ", " +:+ monthShort (m - 1)
    +:+ " " +:+ toString d +:+ ", " +:+ toString y in
  Board.parseLocalYMD (Board.dueDate task) = Some (makeDay y (m - 1) d * msPerDay)
  /\ (Contract.before (y, m, d) (Contract.dateOf now) ->
        Board.cls item = "overdue" /\ Board.txt item = "Overdue - " +:+ label)
  /\ ((y, m, d) = Contract.dateOf now ->
        Board.cls item = "due-soon" /\ Board.txt item = "Due Today - " +:+ label)
  /\ ((y, m, d) = Contract.dateOf (now + msPerDay) ->
        Board.cls item = "due-soon" /\ Board.txt item = "Due Tomorrow - " +:+ label)
  /\ (Contract.before (Contract.dateOf (now + msPerDay)) (y, m, d) ->
        Board.cls item = EmptyString /\ Board.txt item = label).
Proof.
  intros Hnow Hy Hm Hd _ _ Hdue item label.
  assert (Hparse : Board.parseLocalYMD (Board.dueDate task)
                   = Some (makeDay y (m - 1) d * msPerDay))
    by (rewrite Hdue; now apply parseLocalYMD_isoDate).
  pose proof (badge_of_due now task _ Hnow Hparse) as H.
  cbv zeta in H. rewrite day_midnight, formatLongDate_date in H by assumption.
  fold item label in H. destruct H as (Hbefore & Htoday & Htomorrow & Hlater).
  pose proof (dateOf_fields now) as Hfields.
  pose proof (dateOf_fields (now + msPerDay)) as Hfields'.
  rewrite day_next in Hfields'.
  split; [exact Hparse|].
  split; [|split; [|split]].
  - destruct (Contract.dateOf now) as [[ty tm] td]. destruct Hfields as (Htm & Htd & Hday).
    intros Hlt. apply Hbefore. rewrite <- Hday. now apply makeDay_before.
  - intros E. rewrite <- E in Hfields. destruct Hfields as (_ & _ & Hday).
    now apply Htoday.
  - intros E. rewrite <- E in Hfields'. destruct Hfields' as (_ & _ & Hday).
    now apply Htomorrow.
  - destruct (Contract.dateOf (now + msPerDay)) as [[ty tm] td].
    destruct Hfields' as (Htm & Htd & Hday).
    intros Hlt. apply Hlater. rewrite <- Hday. now apply makeDay_before.
Qed.

(** The scenario of the specification: the task Essay, due 2024-01-01,
    rendered at half past three in the afternoon of 2024-01-02. *)
Lemma due_date_badge_witness :
  let task := {| Board.id := "1704209400000"; Board.name := "Essay";
                 Board.subject := "English"; Board.dueDate := Some "2024-01-01";
                 Board.priority := Some "high"; Board.completed := false;
                 Board.createdAt := "2024-01-02T15:30:00.000Z" |} in
  let now := 1704209400000 in
  Contract.dateOf now = (2024, 1, 2)
  /\ Board.cls (Board.taskHtml now task) = "overdue"
  /\ Board.txt (Board.taskHtml now task) = "Overdue - Mon, Jan 1, 2024".
Proof.
  intros task now. split; [reflexivity|].
  refine (proj1 (proj2 (due_date_badge now task 2024 1 1 _ _ _ _ _ _ eq_refl)) _).
  - vm_compute. discriminate.
  - lia.
  - lia.
  - vm_compute. split; discriminate.
  - repeat split.
  - reflexivity.
  - right. split; [reflexivity|]. right. split; reflexivity.
Defined.

(** ** Text put into markup *)

Lemma escapeHtmlChar_cases (c : ascii) :
  (c = "&"%char /\ Board.escapeHtmlChar c = "&amp;")
  \/ (c = "<"%char /\ Board.escapeHtmlChar c = "&lt;")
  \/ (c = ">"%char /\ Board.escapeHtmlChar c = "&gt;")
  \/ (c = Board.nbsp /\ Board.escapeHtmlChar c = "&nbsp;")
  \/ (Board.plainChar c = true /\ c <> "&"%char /\ c <> "<"%char /\ c <> ">"%char
      /\ Board.escapeHtmlChar c = String c EmptyString).
Proof.
  unfold Board.escapeHtmlChar, Board.plainChar.
  destruct (Ascii.eqb_spec c "&") as [->|H1]; [now left|].
  destruct (Ascii.eqb_spec c "<") as [->|H2]; [right; now left|].
  destruct (Ascii.eqb_spec c ">") as [->|H3]; [right; right; now left|].
  destruct (Ascii.eqb_spec c Board.nbsp) as [->|H4]; [right; right; right; now left|].
  do 4 right. auto.
Qed.

(** X17: [escapeHtml]: the result holds no angle bracket; a text without
    ampersand, angle bracket and no-break space is returned as it is;
    different texts give different results; a double quote of the text is
    in the result as it is. *)
Theorem escapeHtml_markup (text : string) :
  (forall c, In c (list_ascii_of_string (Board.escapeHtml text)) ->
             c <> "<"%char /\ c <> ">"%char)
  /\ (forallb Board.plainChar (list_ascii_of_string text) = true ->
      Board.escapeHtml text = text)
  /\ (forall text', Board.escapeHtml text = Board.escapeHtml text' -> text = text')
  /\ (In dquote (list_ascii_of_string text) ->
      In dquote (list_ascii_of_string (Board.escapeHtml text))).
Proof.
  split; [|split; [|split]].
  - induction text as [|c text IH]; cbn [Board.escapeHtml]; [intros c []|].
    intros x Hx.
    destruct (escapeHtmlChar_cases c)
      as [(_ & E) | [(_ & E) | [(_ & E) | [(_ & E) | (_ & _ & H2 & H3 & E)]]]];
      rewrite E in Hx; rewrite ?append_cons, ?append_nil_l in Hx;
      cbn [list_ascii_of_string In] in Hx;
      repeat (destruct Hx as [<- | Hx]; [split; (discriminate || assumption)|]);
      now apply IH.
  - induction text as [|c text IH]; cbn [Board.escapeHtml list_ascii_of_string forallb];
      [reflexivity|].
    intros H. apply andb_true_iff in H. destruct H as (Hc & H).
    rewrite (IH H).
    destruct (escapeHtmlChar_cases c)
      as [(-> & _) | [(-> & _) | [(-> & _) | [(-> & _) | (_ & _ & _ & _ & ->)]]]];
      try discriminate Hc.
    reflexivity.
  - induction text as [|c text IH]; intros [|c' text']; cbn [Board.escapeHtml].
    + reflexivity.
    + destruct (escapeHtmlChar_cases c')
        as [(_ & E) | [(_ & E) | [(_ & E) | [(_ & E) | (_ & _ & _ & _ & E)]]]];
        rewrite E; discriminate.
    + destruct (escapeHtmlChar_cases c)
        as [(_ & E) | [(_ & E) | [(_ & E) | [(_ & E) | (_ & _ & _ & _ & E)]]]];
        rewrite E; discriminate.
    + destruct (escapeHtmlChar_cases c)
        as [(-> & E) | [(-> & E) | [(-> & E) | [(-> & E) | (_ & Ha & _ & _ & E)]]]];
        destruct (escapeHtmlChar_cases c')
          as [(-> & E') | [(-> & E') | [(-> & E') | [(-> & E') | (_ & Ha' & _ & _ & E')]]]];
        rewrite ?E, ?E'; intros H;
        first [ apply append_inv_head in H; f_equal; now apply IH
              | rewrite ?append_cons, ?append_nil_l in H;
                first [ discriminate H
                      | injection H as H0 H; first [congruence | subst; f_equal; now apply IH] ] ].
  - induction text as [|c text IH]; cbn [Board.escapeHtml list_ascii_of_string In];
      [trivial|].
    intros H.
    destruct (escapeHtmlChar_cases c)
      as [(Hc & E) | [(Hc & E) | [(Hc & E) | [(Hc & E) | (_ & _ & _ & _ & E)]]]];
      rewrite E; rewrite ?append_cons, ?append_nil_l; cbn [list_ascii_of_string In];
      destruct H as [H | H]; try (rewrite Hc in H; discriminate H); auto 10.
Qed.

(** ** The theme *)

(** X18: [Theme.toggle] stores and applies dark when the theme was light
    and light otherwise; the stored theme is what [Theme.get] returns on
    all three pages, whatever the colour scheme of the system; the toggles
    of the calendar and of the chat do the same to the store; nothing but
    the theme entry changes; toggling again from light or dark gives the
    first theme back. *)
Theorem theme_toggle (prefersDark prefersDark' : bool) (p : Board.Page) :
  let before := Board.Theme_get prefersDark (Board.localStorage p) in
  let p' := fst (Board.Theme_toggle prefersDark p) in
  let applied := snd (Board.Theme_toggle prefersDark p) in
  applied = (if String.eqb before "light" then "dark" else "light")
  /\ Board.Theme_get prefersDark' (Board.localStorage p') = applied
  /\ Calendar.Theme_get prefersDark' (Board.localStorage p') = applied
  /\ Chat.Theme_get prefersDark' (Board.localStorage p') = applied
  /\ Calendar.Theme_toggle prefersDark (Board.localStorage p)
     = (Board.localStorage p', applied)
  /\ Chat.Theme_toggle prefersDark (Board.localStorage p)
     = (Board.localStorage p', applied)
  /\ Board.app p' = Board.app p
  /\ (forall key, key <> Board.KEY_theme ->
        Board.localStorage p' !! key = Board.localStorage p !! key)
  /\ (before = "light" \/ before = "dark" ->
        snd (Board.Theme_toggle prefersDark' p') = before).
Proof.
  intros before p' applied. subst before p' applied.
  unfold Board.Theme_toggle, Calendar.Theme_toggle, Chat.Theme_toggle,
    Board.Theme_get, Calendar.Theme_get, Chat.Theme_get, Board.Theme_set, getItem, setItem.
  cbn [fst snd Board.notify Board.app Board.localStorage].
  change Calendar.KEY_theme with Board.KEY_theme.
  change Chat.KEY_theme with Board.KEY_theme.
  rewrite !lookup_insert_eq.
  set (before := Board.orElse (Board.localStorage p !! Board.KEY_theme)
                   (if prefersDark then "dark" else "light")).
  assert (Hchat : Chat.itemOr (Board.localStorage p !! Board.KEY_theme)
                    (if prefersDark then "dark" else "light") = before) by reflexivity.
  rewrite Hchat.
  repeat split.
  - destruct (String.eqb before "light"); reflexivity.
  - destruct (String.eqb before "light"); reflexivity.
  - destruct (String.eqb before "light"); reflexivity.
  - intros key Hkey. now rewrite lookup_insert_ne.
  - intros [-> | ->]; reflexivity.
Qed.

(** ** The calendar, cell by cell *)

(** X19: the next button moves the displayed month one month ahead
    and the previous button one month back, the year changing at December
    and January; the month index stays within 0..11, and each button
    undoes the other. *)
Theorem month_navigation (year monthIndex : Z) :
  0 <= monthIndex <= 11 ->
  let next := Calendar.nextMonth (year, monthIndex) in
  let prev := Calendar.prevMonth (year, monthIndex) in
  (12 * fst next + snd next = 12 * year + monthIndex + 1 /\ 0 <= snd next <= 11)
  /\ (12 * fst prev + snd prev = 12 * year + monthIndex - 1 /\ 0 <= snd prev <= 11)
  /\ Calendar.prevMonth next = (year, monthIndex)
  /\ Calendar.nextMonth prev = (year, monthIndex).
Proof.
  intros H next prev. subst next prev.
  unfold Calendar.prevMonth, Calendar.nextMonth.
  rewrite !Z.gtb_ltb.
  destruct (11 <? monthIndex + 1) eqn:E1; destruct (monthIndex - 1 <? 0) eqn:E2;
    cbn [fst snd]; rewrite ?Z.gtb_ltb;
    repeat match goal with
      | |- context [if ?c then _ else _] => destruct c eqn:?
      end;
    repeat match goal with
      | H : (_ <? _) = true |- _ => apply Z.ltb_lt in H
      | H : (_ <? _) = false |- _ => apply Z.ltb_ge in H
      end;
    try lia; repeat split; try lia; f_equal; lia.
Qed.



(** The weekday of a date of the displayed month. *)
Lemma getWeekdayIndex_makeDay (year monthIndex d : Z) :
  100 <= year <= 200000 -> 0 <= monthIndex <= 11 -> 1 <= d <= daysIn year monthIndex ->
  Calendar.getWeekdayIndex year monthIndex d
  = Some ((makeDay year monthIndex 1 + d + 3) mod 7).
Proof.
  intros Hy Hm Hd. unfold Calendar.getWeekdayIndex.
  destruct (newDate_fields year monthIndex d Hy Hm Hd) as (-> & _).
  cbn [getDay option_map]. rewrite day_midnight. unfold weekDay. f_equal. f_equal.
  unfold makeDay. ring.
Qed.

Lemma nth_error_daysOf (n : Z) (k : nat) :
  (k < Z.to_nat n)%nat ->
  nth_error (Calendar.daysOf (Some n)) k = Some (Z.of_nat (S k)).
Proof.
  intros Hk. unfold Calendar.daysOf.
  rewrite nth_error_map, nth_error_seq.
  destruct (Nat.ltb_spec k (Z.to_nat n)); [reflexivity | lia].
Qed.

(** X21: the layout of the grid, for a month all of whose days the
    local calendar has: the seven weekday headers, as many blank cells as
    the weekday index of the first day, then one cell for each day of the
    month in order; with seven cells in a row, the cell of every day
    stands in the column of the weekday of its date. *)
Theorem renderMonth_layout (now year monthIndex : Z) (tasks : list Board.Task)
        (colors : list (string * string)) :
  100 <= year <= 200000 -> 0 <= monthIndex <= 11 ->
  Calendar.monthExists year monthIndex ->
  let grid := Calendar.renderMonth now year monthIndex tasks colors in
  exists firstWeekday : Z,
    Calendar.getWeekdayIndex year monthIndex 1 = Some firstWeekday
    /\ 0 <= firstWeekday <= 6
    /\ Z.of_nat (length grid) = 7 + firstWeekday + daysIn year monthIndex
    /\ (forall w, 0 <= w <= 6 ->
          nth_error grid (Z.to_nat w) = Some (Calendar.Weekday (weekdayShort w)))
    /\ (forall i, 7 <= i < 7 + firstWeekday ->
          nth_error grid (Z.to_nat i) = Some Calendar.Blank)
    /\ (forall d, 1 <= d <= daysIn year monthIndex ->
          let i := 7 + firstWeekday + (d - 1) in
          (exists iso today chips click,
              nth_error grid (Z.to_nat i)
              = Some (Calendar.DayCell d iso today chips click))
          /\ Calendar.getWeekdayIndex year monthIndex d = Some (i mod 7)).
Proof.
  intros Hy Hm _ grid.
  pose proof (daysIn_range year monthIndex Hm) as Hdays.
  exists ((makeDay year monthIndex 1 + 1 + 3) mod 7).
  assert (Hfw : Calendar.getWeekdayIndex year monthIndex 1
                = Some ((makeDay year monthIndex 1 + 1 + 3) mod 7))
    by (apply getWeekdayIndex_makeDay; lia).
  set (fw := (makeDay year monthIndex 1 + 1 + 3) mod 7) in *.
  assert (Hrange : 0 <= fw <= 6) by (subst fw; pose proof (Z.mod_pos_bound (makeDay year monthIndex 1 + 1 + 3) 7); lia).
  subst grid. unfold Calendar.renderMonth.
  rewrite Hfw, (getDaysInMonth_daysIn year monthIndex Hy Hm).
  cbn [default from_option id].
  set (cells := map _ (Calendar.daysOf _)).
  set (heads := map Calendar.Weekday _).
  assert (Hheads : length heads = 7%nat) by reflexivity.
  assert (Hcells : length cells = Z.to_nat (daysIn year monthIndex)).
  { subst cells. rewrite length_map. unfold Calendar.daysOf.
    rewrite length_map, length_seq. reflexivity. }
  split; [reflexivity|]. split; [assumption|]. split; [|split; [|split]].
  - rewrite !length_app, repeat_length, Hheads, Hcells. lia.
  - intros w Hw. rewrite nth_error_app1 by (rewrite Hheads; lia).
    assert (Hc : w = 0 \/ w = 1 \/ w = 2 \/ w = 3 \/ w = 4 \/ w = 5 \/ w = 6) by lia.
    repeat (destruct Hc as [-> | Hc]; [reflexivity|]). subst. reflexivity.
  - intros i Hi. rewrite nth_error_app2 by (rewrite Hheads; lia).
    rewrite nth_error_app1 by (rewrite repeat_length, Hheads; lia).
    apply nth_error_repeat. rewrite Hheads. lia.
  - intros d Hd. set (i := 7 + fw + (d - 1)). split.
    + rewrite nth_error_app2 by (rewrite Hheads; lia).
      rewrite nth_error_app2 by (rewrite repeat_length, Hheads; lia).
      rewrite repeat_length, Hheads.
      replace (Z.to_nat i - 7 - Z.to_nat fw)%nat with (Z.to_nat (d - 1)) by lia.
      subst cells. rewrite nth_error_map, nth_error_daysOf by lia.
      cbn [option_map]. unfold Calendar.dayCell.
      replace (Z.of_nat (S (Z.to_nat (d - 1)))) with d by lia.
      eauto.
    + rewrite getWeekdayIndex_makeDay by assumption. f_equal.
      subst i fw.
      replace (7 + (makeDay year monthIndex 1 + 1 + 3) mod 7 + (d - 1))
        with ((makeDay year monthIndex 1 + 1 + 3) mod 7 + (d - 1 + 1 * 7)) by ring.
      rewrite Z.add_mod_idemp_l by lia.
      rewrite Z.add_assoc, Z.mod_add by lia. f_equal. ring.
Qed.

Lemma renderMonth_layout_witness :
  exists firstWeekday : Z,
    Calendar.getWeekdayIndex 2024 1 1 = Some firstWeekday
    /\ 0 <= firstWeekday <= 6
    /\ Z.of_nat (length (Calendar.renderMonth 0 2024 1 [] []))
       = 7 + firstWeekday + daysIn 2024 1.
Proof.
  destruct (renderMonth_layout 0 2024 1 [] []) as (fw & H1 & H2 & H3 & _); [lia | lia | |].
  - intros d Hd. apply newDate_fields; [lia | lia | exact Hd].
  - exists fw. auto.
Defined.

(** The text of [formatLocalISO] determines the year, the month and the
    day. *)
Lemma localISO_inj (y y' a a' b b' : Z) :
  0 <= a <= 99 -> 0 <= a' <= 99 -> 0 <= b <= 99 -> 0 <= b' <= 99 ->
  toString y +:+ "-" +:+ padStart2 (toString a) +:+ "-" +:+ padStart2 (toString b)
  = toString y' +:+ "-" +:+ padStart2 (toString a') +:+ "-" +:+ padStart2 (toString b') ->
  y = y' /\ a = a' /\ b = b'.
Proof.
  intros Ha Ha' Hb Hb' H.
  assert (Hlen : String.length (toString y) = String.length (toString y')).
  { apply (f_equal String.length) in H.
    rewrite !length_append, !padStart2_length in H by assumption. lia. }
  destruct (append_inj_length _ _ _ _ Hlen H) as (Hy & H1).
  change ("-" +:+ ?x) with (String "-" x) in H1. injection H1 as H1.
  assert (Hlen2 : String.length (padStart2 (toString a))
                  = String.length (padStart2 (toString a')))
    by (rewrite !padStart2_length by assumption; reflexivity).
  destruct (append_inj_length _ _ _ _ Hlen2 H1) as (Hpa & H2).
  change ("-" +:+ ?x) with (String "-" x) in H2. injection H2 as H2.
  split; [now apply toString_inj|]. split.
  - rewrite <- (padStart2_decode a Ha), <- (padStart2_decode a' Ha'). now rewrite Hpa.
  - rewrite <- (padStart2_decode b Hb), <- (padStart2_decode b' Hb'). now rewrite H2.
Qed.

Lemma In_renderMonth_dayCell (now year monthIndex : Z) (tasks : list Board.Task)
      (colors : list (string * string)) (d : Z) (iso : string) (today : bool)
      (chips : list Calendar.Chip) (click : list Board.Task) :
  In (Calendar.DayCell d iso today chips click)
     (Calendar.renderMonth now year monthIndex tasks colors) ->
  In d (Calendar.daysOf (Calendar.getDaysInMonth year monthIndex))
  /\ iso = Calendar.formatLocalISO (newDate (Some year) monthIndex d)
  /\ today = String.eqb iso (Calendar.formatLocalISO (Some now)).
Proof.
  unfold Calendar.renderMonth. intros H.
  apply List.in_app_or in H. destruct H as [H | H].
  { apply List.in_map_iff in H. destruct H as (? & ? & _). discriminate. }
  apply List.in_app_or in H. destruct H as [H | H].
  { apply repeat_spec in H. discriminate. }
  apply List.in_map_iff in H. destruct H as (d' & Hcell & Hin).
  unfold Calendar.dayCell in Hcell. injection Hcell as -> <- <- _ _.
  auto.
Qed.

(** X22: in a month all of whose days the local calendar has, a day
    cell is marked as today exactly when its date is the date of the
    clock: the year and the month displayed are the current ones and the
    day is the current day. *)
Theorem renderMonth_today (now year monthIndex : Z) (tasks : list Board.Task)
        (colors : list (string * string)) (d : Z) (iso : string) (today : bool)
        (chips : list Calendar.Chip) (click : list Board.Task) :
  100 <= year <= 200000 -> 0 <= monthIndex <= 11 ->
  Calendar.monthExists year monthIndex ->
  In (Calendar.DayCell d iso today chips click)
     (Calendar.renderMonth now year monthIndex tasks colors) ->
  today = true
  <-> getFullYear (Some now) = Some year /\ getMonth (Some now) = Some monthIndex
      /\ getDate (Some now) = Some d.
Proof.
  intros Hy Hm _ Hin.
  apply In_renderMonth_dayCell in Hin. destruct Hin as (Hd & -> & ->).
  rewrite (getDaysInMonth_daysIn year monthIndex Hy Hm) in Hd.
  apply daysOf_In in Hd.
  pose proof (daysIn_range year monthIndex Hm) as Hdays.
  destruct (newDate_fields year monthIndex d Hy Hm Hd) as (_ & Hyear & Hmonth & Hdate).
  unfold Calendar.formatLocalISO, Board.formatLocalISO.
  rewrite Hyear, Hmonth, Hdate. cbn [option_map numString getFullYear getMonth getDate].
  rewrite String.eqb_eq.
  pose proof (monthFromDay_range (day now)) as Hm'.
  pose proof (dateFromDay_small (day now)) as Hd'.
  split.
  - intros H. apply localISO_inj in H; try lia.
    destruct H as (-> & H1 & ->). repeat split; f_equal; lia.
  - intros (H1 & H2 & H3). injection H1 as <-. injection H2 as <-. injection H3 as <-.
    reflexivity.
Qed.

Lemma renderMonth_today_witness :
  forallb (fun cell =>
             match cell with
             | Calendar.DayCell d _ today _ _ => Bool.eqb today (d =? 14)
             | _ => true
             end)
          (Calendar.renderMonth 1707912000000 2024 1 [] []) = true.
Proof.
  apply List.forallb_forall. intros [ | | d iso today chips click] Hin; try reflexivity.
  pose proof (renderMonth_today 1707912000000 2024 1 [] [] d iso today chips click
                ltac:(lia) ltac:(lia)
                ltac:(intros k Hk; apply newDate_fields; [lia | lia | exact Hk]) Hin) as H.
  change (getFullYear (Some 1707912000000)) with (Some 2024) in H.
  change (getMonth (Some 1707912000000)) with (Some 1) in H.
  change (getDate (Some 1707912000000)) with (Some 14) in H.
  destruct today.
  - destruct H as (H & _). destruct (H eq_refl) as (_ & _ & E). injection E as <-. reflexivity.
  - destruct (Z.eqb_spec d 14) as [-> |]; [|reflexivity].
    destruct H as (_ & H). now apply H.
Defined.

(** X23: the map of [groupTasksByDate] has a bucket exactly for the
    due dates that are not empty and that some task has; the bucket holds
    the tasks with this due date, in the order of the list; a task without
    a due date is in no bucket and no bucket is empty. *)
Theorem groupTasksByDate_buckets (tasks : list Board.Task) (key : string) :
  Calendar.groupTasksByDate tasks !! key
  = match List.filter (Calendar.dueOn key) tasks with
    | [] => None
    | bucket => if nonempty key then Some bucket else None
    end.
Proof.
  unfold Calendar.groupTasksByDate.
  induction tasks as [|t tasks IH] using rev_ind.
  - cbn [fold_left List.filter]. apply lookup_empty.
  - rewrite fold_left_app, List.filter_app. cbn [fold_left List.filter].
    set (m := fold_left _ tasks ∅) in *.
    unfold Calendar.dueOn at 2.
    destruct (Board.dueDate t) as [k|].
    + destruct (String.eqb k key) eqn:E.
      * apply String.eqb_eq in E. subst k.
        destruct (nonempty key) eqn:Hkey.
        -- rewrite lookup_insert_eq, IH.
           destruct (List.filter (Calendar.dueOn key) tasks); reflexivity.
        -- rewrite IH.
           destruct (List.filter (Calendar.dueOn key) tasks); reflexivity.
      * apply String.eqb_neq in E. rewrite app_nil_r.
        destruct (nonempty k); [rewrite lookup_insert_ne by assumption|]; exact IH.
    + rewrite app_nil_r. exact IH.
Qed.

Lemma filterActive_throws (items : list json) :
  (exists e, Calendar.filterActive items = Throws e) <-> In JNull items.
Proof.
  induction items as [|t items IH]; cbn [Calendar.filterActive In].
  - split; [intros (e & H); discriminate | tauto].
  - destruct t; cbn [getProp];
      try (destruct (Calendar.filterActive items) eqn:E;
           [ split; [intros (e & H); discriminate|];
             intros [H | H]; [discriminate|];
             apply IH in H; destruct H as (e & H); discriminate
           | split; [intros _; right; apply IH; eauto | intros _; eauto] ]).
    split; [intros _; now left | intros _; eauto].
Qed.

(** X24: the [loadTasks] of the calendar throws exactly when the
    stored entry parses to an array with a [null] element. *)
Theorem loadTasks_throws (store : gmap string string) :
  (exists e, Calendar.loadTasks store = Throws e)
  <-> exists text items,
        store !! Calendar.KEY_tasks = Some text
        /\ JSON_parse text = Some (JArr items) /\ In JNull items.
Proof.
  unfold Calendar.loadTasks, safelyParseJson, getItem.
  destruct (store !! Calendar.KEY_tasks) as [text|] eqn:Htext.
  - destruct (JSON_parse text) as [v|] eqn:Hparse.
    + destruct v as [ | b | n | s | items | props];
        try (split; [intros (e & H); discriminate
                    | intros (text' & items & H1 & H2 & _); congruence]).
      rewrite filterActive_throws. split.
      * intros H. exists text, items. auto.
      * intros (text' & items' & H1 & H2 & H3). congruence.
    + split; [intros (e & H); discriminate
             | intros (text' & items & H1 & H2 & _); congruence].
  - split; [intros (e & H); vm_compute in H; discriminate
           | intros (text' & items & H1 & _); discriminate].
Qed.

Lemma month_navigation_witness :
  Calendar.prevMonth (Calendar.nextMonth (2024, 11)) = (2024, 11)
  /\ Calendar.nextMonth (2024, 11) = (2025, 0).
Proof.
  split; [|reflexivity].
  exact (proj1 (proj2 (proj2 (month_navigation 2024 11 ltac:(lia))))).
Defined.

(** ** From the board to the calendar *)

Lemma filterActive_tasks (tasks : list Board.Task) :
  Calendar.filterActive (map Board.Task_to_json tasks)
  = Returns (map Board.Task_to_json (Calendar.activeTasks tasks)).
Proof.
  induction tasks as [|t tasks IH]; [reflexivity|].
  cbn [map Calendar.filterActive]. rewrite IH.
  assert (H : getProp (Board.Task_to_json t) "completed"
              = Returns (Some (JBool (Board.completed t)))).
  { unfold Board.Task_to_json.
    destruct (Board.dueDate t), (Board.priority t); reflexivity. }
  rewrite H. cbn [truthyOpt truthy Calendar.activeTasks List.filter].
  destruct (Board.completed t); reflexivity.
Qed.

(** The calendar loads what the board has saved: the tasks that are not
    completed. *)
Lemma loadTasks_saved (tasks : list Board.Task) (store : gmap string string) :
  Calendar.loadTasks (Board.Storage_saveTasks (Board.tasksValue tasks) store)
  = Returns (map Board.Task_to_json (Calendar.activeTasks tasks)).
Proof.
  unfold Calendar.loadTasks, Board.Storage_saveTasks, safelyParseJson, getItem, setItem.
  change Calendar.KEY_tasks with Board.KEY_tasks.
  rewrite lookup_insert_eq, JSON_parse_stringify by apply wellFormed_tasksValue.
  apply filterActive_tasks.
Qed.

(** X26: a task added on the board is on the calendar.  After a form
    with a name, a subject and a due date within the displayed month (of a
    four-digit year, all of whose days the local calendar has) has been
    submitted, the calendar loads from the store the tasks of the board
    that are not completed, and the cell of this day has a chip for the
    task. *)
Theorem submitted_task_on_calendar (form : Board.TaskForm) (clock : Z) (nowISO : string)
        (p : Board.Page) (now year monthIndex d : Z) :
  nonempty (trim (Board.taskName form)) = true ->
  nonempty (trim (Board.taskSubjectSelect form)) = true ->
  1000 <= year <= 9999 -> 0 <= monthIndex <= 11 -> 1 <= d <= daysIn year monthIndex ->
  Calendar.monthExists year monthIndex ->
  Board.taskDueDate form = Contract.isoDate year (monthIndex + 1) d ->
  let p' := Board.onSubmit form clock nowISO p in
  Calendar.loadTasks (Board.localStorage p')
  = Returns (map Board.Task_to_json (Calendar.activeTasks (Board.tasks (Board.app p'))))
  /\ exists iso today chips click,
       In (Calendar.DayCell d iso today chips click)
          (Calendar.refresh now year monthIndex (Board.tasks (Board.app p'))
             (Board.subjectColors (Board.app p')))
       /\ exists chip,
            In chip chips
            /\ Board.id (Calendar.chipTask chip) = toString clock
            /\ Board.name (Calendar.chipTask chip) = trim (Board.taskName form)
            /\ Board.dueDate (Calendar.chipTask chip) = Some iso.
Proof.
  intros Hname Hsubject Hy Hm Hd _ Hdue p'.
  set (iso := Contract.isoDate year (monthIndex + 1) d).
  assert (Hiso : nonempty iso = true)
    by (unfold iso, Contract.isoDate; apply nonempty_append_cons).
  set (task := {| Board.id := toString clock; Board.name := trim (Board.taskName form);
                  Board.subject := trim (Board.taskSubjectSelect form);
                  Board.dueDate := Some iso;
                  Board.priority := Some (Board.orElse (Board.taskPriority form) "medium");
                  Board.completed := false; Board.createdAt := nowISO |}).
  assert (Hp' : Board.tasks (Board.app p') = Board.tasks (Board.app p) ++ [task]
                /\ Board.localStorage p'
                   = Board.Storage_saveTasks (Board.tasksValue (Board.tasks (Board.app p')))
                       (Board.localStorage p)).
  { subst p'. unfold Board.onSubmit. cbv zeta.
    rewrite Hname, Hsubject, Hdue. fold iso. rewrite Hiso.
    assert (Hpr : nonempty (Board.orElse (Board.taskPriority form) "medium") = true).
    { unfold Board.orElse. destruct (Board.taskPriority form) as [s|]; [|reflexivity].
      destruct (nonempty s) eqn:E; [exact E | reflexivity]. }
    rewrite Hpr. split; reflexivity. }
  destruct Hp' as (Htasks & Hstore).
  split; [rewrite Hstore; apply loadTasks_saved|].
  set (items := sort Calendar.comparePriority
                  (List.filter (Calendar.dueOn iso)
                     (Calendar.activeTasks (Board.tasks (Board.app p'))))).
  exists iso, (String.eqb iso (Calendar.formatLocalISO (Some now))),
    (map (Calendar.chipOf (Board.subjectColors (Board.app p'))) items), items.
  split.
  - unfold Calendar.refresh, Calendar.renderMonth.
    apply List.in_app_iff. right. apply List.in_app_iff. right.
    apply List.in_map_iff. exists d. split.
    + unfold Calendar.dayCell.
      rewrite formatLocalISO_isoDate by assumption. fold iso.
      rewrite groupTasksByDate_lookup by exact Hiso. reflexivity.
    + rewrite getDaysInMonth_daysIn by lia. now apply daysOf_In.
  - exists (Calendar.chipOf (Board.subjectColors (Board.app p')) task).
    split; [|repeat split].
    apply List.in_map. subst items. apply In_sort_filter.
    split; [|split; reflexivity]. rewrite Htasks. apply List.in_or_app. right. now left.
Qed.

Lemma submitted_task_on_calendar_witness :
  exists iso today chips click,
    In (Calendar.DayCell 5 iso today chips click)
       (Calendar.refresh 1704209400000 2024 0
          (Board.tasks
             (Board.app
                (Board.onSubmit (Board.mkTaskForm "Essay" "English" "2024-01-05" (Some "high"))
                   1704209400000 "2024-01-02T15:30:00.000Z"
                   (Board.mkPage (Board.mkApp [] ["English"] []) ∅ [])))) [])
    /\ chips <> [].
Proof.
  destruct (submitted_task_on_calendar
              (Board.mkTaskForm "Essay" "English" "2024-01-05" (Some "high"))
              1704209400000 "2024-01-02T15:30:00.000Z"
              (Board.mkPage (Board.mkApp [] ["English"] []) ∅ [])
              1704209400000 2024 0 5 eq_refl eq_refl ltac:(lia) ltac:(lia)
              ltac:(vm_compute; split; discriminate)
              ltac:(intros k Hk; apply newDate_fields; [lia | lia | exact Hk]) eq_refl)
    as (_ & iso & today & chips & click & Hin & chip & Hchip & _).
  exists iso, today, chips, click. split; [exact Hin|].
  intros ->. destruct Hchip.
Defined.

(** ** The chat client, send by send *)

Lemma mapRoleContent_throws (ms : list json) :
  (exists e, Chat.mapRoleContent ms = Throws e) <-> In JNull ms.
Proof.
  induction ms as [|m ms IH]; cbn [Chat.mapRoleContent In].
  - split; [intros (e & H); discriminate | tauto].
  - destruct m; cbn [Chat.roleContent getProp];
      try (destruct (Chat.mapRoleContent ms) eqn:E;
           [ split; [intros (e & H); discriminate|];
             intros [H | H]; [discriminate|];
             apply IH in H; destruct H as (e & H); discriminate
           | split; [intros _; right; apply IH; eauto | intros _; eauto] ]).
    split; [intros _; now left | intros _; eauto].
Qed.



Lemma mapRoleContent_app (ms : list json) (m : json) (body : list json) (x : json) :
  Chat.mapRoleContent ms = Returns body -> Chat.roleContent m = Returns x ->
  Chat.mapRoleContent (ms ++ [m]) = Returns (body ++ [x]).
Proof.
  revert body. induction ms as [|m0 ms IH]; intros body; cbn [app Chat.mapRoleContent].
  - intros [= <-] ->. reflexivity.
  - destruct (Chat.roleContent m0); [|discriminate].
    destruct (Chat.mapRoleContent ms) as [xs|]; [|discriminate].
    intros [= <-] H. now rewrite (IH xs eq_refl H).
Qed.

(** *** Around the [await] *)











(** X29: the settings of the API dialog take effect on the next send:
    with a blank key the send asks for the key and issues no request;
    otherwise the request carries the trimmed key and the selected model,
    gpt-4o-mini when no model is selected. *)
Theorem saveApiSettings_send (apiKeyInput modelSelect : string) (now1 now2 : Z)
        (network : Chat.Request -> Chat.Response) (st : Chat.State) :
  nonempty (trim (Chat.inputValue st)) = true ->
  let st' := Chat.handleSend now1 now2 network
               (Chat.saveApiSettings apiKeyInput modelSelect st) in
  (nonempty (trim apiKeyInput) = false ->
     Chat.requests st' = Chat.requests st
     /\ Chat.messages st'
        = Chat.messages st
          ++ [Chat.message "user" (JStr (trim (Chat.inputValue st))) now1;
              Chat.message "assistant"
                (JStr "Please set your API key in the API dialog.") now2])
  /\ (nonempty (trim apiKeyInput) = true -> ~ In JNull (Chat.messages st) ->
        exists messages,
          Chat.requests st'
          = Chat.requests st
            ++ [ {| Chat.requestKey := trim apiKeyInput;
                    Chat.requestBody :=
                      JObj [("model",
                             JStr (if nonempty modelSelect then modelSelect
                                   else "gpt-4o-mini"));
                            ("messages", JArr messages)] |} ]).
Proof.
  intros Htext st'. subst st'. unfold Chat.handleSend, Chat.saveApiSettings.
  cbn [Chat.inputValue Chat.messages Chat.localStorage Chat.requests].
  rewrite Htext. cbn [negb].
  match goal with
  | |- context [Chat.append "user" ?c now1 ?s] =>
      set (st1 := Chat.append "user" c now1 s)
  end.
  assert (Hm1 : Chat.messages st1
                = Chat.messages st
                  ++ [Chat.message "user" (JStr (trim (Chat.inputValue st))) now1])
    by reflexivity.
  assert (Hr1 : Chat.requests st1 = Chat.requests st) by reflexivity.
  assert (Hk1 : getItem (Chat.localStorage st1) Chat.KEY_apiKey = Some (trim apiKeyInput)).
  { subst st1. unfold Chat.append, Chat.save, setItem, getItem.
    cbn [Chat.localStorage]. rewrite !lookup_insert_ne by discriminate.
    apply lookup_insert_eq. }
  assert (Hmod : getItem (Chat.localStorage st1) Chat.KEY_model = Some modelSelect).
  { subst st1. unfold Chat.append, Chat.save, setItem, getItem.
    cbn [Chat.localStorage]. rewrite lookup_insert_ne by discriminate.
    apply lookup_insert_eq. }
  clearbody st1.
  rewrite Hk1, Hmod. cbn [Chat.missing Chat.itemOr]. split; intros Hkey; rewrite Hkey;
    cbn [negb].
  - unfold Chat.append. cbn [Chat.messages Chat.requests]. rewrite Hm1, Hr1.
    split; [reflexivity | now rewrite <- app_assoc].
  - intros Hnull. rewrite Hm1.
    destruct (Chat.mapRoleContent (Chat.messages st)) as [body|e] eqn:E.
    2:{ exfalso. apply Hnull, mapRoleContent_throws. eauto. }
    rewrite (mapRoleContent_app _ (Chat.message "user" (JStr (trim (Chat.inputValue st))) now1)
               body
               (JObj [("role", JStr "user"); ("content", JStr (trim (Chat.inputValue st)))])
               E eq_refl).
    eexists.
    match goal with
    | |- context [Chat.sendToOpenAI ?r] => destruct (Chat.sendToOpenAI r)
    end; unfold Chat.append; cbn [Chat.messages Chat.requests]; rewrite ?Hr1; reflexivity.
Qed.

Lemma saveApiSettings_send_witness :
  Chat.requests
    (Chat.handleSend 1 2 (fun _ => Chat.NetworkError "offline")
       (Chat.saveApiSettings "   " "gpt-4o" (Chat.mkState [] ∅ "Hi" []))) = [].
Proof.
  exact (proj1 (proj1 (saveApiSettings_send "   " "gpt-4o" 1 2
                         (fun _ => Chat.NetworkError "offline")
                         (Chat.mkState [] ∅ "Hi" []) eq_refl) eq_refl)).
Defined.

(** X30: the conversation is kept: after a send, starting the page
    on the store gives the same messages back, when they are well-formed
    values; after the clear button it gives none. *)
Theorem history_restored (now1 now2 : Z) (network : Chat.Request -> Chat.Response)
        (st : Chat.State) :
  nonempty (trim (Chat.inputValue st)) = true ->
  let st' := Chat.handleSend now1 now2 network st in
  wellFormed (JArr (Chat.messages st')) = true ->
  Chat.messages (Chat.start (Chat.localStorage st')) = Chat.messages st'
  /\ Chat.messages (Chat.start (Chat.localStorage (Chat.clearHistory st'))) = [].
Proof.
  intros Htext st' Hwf.
  assert (Hstore : Chat.localStorage st' !! Chat.KEY_history
                   = Some (JSON_stringify (JArr (Chat.messages st')))).
  { subst st'. unfold Chat.handleSend. rewrite Htext. cbn [negb].
    repeat match goal with
      | |- context [if ?c then _ else _] => destruct c
      | |- context [match ?c with Returns _ => _ | Throws _ => _ end] => destruct c
      end;
      unfold Chat.append at 1; cbn [Chat.localStorage Chat.messages];
      unfold Chat.save, setItem; apply lookup_insert_eq. }
  split.
  - unfold Chat.start, Chat.load, safelyParseJson, getItem. cbn [Chat.messages].
    rewrite Hstore, (JSON_parse_stringify _ Hwf). reflexivity.
  - unfold Chat.start, Chat.clearHistory, Chat.load, Chat.save, safelyParseJson,
      getItem, setItem.
    cbn [Chat.messages Chat.localStorage]. rewrite lookup_insert_eq. reflexivity.
Qed.

Lemma history_restored_witness :
  Chat.messages
    (Chat.start
       (Chat.localStorage
          (Chat.handleSend 1 2 (fun _ => Chat.NetworkError "offline")
             (Chat.mkState [] ∅ "Hi" []))))
  = [Chat.message "user" (JStr "Hi") 1;
     Chat.message "assistant" (JStr "Please set your API key in the API dialog.") 2].
Proof.
  exact (proj1 (history_restored 1 2 (fun _ => Chat.NetworkError "offline")
                  (Chat.mkState [] ∅ "Hi" []) eq_refl eq_refl)).
Defined.
